(** * pytest-sessions: a shallow embedding of [pytest_sessions/__init__.py]

    The plugin keeps one sqlite store per test session (table [items], one
    row per node id), joins it against a read-only reference store, and
    drives selection, collection skipping and reordering from it.

    Conventions of the embedding:
    - the [items] table is a finite map from node id to row (the unique
      index on [nodeid] makes it one);
    - the [outcome] column is the enumeration of its CHECK constraint;
    - python exceptions are values of [exn], a fallible step returns
      [result];
    - [pathlib.Path] values are the tuple of their parts;
    - where the order of the rows matters (the replay of a session) the
      table is the list of its rows, in the order a [SELECT] yields them,
      and the host's deserialisers are functions that may raise. *)

From stdpp Require Import base strings gmap list sorting.
From Stdlib Require Import ZArith Lia Ascii DecimalString.

Open Scope string_scope.
Open Scope Z_scope.

(** ** Exceptions *)

(** [Empty] is the plugin's own exception class. *)
Inductive exn :=
  IntegrityError | KeyError | ValueError | AssertionError | Empty
| OverflowError.

Inductive result (A : Type) :=
| Ok (a : A)
| Raise (e : exn).
Arguments Ok {A} a.
Arguments Raise {A} e.

Definition bind {A B} (m : result A) (f : A → result B) : result B :=
  match m with Ok a => f a | Raise e => Raise e end.

Notation "x ←! m ; k" := (bind m (fun x => k))
  (at level 100, m at next level, right associativity).

(** ** The [items] table *)

(** [outcome text not null CHECK (outcome in (...))]. *)
Inductive Outcome :=
| pending | skipped | xfailed | xpassed | warnings | error | failed | passed.

Global Instance Outcome_eq_dec : EqDecision Outcome.
Proof. solve_decision. Defined.

Definition outcome_text (o : Outcome) : string :=
  match o with
  | pending => "pending" | skipped => "skipped" | xfailed => "xfailed"
  | xpassed => "xpassed" | warnings => "warnings" | error => "error"
  | failed => "failed" | passed => "passed"
  end.

Record Row := mkRow {
  outcome : Outcome;
  collect : option string;
  setup : option string;
  call : option string;
  teardown : option string;
  filename : option string;
  lineno : option Z;
  testname : option string
}.

Abbreviation Store := (gmap string Row).

(** [INSERT INTO items (nodeid, outcome) VALUES (?, 'pending')]: every
    other column is NULL. *)
Definition pending_row : Row :=
  mkRow pending None None None None None None None.

Definition set_outcome (o : Outcome) (r : Row) : Row :=
  mkRow o (collect r) (setup r) (call r) (teardown r)
        (filename r) (lineno r) (testname r).

(** [UPDATE items SET {when} = ?] for a column named after a phase; the
    caller only passes one of the three phase names. *)
Definition set_phase (when : string) (blob : string) (r : Row) : Row :=
  if String.eqb when "setup" then
    mkRow (outcome r) (collect r) (Some blob) (call r) (teardown r)
          (filename r) (lineno r) (testname r)
  else if String.eqb when "call" then
    mkRow (outcome r) (collect r) (setup r) (Some blob) (teardown r)
          (filename r) (lineno r) (testname r)
  else if String.eqb when "teardown" then
    mkRow (outcome r) (collect r) (setup r) (call r) (Some blob)
          (filename r) (lineno r) (testname r)
  else r.

Definition get_phase (when : string) (r : Row) : option string :=
  if String.eqb when "setup" then setup r
  else if String.eqb when "call" then call r
  else if String.eqb when "teardown" then teardown r
  else None.

(** ** Host values *)

(** [pathlib.Path] as the tuple of its parts. *)
Abbreviation Path := (list string).

(** A collected [pytest.Item]: what the plugin reads from it. *)
Record Item := mkItem {
  nodeid : string;
  path : Path;
  st_mtime : Z  (* [it.path.stat().st_mtime]; only negated and compared *)
}.

(** [report.outcome] of a [pytest.TestReport]. *)
Inductive ReportOutcome := rpassed | rfailed | rskipped.

Global Instance ReportOutcome_eq_dec : EqDecision ReportOutcome.
Proof. solve_decision. Defined.

Record TestReport := mkReport {
  rep_nodeid : string;
  rep_when : string;
  rep_outcome : ReportOutcome;
  rep_wasxfail : bool;     (* [hasattr(report, 'wasxfail')] *)
  rep_json : string        (* [json.dumps(report._to_json())] *)
}.

(** [report.skipped] is [report.outcome == "skipped"]. *)
Definition rep_skipped (rep : TestReport) : bool :=
  match rep_outcome rep with rskipped => true | _ => false end.

(** A [pytest.CollectReport]: [report.failed] and [report.skipped] read
    its [outcome]. *)
Record CollectReport := mkCollectReport {
  crep_nodeid : string;
  crep_outcome : ReportOutcome;
  crep_json : string       (* [json.dumps(report._to_json())] *)
}.

(** [str(n)] for a natural number. *)
Definition str_nat (n : nat) : string :=
  NilZero.string_of_uint (Nat.to_uint n).

(** ** Python list helpers *)

(** [sorted(l)] / [l.sort()] for the order [le] on keys: a stable sort. *)
Fixpoint insert_sorted {A} (le : A → A → bool) (x : A) (l : list A) : list A :=
  match l with
  | [] => [x]
  | y :: l' => if le x y then x :: y :: l' else y :: insert_sorted le x l'
  end.

Fixpoint py_sorted {A} (le : A → A → bool) (l : list A) : list A :=
  match l with
  | [] => []
  | x :: l' => insert_sorted le x (py_sorted le l')
  end.

(** [l[:stop]]. *)
Definition slice_until {A} (l : list A) (stop : Z) : list A :=
  if stop <? 0
  then take (Z.to_nat (Z.max 0 (Z.of_nat (length l) + stop))) l
  else take (Z.to_nat stop) l.

(** ** The schema *)

(** [init_db]: an empty [items] table and [PRAGMA user_version = 1]. *)
Definition init_db : Store * Z := (∅, 1).

(** ** SessionPlugin *)

Module SessionPlugin.

(** One [INSERT] of [executemany]; the unique index on [nodeid] rejects
    a second row for an id. *)
Definition insert_pending (cn : Store) (id : string) : result Store :=
  match cn !! id with
  | Some _ => Raise IntegrityError
  | None => Ok (<[id := pending_row]> cn)
  end.

(** [executemany] in autocommit mode: the statements before the failing
    one stay applied.  The store is returned next to the outcome. *)
Fixpoint executemany_insert (cn : Store) (ids : list string)
  : Store * result unit :=
  match ids with
  | [] => (cn, Ok tt)
  | id :: ids' =>
      match insert_pending cn id with
      | Ok cn' => executemany_insert cn' ids'
      | Raise e => (cn, Raise e)
      end
  end.

Definition pytest_collection_modifyitems (cn : Store) (items : list Item)
  : Store * result unit :=
  executemany_insert cn (map nodeid items).

(** [UPDATE items SET outcome = 'warnings' WHERE nodeid = ?]. *)
Definition pytest_warning_recorded (cn : Store) (when : string)
    (nodeid : string) : Store :=
  if String.eqb nodeid EmptyString || negb (String.eqb when "runtest") then cn
  else alter (set_outcome warnings) nodeid cn.

(** The outcome written for a phase report. *)
Definition normalized (rep : TestReport) : Outcome :=
  if rep_wasxfail rep then
    if rep_skipped rep then xfailed
    else match rep_outcome rep with      (* f'x{outcome}' *)
         | rpassed => xpassed
         | rfailed => xfailed
         | rskipped => xfailed           (* excluded by [rep_skipped] *)
         end
  else if rep_skipped rep then skipped
  else if bool_decide (rep_when rep ∈ ["collect"; "setup"; "teardown"])
          && bool_decide (rep_outcome rep = rfailed)
  then error
  else match rep_outcome rep with
       | rpassed => passed
       | rfailed => failed
       | rskipped => skipped
       end.

Definition overwritable (o : Outcome) : bool :=
  bool_decide (o ∈ [pending; passed]).

Definition pytest_runtest_logreport (cn : Store) (rep : TestReport) : Store :=
  let o := normalized rep in
  let cn1 :=
    alter (fun r => if overwritable (outcome r) then set_outcome o r else r)
          (rep_nodeid rep) cn in
  if bool_decide (rep_when rep ∈ ["setup"; "call"; "teardown"])
  then alter (set_phase (rep_when rep) (rep_json rep)) (rep_nodeid rep) cn1
  else cn1.

(** What session finish reads from the configuration. *)
Record Config := mkConfig {
  cacheshow : bool;
  workerinput : bool;      (* [hasattr(config, "workerinput")] *)
  collectonly : bool;
  sessions_limit : Z
}.

(** The part of the world session finish writes: the live store's
    [user_version] and the names in the sessions directory. *)
Record Disk := mkDisk {
  user_version : Z;
  dbdir : gset string
}.

(** [dbdir.glob("session-*")], in the directory's own order. *)
Definition glob_sessions (dir : gset string) : list string :=
  filter (fun name => String.prefix "session-" name = true) (elements dir).

(** [dbfile.unlink(missing_ok=True)]. *)
Definition unlink_missing_ok (dir : gset string) (name : string) : gset string :=
  dir ∖ {[name]}.

Definition pytest_sessionfinish (config : Config) (d : Disk) : Disk :=
  if cacheshow config || workerinput config then d
  else if collectonly config then d
  else
    let sessionfiles := py_sorted String.leb (glob_sessions (dbdir d)) in
    mkDisk 5
      (foldl unlink_missing_ok (dbdir d)
             (slice_until sessionfiles (- sessions_limit config))).

(** [INSERT INTO items (nodeid, outcome, collect) VALUES (?, ?, ?)
    ON CONFLICT DO UPDATE SET outcome = excluded.outcome,
    collect = excluded.collect]. *)
Definition upsert_collect (cn : Store) (id : string) (o : Outcome)
    (blob : string) : Store :=
  match cn !! id with
  | Some r =>
      <[id := mkRow o (Some blob) (setup r) (call r) (teardown r)
                    (filename r) (lineno r) (testname r)]> cn
  | None => <[id := mkRow o (Some blob) None None None None None None]> cn
  end.

Definition pytest_collectreport (cn : Store) (report : CollectReport) : Store :=
  match crep_outcome report with
  | rfailed =>
      upsert_collect cn (crep_nodeid report) failed (crep_json report)
  | rskipped =>
      upsert_collect cn (crep_nodeid report) skipped (crep_json report)
  | rpassed => cn
  end.

(** An [int] that sqlite3 binds to a statement is a signed 64-bit
    integer; for any other it raises [OverflowError] before the
    statement runs. *)
Definition sqlite_int (z : Z) : bool := (- 2 ^ 63 <=? z) && (z <? 2 ^ 63).

(** [UPDATE items SET filename = ?, lineno = ?, testname = ?
    WHERE nodeid = ?] with [location: tuple[str, int | None, str]]. *)
Definition pytest_runtest_logstart (cn : Store) (nodeid : string)
    (location : string * option Z * string) : Store * result unit :=
  if from_option sqlite_int true location.1.2 then
    (alter (fun r => mkRow (outcome r) (collect r) (setup r) (call r)
                           (teardown r) (Some location.1.1) location.1.2
                           (Some location.2))
           nodeid cn,
     Ok tt)
  else (cn, Raise OverflowError).

End SessionPlugin.

(** ** IdTrie *)

(** [str.split('::')]: the separator is matched left to right. *)
Definition cons_head (c : ascii) (fields : list string) : list string :=
  match fields with
  | [] => [String c EmptyString]
  | h :: t => String c h :: t
  end.

Fixpoint split_colons (s : string) : list string :=
  match s with
  | EmptyString => [EmptyString]
  | String c rest =>
      match rest with
      | String c' rest' =>
          if Ascii.eqb c ":" && Ascii.eqb c' ":"
          then EmptyString :: split_colons rest'
          else cons_head c (split_colons rest)
      | EmptyString => cons_head c (split_colons rest)
      end
  end.

Fixpoint split_slash (s : string) : list string :=
  match s with
  | EmptyString => [EmptyString]
  | String c rest =>
      if Ascii.eqb c "/" then EmptyString :: split_slash rest
      else cons_head c (split_slash rest)
  end.

(** [pathlib.Path(s).parts] on a POSIX host: the root first if there is
    one, then the components, empty and ["."] components dropped. *)
Definition path_root (s : string) : list string :=
  if String.prefix "///" s then ["/"]
  else if String.prefix "//" s then ["//"]
  else if String.prefix "/" s then ["/"]
  else [].

Definition parts (s : string) : Path :=
  path_root s
  ++ filter (fun x => x ≠ EmptyString ∧ x ≠ ".") (split_slash s).

Definition is_absolute (p : Path) : bool :=
  match p with
  | r :: _ => String.eqb r "/" || String.eqb r "//"
  | [] => false
  end.

(** [p.relative_to(other)]: [ValueError] unless [other] leads to [p]. *)
Definition relative_to (p other : Path) : result Path :=
  if bool_decide (other `prefix_of` p)
     && Bool.eqb (is_absolute p) (is_absolute other)
  then Ok (drop (length other) p)
  else Raise ValueError.

(** [os.fspath(p)]. *)
Definition fspath (p : Path) : string :=
  match p with
  | [] => "."
  | r :: rest =>
      if is_absolute p then r ++ String.concat "/" rest
      else String.concat "/" p
  end.

(** [Trie = dict[str, 'Trie']]. *)
#[warnings="-register-all"]
Inductive Trie := Dict (d : gmap string Trie).

Definition children (t : Trie) : gmap string Trie :=
  match t with Dict d => d end.

(** The argument of [in]: a [pathlib.Path] or a [str]. *)
Inductive Query :=
| QPath (p : Path)
| QStr (s : string).

Module IdTrie.

Record t := mk {
  rootpath : Path;
  d : Trie
}.

(** [path, *symbols = nodeid.split('::')] then
    [chain(Path(path).parts, symbols)]. *)
Definition id_to_path (nodeid : string) : list string :=
  match split_colons nodeid with
  | [] => []
  | path :: symbols => parts path ++ symbols
  end.

(** [d = self.d; for k in segments: d = d.setdefault(k, {})], as the
    dictionary [self.d] it leaves behind. *)
Fixpoint setdefault_path (segments : list string) (t : Trie) : Trie :=
  match segments with
  | [] => t
  | k :: ks =>
      Dict (<[k := setdefault_path ks (default (Dict ∅) (children t !! k))]>
              (children t))
  end.

Definition __init__ (rootpath : Path) (nodeids : list string) : t :=
  mk rootpath
     (foldl (fun d nodeid => setdefault_path (id_to_path nodeid) d)
            (Dict ∅) nodeids).

(** [bool(self.d)]. *)
Definition __bool__ (self : t) : bool :=
  negb (bool_decide (size (children (d self)) = 0%nat)).

(** The loop of [__contains__]; [None] is python's [None]. *)
Fixpoint walk (segments : list string) (d : option Trie) : bool :=
  match segments with
  | [] => bool_decide (is_Some d)
  | segment :: rest =>
      match d with
      | None => false
      | Some t => walk rest (children t !! segment)
      end
  end.

(** The string [__contains__] walks for a query. *)
Definition query_text (self : t) (item : Query) : result string :=
  match item with
  | QPath p => rel ←! relative_to p (rootpath self); Ok (fspath rel)
  | QStr s => Ok s
  end.

Definition contains_text (self : t) (s : string) : bool :=
  walk (id_to_path s) (Some (d self)).

Definition __contains__ (self : t) (item : Query) : result bool :=
  s ←! query_text self item;
  Ok (contains_text self s).

End IdTrie.

(** ** The collection tree *)

(** The classes [isinstance] tells apart; [KCollector] is any other
    [pytest.Collector], a class for instance. *)
Inductive Kind := KSession | KDirectory | KFile | KCollector.

Global Instance Kind_eq_dec : EqDecision Kind.
Proof. solve_decision. Defined.

(** A node with what collecting it yields: [result] is the
    [report.result] of the host's own collection of that collector. *)
#[warnings="-register-all"]
Inductive Node :=
| Leaf (it : Item)
| Collect (k : Kind) (id : string) (p : Path) (result : list Node).

Definition node_nodeid (n : Node) : string :=
  match n with Leaf it => nodeid it | Collect _ id _ _ => id end.

Definition node_path (n : Node) : Path :=
  match n with Leaf it => path it | Collect _ _ p _ => p end.

(** [isinstance(node, pytest.Collector)]. *)
Definition is_collector (n : Node) : bool :=
  match n with Leaf _ => false | Collect _ _ _ _ => true end.

(** Every item under a node: the host's collection with no plugin. *)
Fixpoint leaves (n : Node) : list Item :=
  match n with
  | Leaf it => [it]
  | Collect _ _ _ result => concat (map leaves result)
  end.

Fixpoint mapM {A B} (f : A → result B) (l : list A) : result (list B) :=
  match l with
  | [] => Ok []
  | x :: l' => y ←! f x; ys ←! mapM f l'; Ok (y :: ys)
  end.

(** ** SkipCollection and SkipCollected *)

Module SkipCollection.

Record t := mk {
  rootdir : Path;
  trie : IdTrie.t
}.

(** The mutable attributes, and whether [SkipCollected] is registered. *)
Record State := mkState {
  skipped_paths : nat;
  found_failure : bool;
  skipcollected : bool
}.

Definition initial : State := mkState 0 false false.

(** [rootpath.joinpath(path)]. *)
Definition joinpath (rootpath : Path) (s : string) : Path :=
  if is_absolute (parts s) then parts s else rootpath ++ parts s.

(** [SELECT nodeid FROM reference.items WHERE outcome in (...)]. *)
Definition selected_nodeids (reference : Store) (outcomes : gset string)
    : list string :=
  (map_to_list
     (filter (fun kv => outcome_text (outcome kv.2) ∈ outcomes) reference)).*1.

Definition __init__ (rootpath : Path) (is_file : Path → bool)
    (reference : Store) (outcomes : gset string) : result t :=
  if bool_decide (outcomes = ∅) then Raise AssertionError
  else if bool_decide ("new" ∈ outcomes) then Raise AssertionError
  else
    let nodeids := selected_nodeids reference outcomes in
    let paths := (fun nodeid => hd EmptyString (split_colons nodeid)) <$> nodeids in
    if negb (existsb (fun path => is_file (joinpath rootpath path)) paths)
    then Raise Empty
    else
      let trie := IdTrie.__init__ rootpath nodeids in
      if negb (IdTrie.__bool__ trie) then Raise Empty
      else Ok (mk rootpath trie).

Section hooks.
(** A child of a report travels with what the traversal does next
    with it. *)
Context {A : Type}.
Variable self : t.
Variable isinitpath : Path → bool.

(** [SkipCollected.pytest_make_collect_report]: [Some] is the
    synthetic report's [result], [None] lets the host collect. *)
Definition skipcollected_report (st : State) (k : Kind) (p : Path)
    : result (option (list (Node * A)) * State) :=
  if bool_decide (k = KFile) then
    b ←! IdTrie.__contains__ (trie self) (QPath p);
    if negb b
    then Ok (Some [],
             mkState (S (skipped_paths st)) (found_failure st)
                     (skipcollected st))
    else Ok (None, st)
  else Ok (None, st).

(** [report.result.sort(key=lambda node: node.path in self.trie,
    reverse=True)]: the keys are computed first, then the list is
    sorted, equal keys keeping their order. *)
Definition sort_by_trie (nodes : list (Node * A))
    : result (list (Node * A)) :=
  keys ←! mapM (fun n => IdTrie.__contains__ (trie self)
                           (QPath (node_path n.1))) nodes;
  Ok ((py_sorted (fun a b => implb b.1 a.1) (zip keys nodes)).*2).

Definition keep_node (n : Node * A) : bool :=
  IdTrie.contains_text (trie self) (node_nodeid n.1)
  || isinitpath (node_path n.1)
  || is_collector n.1.

(** The wrapper [SkipCollection.pytest_make_collect_report], after
    its [yield] returned a report with result [nodes]. *)
Definition wrap_report (st : State) (k : Kind) (p : Path)
    (nodes : list (Node * A)) : result (list (Node * A) * State) :=
  if bool_decide (k = KSession) || bool_decide (k = KDirectory) then
    sorted ←! sort_by_trie nodes;
    Ok (sorted, st)
  else if bool_decide (k = KFile) then
    b ←! IdTrie.__contains__ (trie self) (QPath p);
    if b then
      if negb (found_failure st)
         && negb (existsb
                    (fun x => IdTrie.contains_text (trie self)
                                (node_nodeid x.1)) nodes)
      then Ok (nodes, st)
      else
        Ok (filter (fun n => keep_node n = true) nodes,
            if found_failure st then st
            else mkState (skipped_paths st) true true)
    else Ok (nodes, st)
  else Ok (nodes, st).

(** The whole hook call for one collector: [SkipCollected] first
    when it is registered, else the host's collection, then the
    wrapper. *)
Definition pytest_make_collect_report (st : State) (k : Kind) (p : Path)
    (collected : list (Node * A)) : result (list (Node * A) * State) :=
  r ←! (if skipcollected st then skipcollected_report st k p
        else Ok (None, st));
  wrap_report r.2 k p (default collected r.1).

End hooks.

(** The host's traversal ([Session.genitems]): a collector is
    collected through the hook, then its reported children in order. *)
Fixpoint run_all (st : State)
    (nodes : list (Node * (State → result (list Item * State))))
    : result (list Item * State) :=
  match nodes with
  | [] => Ok ([], st)
  | n :: rest =>
      r ←! n.2 st;
      r' ←! run_all r.2 rest;
      Ok ((r.1 ++ r'.1)%list, r'.2)
  end.

Fixpoint genitems (self : t) (isinitpath : Path → bool) (n : Node)
    : State → result (list Item * State) :=
  match n with
  | Leaf it => fun st => Ok ([it], st)
  | Collect k _ p result =>
      let collected :=
        map (fun c => (c, genitems self isinitpath c)) result in
      fun st =>
        r ←! pytest_make_collect_report self isinitpath st k p collected;
        run_all r.2 r.1
  end.

End SkipCollection.

(** ** RerunPlugin *)

(** Inverse of [outcome_text]: the CHECK constraint seen from a statement
    that writes a text value into the [outcome] column. *)
Definition outcome_of_text (s : string) : option Outcome :=
  snd <$> list_find (fun o => outcome_text o = s)
            [pending; skipped; xfailed; xpassed; warnings; error; failed; passed].

Module RerunPlugin.

Record t := mk {
  rerun : option (gset string);
  all_if_none : bool
}.

(** [not self.rerun]: [None] and the empty set are both falsy. *)
Definition rerun_falsy (self : t) : bool :=
  match rerun self with
  | None => true
  | Some tags => bool_decide (tags = ∅)
  end.

Definition rerun_tags (self : t) : gset string :=
  default ∅ (rerun self).

(** [__init__], from the stripped non-empty fields of the [rerun]
    option ([None] when the option is absent or empty).  The second
    component is the [SkipCollection] plugin when one is registered. *)
Definition __init__ (rootpath : Path) (is_file : Path → bool)
    (reference : Store) (fields : option (list string))
    (all_if_none : bool) : result (t * option SkipCollection.t) :=
  match fields with
  | None => Ok (mk None all_if_none, None)
  | Some fields =>
      let tags : gset string := list_to_set fields in
      if negb (bool_decide (tags = ∅)) && negb (bool_decide ("new" ∈ tags))
      then
        match SkipCollection.__init__ rootpath is_file reference tags with
        | Ok skip => Ok (mk (Some tags) all_if_none, Some skip)
        | Raise Empty =>
            Ok (mk (if all_if_none then None else Some tags) all_if_none,
                None)
        | Raise e => Raise e
        end
      else Ok (mk (Some tags) all_if_none, None)
  end.

(** [INSERT INTO main.items SELECT * FROM reference.items WHERE true
    ON CONFLICT DO NOTHING]. *)
Definition merge_reference (main reference : Store) : Store :=
  main ∪ reference.

(** [SELECT main.items.nodeid, coalesce(reference.items.outcome, 'new')
    FROM main.items LEFT JOIN reference.items ON (...)], as a dict. *)
Definition prev (main reference : Store) : gmap string string :=
  map_imap
    (fun id _ =>
       Some (match reference !! id with
             | Some r => outcome_text (outcome r)
             | None => "new"
             end))
    main.

(** [prev[item.nodeid]]. *)
Definition prev_get (p : gmap string string) (it : Item) : result string :=
  match p !! nodeid it with
  | Some o => Ok o
  | None => Raise KeyError
  end.

(** The loop filling [kept] and [deselected]. *)
Fixpoint split_items (p : gmap string string) (tags : gset string)
    (items : list Item) : result (list Item * list Item) :=
  match items with
  | [] => Ok ([], [])
  | it :: items' =>
      o ←! prev_get p it;
      kd ←! split_items p tags items';
      Ok (if bool_decide (o ∈ tags)
          then (it :: kd.1, kd.2)
          else (kd.1, it :: kd.2))
  end.

(** [(outcome, item.nodeid) for item in deselected
     if (outcome := prev[item.nodeid]) != 'new']. *)
Fixpoint updates (p : gmap string string) (deselected : list Item)
    : result (list (string * string)) :=
  match deselected with
  | [] => Ok []
  | it :: rest =>
      o ←! prev_get p it;
      us ←! updates p rest;
      Ok (if String.eqb o "new" then us else (o, nodeid it) :: us)
  end.

(** [UPDATE main.items SET outcome = ? WHERE nodeid = ?]; the CHECK
    constraint is evaluated on the rows the statement rewrites. *)
Definition update_outcome (cn : Store) (u : string * string) : result Store :=
  match cn !! u.2 with
  | None => Ok cn
  | Some r =>
      match outcome_of_text u.1 with
      | Some o => Ok (<[u.2 := set_outcome o r]> cn)
      | None => Raise IntegrityError
      end
  end.

Fixpoint executemany_update (cn : Store) (us : list (string * string))
    : Store * result unit :=
  match us with
  | [] => (cn, Ok tt)
  | u :: us' =>
      match update_outcome cn u with
      | Ok cn' => executemany_update cn' us'
      | Raise e => (cn, Raise e)
      end
  end.

(** What the hook leaves behind: the list [items] after the call and the
    argument of [config.hook.pytest_deselected], when it was called. *)
Record Selection := mkSelection {
  selected : list Item;
  deselected_hook : option (list Item)
}.

Definition pytest_collection_modifyitems (self : t)
    (main reference : Store) (items : list Item)
    : Store * result Selection :=
  let main1 := merge_reference main reference in
  if rerun_falsy self then (main1, Ok (mkSelection items None))
  else
    let p := prev main1 reference in
    match split_items p (rerun_tags self) items with
    | Raise e => (main1, Raise e)
    | Ok (kept, deselected) =>
        if negb (bool_decide (kept = [])) || negb (all_if_none self) then
          match updates p deselected with
          | Raise e => (main1, Raise e)
          | Ok us =>
              let (main2, r) := executemany_update main1 us in
              (main2, _ ←! r; Ok (mkSelection kept (Some deselected)))
          end
        else (main1, Ok (mkSelection items None))
    end.

(** [UPDATE main.items SET outcome = reference.items.outcome
    FROM reference.items WHERE main.items.nodeid = reference.items.nodeid
    AND main.items.outcome = 'pending'
    AND reference.items.outcome != 'passed']. *)
Definition pytest_sessionfinish (main reference : Store) : Store :=
  map_imap
    (fun id r =>
       Some (match reference !! id with
             | Some rr =>
                 if bool_decide (outcome r = pending)
                    && negb (bool_decide (outcome rr = passed))
                 then set_outcome (outcome rr) r
                 else r
             | None => r
             end))
    main.

End RerunPlugin.


(** ** ReorderPlugin *)

Module ReorderPlugin.

Record t := mk {
  reorder : gmap string Z
}.

(** [{o: i for i, o in enumerate(fields)}] of [pytest_configure], from
    the stripped non-empty fields of the [rerun-order] option. *)
Fixpoint enumerate_from (i : Z) (fields : list string)
    (acc : gmap string Z) : gmap string Z :=
  match fields with
  | [] => acc
  | o :: rest => enumerate_from (i + 1) rest (<[o := i]> acc)
  end.

Definition configure (fields : list string) : t :=
  mk (enumerate_from 0 fields ∅).

(** [SELECT coalesce(main.items.nodeid, reference.items.nodeid),
    coalesce(reference.items.outcome, 'new')
    FROM main.items FULL OUTER JOIN reference.items ON (...)]. *)
Definition prev (main reference : Store) : gmap string string :=
  map_imap
    (fun id _ =>
       Some (match reference !! id with
             | Some r => outcome_text (outcome r)
             | None => "new"
             end))
    (main ∪ reference).

(** [(self.reorder.get(prev[it.nodeid], 99), -it.path.stat().st_mtime)]. *)
Definition key (self : t) (p : gmap string string) (it : Item)
    : result (Z * Z) :=
  match p !! nodeid it with
  | None => Raise KeyError
  | Some o => Ok (default 99 (reorder self !! o), - st_mtime it)
  end.

(** Tuples compare lexicographically. *)
Definition key_le (a b : Z * Z) : bool :=
  (a.1 <? b.1) || ((a.1 =? b.1) && (a.2 <=? b.2)).

Definition pytest_collection_modifyitems (self : t)
    (main reference : Store) (items : list Item) : result (list Item) :=
  let p := prev main reference in
  keys ←! mapM (key self p) items;
  Ok ((py_sorted (fun a b => key_le a.1 b.1) (zip keys items)).*2).

End ReorderPlugin.

(** ** ShowSessionPlugin *)

(** [nodeid LIKE '%::%']: the text holds the separator somewhere. *)
Fixpoint like_colons (s : string) : bool :=
  match s with
  | EmptyString => false
  | String c rest =>
      match rest with
      | String c' _ => (Ascii.eqb c ":" && Ascii.eqb c' ":") || like_colons rest
      | EmptyString => false
      end
  end.

Module ShowSessionPlugin.

(** [row['filename'], row['lineno'], row['testname']]. *)
Abbreviation Location := (option string * option Z * option string)%type.

(** [report.longrepr] of a deserialised report, as far as the replay
    tells its values apart; [J] is the host's type of the values it does
    not look into. *)
Inductive LongRepr (J : Type) :=
| ReprList (elements : list J)
| ReprTuple (elements : list J)
| ReprStr (text : string)
| ReprCollectError (text : string)   (* [CollectErrorRepr(text)] *)
| ReprOther (value : J).

Arguments ReprList {J} elements.
Arguments ReprTuple {J} elements.
Arguments ReprStr {J} text.
Arguments ReprCollectError {J} text.
Arguments ReprOther {J} value.

(** A deserialised report: [report.failed], [report.longrepr], and the
    rest of it. *)
Record Report (J : Type) := mkReplayed {
  rp_failed : bool;
  rp_longrepr : LongRepr J;
  rp_rest : J
}.

Arguments mkReplayed {J} rp_failed rp_longrepr rp_rest.
Arguments rp_failed {J} r.
Arguments rp_longrepr {J} r.
Arguments rp_rest {J} r.

(** The hook calls a replay makes, in order.  The hooks are the host's:
    a call is what the replay emits. *)
Inductive Event (J : Type) :=
| pytest_collectreport (report : Report J)
| pytest_runtest_logstart (nodeid : string) (location : Location)
| pytest_runtest_logreport (report : Report J)
| pytest_runtest_logfinish (nodeid : string) (location : Location).

Arguments pytest_collectreport {J} report.
Arguments pytest_runtest_logstart {J} nodeid location.
Arguments pytest_runtest_logreport {J} report.
Arguments pytest_runtest_logfinish {J} nodeid location.

(** How a replay ends: it returns, it raises an exception of this
    module, or the host's deserialiser raised one of its own. *)
Inductive Ended (E A : Type) :=
| Returned (a : A)
| Raised (e : exn)
| HostRaised (e : E).

Arguments Returned {E A} a.
Arguments Raised {E A} e.
Arguments HostRaised {E A} e.

(** ["mock_item_{}".format(i)]. *)
Definition mock_name (i : nat) : string := "mock_item_" ++ str_nat i.

(** What [pytest_collection] leaves in the session:
    [session.testscollected], and [session.items] when it was assigned
    (the names of the mock items). *)
Record Collected := mkCollected {
  testscollected : nat;
  items : option (list string)
}.

(** [SELECT count( * ) FROM items WHERE outcome NOT IN ('pending', 'new')
    AND nodeid LIKE '%::%']. *)
Definition count_tests (rows : list (string * Row)) : nat :=
  length
    (filter (fun row => (outcome_text (outcome row.2) ∉ ["pending"; "new"])
                        ∧ like_colons row.1 = true)
            rows).

(** [row['filename'], row['lineno'], row['testname']]. *)
Definition row_location (r : Row) : Location :=
  (filename r, lineno r, testname r).

Section replay.
(** The rows of the [items] table come as a list, in the order the
    [SELECT] yields them.  The two deserialisers are the host's:
    [pytest.CollectReport._from_json(json.loads(blob))] and
    [pytest.TestReport._from_json(json.loads(blob))], [inl e] when the
    call raises [e]. *)
Context {J E : Type}.
Variable collect_from_json : string → E + Report J.
Variable test_from_json : string → E + Report J.

(** [if isinstance(report.longrepr, list): report.longrepr =
    tuple(report.longrepr)]. *)
Definition tuple_longrepr (report : Report J) : Report J :=
  match rp_longrepr report with
  | ReprList elements =>
      mkReplayed (rp_failed report) (ReprTuple elements) (rp_rest report)
  | _ => report
  end.

(** The same, [elif report.failed and isinstance(report.longrepr, str):
    report.longrepr = CollectErrorRepr(report.longrepr)]. *)
Definition rewrap_longrepr (report : Report J) : Report J :=
  match rp_longrepr report with
  | ReprList elements =>
      mkReplayed (rp_failed report) (ReprTuple elements) (rp_rest report)
  | ReprStr text =>
      if rp_failed report
      then mkReplayed (rp_failed report) (ReprCollectError text)
                      (rp_rest report)
      else report
  | _ => report
  end.

(** The loop over [SELECT * FROM items WHERE collect IS NOT NULL]: the
    calls made, and how the loop ended. *)
Fixpoint replay_collect (rows : list (string * Row))
    : list (Event J) * Ended E unit :=
  match rows with
  | [] => ([], Returned tt)
  | row :: rest =>
      match collect row.2 with
      | None => replay_collect rest
      | Some blob =>
          if bool_decide (outcome_text (outcome row.2) ∈ ["failed"; "skipped"])
          then
            match collect_from_json blob with
            | inl e => ([], HostRaised e)
            | inr report =>
                let k := replay_collect rest in
                (pytest_collectreport (rewrap_longrepr report) :: k.1, k.2)
            end
          else ([], Raised AssertionError)
      end
  end.

Definition pytest_collection (rows : list (string * Row))
    : list (Event J) * Ended E Collected :=
  let k := replay_collect rows in
  match k.2 with
  | Returned _ =>
      let count := count_tests rows in
      (k.1,
       Returned
         (mkCollected count
            (if negb (Nat.eqb count 0) then None
             else Some (mock_name <$> seq 0 count))))
  | Raised e => (k.1, Raised e)
  | HostRaised e => (k.1, HostRaised e)
  end.

(** [for phase in ('setup', 'call', 'teardown')] for one row. *)
Fixpoint replay_phases (r : Row) (phases : list string)
    : list (Event J) * Ended E unit :=
  match phases with
  | [] => ([], Returned tt)
  | phase :: rest =>
      match get_phase phase r with
      | None => replay_phases r rest
      | Some blob =>
          match test_from_json blob with
          | inl e => ([], HostRaised e)
          | inr report =>
              let k := replay_phases r rest in
              (pytest_runtest_logreport (tuple_longrepr report) :: k.1, k.2)
          end
      end
  end.

(** The body of the loop of [_replay_reports] for one row. *)
Definition replay_row (nodeid : string) (r : Row)
    : list (Event J) * Ended E unit :=
  let k := replay_phases r ["setup"; "call"; "teardown"] in
  (pytest_runtest_logstart nodeid (row_location r)
     :: k.1
     ++ match k.2 with
        | Returned _ => [pytest_runtest_logfinish nodeid (row_location r)]
        | _ => []
        end,
   k.2).

(** [for row in SELECT * FROM items WHERE nodeid LIKE '%::%']. *)
Fixpoint _replay_reports (rows : list (string * Row))
    : list (Event J) * Ended E unit :=
  match rows with
  | [] => ([], Returned tt)
  | row :: rest =>
      if like_colons row.1 then
        let k := replay_row row.1 row.2 in
        match k.2 with
        | Returned _ =>
            let k' := _replay_reports rest in ((k.1 ++ k'.1)%list, k'.2)
        | _ => k
        end
      else _replay_reports rest
  end.

(** [pytest_runtestloop]: [inl] is the message of the
    [session.Interrupted] it raises. *)
Definition pytest_runtestloop (testsfailed : nat) (rows : list (string * Row))
    : string + list (Event J) * Ended E unit :=
  if negb (Nat.eqb testsfailed 0) then
    inl (str_nat testsfailed ++ " error"
         ++ (if negb (Nat.eqb testsfailed 1) then "s" else EmptyString)
         ++ " during collection")
  else inr (_replay_reports rows).

End replay.

End ShowSessionPlugin.

(** ** pytest_configure *)

(** The command line, as [config.getoption] returns it. *)
Record Options := mkOptions {
  opt_reference : option string;
  opt_show_session : bool;
  opt_rerun : option string;
  opt_lf : bool;
  opt_lfnf : string;
  opt_sw_skip : bool;
  opt_sw_reset : bool;
  opt_sw : bool;
  opt_rerun_order : option string;
  opt_ff : bool;
  opt_nf : bool
}.

(** Truth value of an option that is [None] or a string. *)
Definition truthy (o : option string) : bool :=
  match o with
  | None => false
  | Some s => negb (String.eqb s EmptyString)
  end.

(** [refpath]: a path below the sessions directory, or [':memory:']. *)
Inductive Reference :=
| RefPath (name : string)
| RefMemory.

(** The choice of the reference store; [sessions] gives the
    [user_version] that [PRAGMA user_version] reads from each file of
    the sessions directory. *)
Definition choose_reference (reference : option string)
    (sessions : gmap string Z) : Reference :=
  if truthy reference then RefPath (default EmptyString reference)
  else
    match list_find (fun name => sessions !! name = Some 5)
            (py_sorted (fun a b => String.leb b a)
               (filter (fun name => String.prefix "session-" name = true)
                       (elements (dom sessions))))
    with
    | Some found => RefPath found.2
    | None => RefMemory
    end.

(** What [pytest_configure] hands to the plugins it registers:
    [maxfail] is [None] when [config.option.maxfail] is left alone. *)
Record Plan := mkPlan {
  plan_rerun : option string;
  plan_all_if_none : bool;
  plan_maxfail : option Z;
  plan_rerun_order : option string
}.

Definition plan_of (o : Options) : Plan :=
  let rerun_order :=
    if truthy (opt_rerun_order o) then opt_rerun_order o
    else if opt_ff o then Some "failed,error"
    else if opt_nf o then Some "new"
    else opt_rerun_order o in
  if truthy (opt_rerun o) then mkPlan (opt_rerun o) true None rerun_order
  else if opt_lf o then
    mkPlan (Some "failed,error") (String.eqb (opt_lfnf o) "all") None
           rerun_order
  else if opt_sw_skip o then
    mkPlan (Some "failed,error,pending,new") true (Some 2) rerun_order
  else if opt_sw_reset o then mkPlan None true (Some 1) rerun_order
  else if opt_sw o then
    mkPlan (Some "failed,error,pending,new") true (Some 1) rerun_order
  else mkPlan (opt_rerun o) true None rerun_order.

(** The two ways [pytest_configure] ends: only the replay plugin is
    registered, or the recording plugins are. *)
Inductive Configured :=
| Replay (reference : Reference)
| Recording (reference : Reference) (plan : Plan).

Definition pytest_configure (o : Options) (sessions : gmap string Z)
    : Configured :=
  let refpath := choose_reference (opt_reference o) sessions in
  if opt_show_session o then Replay refpath
  else Recording refpath (plan_of o).

(** ** Vocabulary of the properties *)

(** The outcome the joins read for a node id: the reference's, or the
    virtual ["new"]. *)
Definition reference_outcome (reference : Store) (id : string) : string :=
  match reference !! id with
  | Some rr => outcome_text (outcome rr)
  | None => "new"
  end.

(** A row after its reference outcome was written over it. *)
Definition carried (reference : Store) (id : string) (r : Row) : Row :=
  match reference !! id with
  | Some rr => set_outcome (outcome rr) r
  | None => r
  end.

(** The key a candidate is sorted by. *)
Definition rank (self : ReorderPlugin.t) (reference : Store) (it : Item) : Z :=
  default 99 (ReorderPlugin.reorder self
                !! reference_outcome reference (nodeid it)).

(** The text ends with a colon. *)
Fixpoint ends_with_colon (s : string) : bool :=
  match s with
  | EmptyString => false
  | String c rest =>
      match rest with
      | EmptyString => Ascii.eqb c ":"
      | String _ _ => ends_with_colon rest
      end
  end.

Definition is_ok {A} (r : result A) : bool :=
  match r with Ok _ => true | Raise _ => false end.

(** Every path of the tree lies under the root directory. *)
Fixpoint paths_under (root : Path) (n : Node) : bool :=
  is_ok (relative_to (node_path n) root)
  && match n with
     | Leaf _ => true
     | Collect _ _ _ result => forallb (paths_under root) result
     end.

(** The node ids the host gives: the id of a file is the text of its path
    relative to the root, and the id of an item below a file is the id of
    the file, the separator, and a rest. *)
Fixpoint host_ids (root : Path) (n : Node) : bool :=
  match n with
  | Leaf _ => true
  | Collect k id p result =>
      (if bool_decide (k = KFile) then
         match relative_to p root with
         | Ok rel => String.eqb id (fspath rel)
         | Raise _ => false
         end
         && forallb (fun it => String.prefix (id ++ "::") (nodeid it))
                    (concat (map leaves result))
       else true)
      && forallb (host_ids root) result
  end.

(** No file has an id that ends with a colon. *)
Fixpoint no_colon_file (n : Node) : bool :=
  match n with
  | Leaf _ => true
  | Collect k id _ result =>
      (if bool_decide (k = KFile) then negb (ends_with_colon id) else true)
      && forallb no_colon_file result
  end.

(** What the traversal owes for a child: it returns, and it yields the
    items below the child whose id is stored. *)
Definition sound_child (nodeids : list string)
    (x : Node * (SkipCollection.State
                 → result (list Item * SkipCollection.State))) : Prop :=
  ∀ st, ∃ items st',
    x.2 st = Ok (items, st')
    ∧ ∀ it, it ∈ leaves x.1 → nodeid it ∈ nodeids → it ∈ items.

(** A path component as a file system has them: not empty, not ["."],
    without a slash. *)
Fixpoint has_slash (s : string) : bool :=
  match s with
  | EmptyString => false
  | String c rest => Ascii.eqb c "/" || has_slash rest
  end.

Definition plain_part (s : string) : bool :=
  negb (String.eqb s EmptyString) && negb (String.eqb s ".") && negb (has_slash s).

(** A row keeps the recorder's rule on collection blobs: a row with a
    [collect] blob is failed or skipped. *)
Definition collect_ok (r : Row) : Prop :=
  collect r ≠ None → outcome r = failed ∨ outcome r = skipped.

Definition store_ok (cn : Store) : Prop :=
  ∀ id r, cn !! id = Some r → collect_ok r.

(** The outcome a row ends with after a series of phase outcomes: the
    stored one unless it is pending or passed, else the first phase
    outcome that is not passed, else passed (or the stored one when
    there was no report). *)
Definition merged_outcome (stored : Outcome) (phases : list Outcome) : Outcome :=
  if SessionPlugin.overwritable stored then
    match list_find (fun o => o ≠ passed) phases with
    | Some found => found.2
    | None => match phases with [] => stored | _ => passed end
    end
  else stored.

(** The blob a phase column ends with after a series of reports: that
    of the last report of the phase, else what it held. *)
Definition last_blob (phase : string) (reps : list TestReport) (r : Row)
    : option string :=
  match last (filter (fun rep => rep_when rep = phase) reps) with
  | Some rep => Some (rep_json rep)
  | None => get_phase phase r
  end.

(** What one phase report does to the row of its node id. *)
Definition recorded (rep : TestReport) (r : Row) : Row :=
  let r1 := if SessionPlugin.overwritable (outcome r)
            then set_outcome (SessionPlugin.normalized rep) r else r in
  if bool_decide (rep_when rep ∈ ["setup"; "call"; "teardown"])
  then set_phase (rep_when rep) (rep_json rep) r1 else r1.

(** The reports of a series that are about one node id. *)
Definition reports_of (id : string) (reps : list TestReport) : list TestReport :=
  filter (fun rep => rep_nodeid rep = id) reps.

(** [SkipCollected] is registered exactly when a failure was found. *)
Definition registered_ok (st : SkipCollection.State) : Prop :=
  SkipCollection.skipcollected st = SkipCollection.found_failure st.

(** What the traversal of a child may do: it yields items of the child
    only, none twice more than the host would; it never clears
    [found_failure]; and as long as [found_failure] is still unset
    afterwards it has yielded every item of the child and skipped no
    path. *)
Definition faithful_child
    (x : Node * (SkipCollection.State
                 → result (list Item * SkipCollection.State))) : Prop :=
  ∀ st items st',
    registered_ok st → x.2 st = Ok (items, st') →
    registered_ok st'
    ∧ (SkipCollection.found_failure st = true
       → SkipCollection.found_failure st' = true)
    ∧ items ⊆+ leaves x.1
    ∧ (SkipCollection.found_failure st' = false →
       items ≡ₚ leaves x.1
       ∧ SkipCollection.skipped_paths st' = SkipCollection.skipped_paths st).

(** The text holds no ["::"]: splitting it gives the text itself. *)
Definition colon_free (s : string) : bool :=
  bool_decide (split_colons s = [s]).

(** The hook calls a replay of collection makes for rows whose blobs all
    deserialise: one per collection blob, in the order of the rows. *)
Definition collect_events {J E : Type}
    (collect_from_json : string → E + ShowSessionPlugin.Report J)
    (rows : list (string * Row)) : list (ShowSessionPlugin.Event J) :=
  omap (fun row : string * Row =>
          match collect row.2 with
          | Some blob =>
              match collect_from_json blob with
              | inr report =>
                  Some (ShowSessionPlugin.pytest_collectreport
                          (ShowSessionPlugin.rewrap_longrepr report))
              | inl _ => None
              end
          | None => None
          end)
       rows.

(** The collection blob of a row, if it has one, can be replayed: the
    row is failed or skipped and the blob deserialises. *)
Definition collect_replays {J E : Type}
    (collect_from_json : string → E + ShowSessionPlugin.Report J)
    (row : string * Row) : Prop :=
  ∀ blob, collect row.2 = Some blob →
          collect_ok row.2 ∧ ∃ report, collect_from_json blob = inr report.

(** The report calls a replay makes for phase blobs that deserialise. *)
Definition report_events {J E : Type}
    (test_from_json : string → E + ShowSessionPlugin.Report J)
    (blobs : list string) : list (ShowSessionPlugin.Event J) :=
  omap (fun blob =>
          match test_from_json blob with
          | inr report =>
              Some (ShowSessionPlugin.pytest_runtest_logreport
                      (ShowSessionPlugin.tuple_longrepr report))
          | inl _ => None
          end)
       blobs.

(** Every phase blob of a row deserialises. *)
Definition phases_replay {J E : Type}
    (test_from_json : string → E + ShowSessionPlugin.Report J)
    (row : string * Row) : Prop :=
  ∀ phase blob, get_phase phase row.2 = Some blob →
                ∃ report, test_from_json blob = inr report.

(** * Properties *)

(** ** Evaluations *)

Example ex_split_colons :
  split_colons "a/b.py::T::t[x:::y]" = ["a/b.py"; "T"; "t[x"; ":y]"]
  ∧ split_colons EmptyString = [EmptyString].
Proof. split; reflexivity. Qed.

Example ex_parts :
  parts "/a//b/./c/" = ["/"; "a"; "b"; "c"]
  ∧ parts "." = [] ∧ parts EmptyString = []
  ∧ parts "a/../b" = ["a"; ".."; "b"]
  ∧ parts "//x" = ["//"; "x"].
Proof. vm_compute. repeat split. Qed.

Example ex_trie :
  let trie :=
    IdTrie.__init__ ["/"; "proj"]
      ["pkg/test_a.py::T::test_x"; "test_b.py::test_y"] in
  IdTrie.__contains__ trie (QPath ["/"; "proj"; "pkg"]) = Ok true
  ∧ IdTrie.__contains__ trie (QPath ["/"; "proj"; "other"]) = Ok false
  ∧ IdTrie.__contains__ trie (QPath ["/"; "elsewhere"]) = Raise ValueError
  ∧ IdTrie.__contains__ trie (QStr "pkg/test_a.py::T") = Ok true
  ∧ IdTrie.__contains__ trie (QStr "pkg/test_a.py::T::test_z") = Ok false
  ∧ IdTrie.__bool__ trie = true.
Proof. vm_compute. repeat split. Qed.

Example ex_normalized :
  SessionPlugin.normalized (mkReport "t" "setup" rfailed false EmptyString) = error
  ∧ SessionPlugin.normalized (mkReport "t" "call" rfailed false EmptyString) = failed
  ∧ SessionPlugin.normalized (mkReport "t" "call" rfailed true EmptyString) = xfailed
  ∧ SessionPlugin.normalized (mkReport "t" "call" rpassed true EmptyString) = xpassed
  ∧ SessionPlugin.normalized (mkReport "t" "call" rskipped true EmptyString) = xfailed
  ∧ SessionPlugin.normalized (mkReport "t" "setup" rskipped false EmptyString) = skipped.
Proof. repeat split. Qed.

Example ex_retention :
  let d := SessionPlugin.mkDisk 1
             {["session-3"; "session-1"; "saved"; "session-2"]} in
  let left limit :=
    py_sorted String.leb
      (elements
         (SessionPlugin.dbdir
            (SessionPlugin.pytest_sessionfinish
               (SessionPlugin.mkConfig false false false limit) d))) in
  left 2 = ["saved"; "session-2"; "session-3"]
  ∧ left 5 = ["saved"; "session-1"; "session-2"; "session-3"]
  ∧ left (-1) = ["saved"; "session-2"; "session-3"].
Proof. vm_compute. repeat split. Qed.

Example ex_reorder :
  ReorderPlugin.reorder (ReorderPlugin.configure ["new"; "failed"; "new"])
  !! "new" = Some 2.
Proof. reflexivity. Qed.

(** Refutes membership in a list of distinct constants. *)
Ltac not_in_list :=
  let H := fresh "Hin" in
  intros H;
  repeat (apply elem_of_cons in H as [H | H]; [discriminate H|]);
  by apply elem_of_nil in H.

(** ** Recording (SessionPlugin) *)

Lemma get_set_phase (when blob : string) (r : Row) :
  when ∈ ["setup"; "call"; "teardown"] →
  get_phase when (set_phase when blob r) = Some blob
  ∧ outcome (set_phase when blob r) = outcome r.
Proof.
  intros Hin. repeat (apply elem_of_cons in Hin as [-> | Hin]);
    [split; reflexivity .. | by apply elem_of_nil in Hin].
Qed.

(** C1. For a node id that has a row, a setup, call or teardown report
    always stores its blob in the phase column; it replaces the row's
    outcome by the normalized outcome exactly when the stored outcome is
    pending or passed, and leaves any other stored outcome alone.  A
    runtest warning with a non-empty node id sets the outcome to warnings
    whatever it was.  Rows of other node ids are not touched. *)
Theorem phase_report_recorded (cn : Store) (rep : TestReport) (r : Row) :
  cn !! rep_nodeid rep = Some r →
  rep_when rep ∈ ["setup"; "call"; "teardown"] →
  (∃ r', SessionPlugin.pytest_runtest_logreport cn rep !! rep_nodeid rep = Some r'
         ∧ get_phase (rep_when rep) r' = Some (rep_json rep)
         ∧ (outcome r ∈ [pending; passed] →
            outcome r' = SessionPlugin.normalized rep)
         ∧ (outcome r ∉ [pending; passed] → outcome r' = outcome r))
  ∧ (rep_nodeid rep ≠ EmptyString →
     SessionPlugin.pytest_warning_recorded cn "runtest" (rep_nodeid rep)
       !! rep_nodeid rep = Some (set_outcome warnings r))
  ∧ (∀ other, other ≠ rep_nodeid rep →
       SessionPlugin.pytest_runtest_logreport cn rep !! other = cn !! other).
Proof.
  intros Hrow Hwhen. split; [|split].
  - unfold SessionPlugin.pytest_runtest_logreport.
    rewrite bool_decide_eq_true_2 by done.
    rewrite !lookup_alter_eq, Hrow. simpl.
    eexists; split; [reflexivity|].
    destruct (get_set_phase (rep_when rep) (rep_json rep)
                (if SessionPlugin.overwritable (outcome r)
                 then set_outcome (SessionPlugin.normalized rep) r else r) Hwhen)
      as [Hget Hout].
    split; [exact Hget|]. rewrite Hout. unfold SessionPlugin.overwritable.
    split; intros Hc.
    + by rewrite bool_decide_eq_true_2.
    + by rewrite bool_decide_eq_false_2.
  - intros Hne. unfold SessionPlugin.pytest_warning_recorded.
    apply String.eqb_neq in Hne. rewrite Hne. simpl.
    by rewrite lookup_alter_eq, Hrow.
  - intros other Hne. unfold SessionPlugin.pytest_runtest_logreport.
    case_bool_decide; by rewrite !lookup_alter_ne.
Qed.

Lemma phase_report_recorded_witness :
  let cn : Store := {[ "t.py::test_a" := set_outcome failed pending_row ]} in
  let rep := mkReport "t.py::test_a" "teardown" rpassed false "{}" in
  ∃ r', SessionPlugin.pytest_runtest_logreport cn rep !! "t.py::test_a" = Some r'
        ∧ teardown r' = Some "{}" ∧ outcome r' = failed.
Proof.
  intros cn rep.
  destruct (phase_report_recorded cn rep (set_outcome failed pending_row))
    as [(r' & Hr' & Hblob & _ & Hkeep) _].
  - reflexivity.
  - set_solver.
  - exists r'. split; [exact Hr'|]. split; [exact Hblob|].
    apply Hkeep. not_in_list.
Defined.

(** The outcome vocabulary of a normalized report: the expected-failure
    branch is python's ['x' + outcome]. *)
Lemma normalized_xfail_text (rep : TestReport) :
  rep_wasxfail rep = true → rep_skipped rep = false →
  outcome_text (SessionPlugin.normalized rep)
  = "x" ++ outcome_text (match rep_outcome rep with
                         | rpassed => passed | rfailed => failed
                         | rskipped => skipped end).
Proof.
  unfold SessionPlugin.normalized, rep_skipped. intros -> Hs.
  destruct (rep_outcome rep); done.
Qed.

(** [executemany] of the pending rows when nothing conflicts. *)
Lemma executemany_insert_fresh (ids : list string) (cn : Store) :
  NoDup ids → (∀ id, id ∈ ids → cn !! id = None) →
  ∃ cn', SessionPlugin.executemany_insert cn ids = (cn', Ok tt)
         ∧ (∀ id, id ∈ ids → cn' !! id = Some pending_row)
         ∧ (∀ id, id ∉ ids → cn' !! id = cn !! id).
Proof.
  revert cn. induction ids as [|id ids IH]; intros cn Hnd Hfresh; simpl.
  - exists cn. split; [done|]. split; [|done]. intros id Hin. by apply elem_of_nil in Hin.
  - apply NoDup_cons in Hnd as [Hnotin Hnd].
    unfold SessionPlugin.insert_pending. rewrite (Hfresh id) by set_solver.
    destruct (IH (<[id := pending_row]> cn) Hnd) as (cn' & Hrun & Hnew & Hold).
    { intros id' Hin. rewrite lookup_insert_ne by (intros ->; done).
      apply Hfresh. set_solver. }
    exists cn'. split; [exact Hrun|]. split.
    + intros id' Hin. apply elem_of_cons in Hin as [-> | Hin].
      * rewrite (Hold id Hnotin). apply lookup_insert_eq.
      * by apply Hnew.
    + intros id' Hnotin'. rewrite Hold by set_solver.
      apply lookup_insert_ne. set_solver.
Qed.

(** [executemany] of the pending rows when an id already has a row. *)
Lemma executemany_insert_conflict (ids : list string) (cn : Store)
    (id : string) (r : Row) :
  id ∈ ids → cn !! id = Some r →
  ∃ cn', SessionPlugin.executemany_insert cn ids = (cn', Raise IntegrityError)
         ∧ cn' !! id = Some r.
Proof.
  revert cn. induction ids as [|id0 ids IH]; intros cn Hin Hrow; simpl.
  - by apply elem_of_nil in Hin.
  - unfold SessionPlugin.insert_pending.
    destruct (cn !! id0) as [r0|] eqn:H0.
    + exists cn. done.
    + assert (id ≠ id0) as Hne by congruence.
      apply elem_of_cons in Hin as [? | Hin]; [done|].
      apply IH; [done|]. by rewrite lookup_insert_ne.
Qed.

(** C7 as stated fails: an id that already has a row makes the bulk
    insert raise, it is not skipped. *)
Lemma insert_existing_row_raises :
  let cn : Store := {[ "t.py::test_a" := set_outcome failed pending_row ]} in
  SessionPlugin.pytest_collection_modifyitems cn [mkItem "t.py::test_a" [] 0]
  = (cn, Raise IntegrityError).
Proof. reflexivity. Qed.

(** C7, amended. For distinct collected ids none of which has a row, the
    bulk insert succeeds, gives every id a pending row with all other
    columns null, and leaves every other row as it was; as soon as one
    collected id already has a row the insert raises [IntegrityError],
    and that row is left as it was. *)
Theorem bulk_insert_pending (cn : Store) (items : list Item) :
  (NoDup (nodeid <$> items) →
   (∀ it, it ∈ items → cn !! nodeid it = None) →
   ∃ cn', SessionPlugin.pytest_collection_modifyitems cn items = (cn', Ok tt)
          ∧ (∀ it, it ∈ items → cn' !! nodeid it = Some pending_row)
          ∧ (∀ id, id ∉ nodeid <$> items → cn' !! id = cn !! id))
  ∧ (∀ it r, it ∈ items → cn !! nodeid it = Some r →
     ∃ cn', SessionPlugin.pytest_collection_modifyitems cn items
            = (cn', Raise IntegrityError)
            ∧ cn' !! nodeid it = Some r).
Proof.
  unfold SessionPlugin.pytest_collection_modifyitems. split.
  - intros Hnd Hfresh.
    destruct (executemany_insert_fresh (nodeid <$> items) cn Hnd)
      as (cn' & Hrun & Hnew & Hold).
    { intros id Hin. apply list_elem_of_fmap in Hin as (it & -> & Hin). eauto. }
    exists cn'. split; [exact Hrun|]. split; [|exact Hold].
    intros it Hin. apply Hnew. apply list_elem_of_fmap. eauto.
  - intros it r Hin Hrow.
    apply (executemany_insert_conflict (nodeid <$> items) cn (nodeid it) r);
      [|done].
    apply list_elem_of_fmap. eauto.
Qed.

Lemma bulk_insert_pending_witness :
  ∃ cn', SessionPlugin.pytest_collection_modifyitems ∅
           [mkItem "t.py::test_a" [] 0; mkItem "t.py::test_b" [] 0]
         = (cn', Ok tt)
         ∧ cn' !! "t.py::test_b" = Some pending_row.
Proof.
  destruct (bulk_insert_pending ∅
              [mkItem "t.py::test_a" [] 0; mkItem "t.py::test_b" [] 0])
    as [Hfresh _].
  destruct Hfresh as (cn' & Hrun & Hnew & _).
  - cbn [fmap list_fmap nodeid]. apply NoDup_cons.
    split; [not_in_list | apply NoDup_singleton].
  - intros it _. apply lookup_empty.
  - exists cn'. split; [exact Hrun|].
    apply (Hnew (mkItem "t.py::test_b" [] 0)). set_solver.
Defined.

(** ** Rerun selection (RerunPlugin) *)

Lemma outcome_of_text_text (o : Outcome) : outcome_of_text (outcome_text o) = Some o.
Proof. by destruct o. Qed.

Lemma outcome_text_not_new (o : Outcome) : outcome_text o ≠ "new".
Proof. by destruct o. Qed.

Lemma set_outcome_twice (o o' : Outcome) (r : Row) :
  set_outcome o (set_outcome o' r) = set_outcome o r.
Proof. reflexivity. Qed.

Lemma set_outcome_same (r : Row) : set_outcome (outcome r) r = r.
Proof. by destruct r. Qed.

Lemma rerun_prev_lookup (main reference : Store) (id : string) :
  RerunPlugin.prev main reference !! id
  = (fun _ => reference_outcome reference id) <$> main !! id.
Proof.
  unfold RerunPlugin.prev, reference_outcome. rewrite map_lookup_imap.
  by destruct (main !! id).
Qed.

Lemma split_items_total (p : gmap string string) (tags : gset string)
    (items : list Item) :
  (∀ it, it ∈ items → is_Some (p !! nodeid it)) →
  ∃ kept deselected, RerunPlugin.split_items p tags items = Ok (kept, deselected).
Proof.
  induction items as [|it items IH]; intros Hrows; simpl; [by eauto|].
  unfold RerunPlugin.prev_get.
  destruct (Hrows it) as [o ->]; [by left|]. simpl.
  destruct IH as (k & d & ->); [intros; apply Hrows; by right|].
  simpl. case_bool_decide; eauto.
Qed.

Lemma split_items_inv (p : gmap string string) (tags : gset string)
    (items kept deselected : list Item) :
  RerunPlugin.split_items p tags items = Ok (kept, deselected) →
  (∀ it, it ∈ items ↔ it ∈ kept ∨ it ∈ deselected)
  ∧ (∀ it, it ∈ kept → ∃ o, p !! nodeid it = Some o ∧ o ∈ tags)
  ∧ (∀ it, it ∈ deselected → ∃ o, p !! nodeid it = Some o ∧ o ∉ tags).
Proof.
  revert kept deselected.
  induction items as [|it items IH]; intros kept deselected; simpl.
  - intros [= <- <-]. repeat split; try (intros it Hin; by apply elem_of_nil in Hin).
    + intros Hin; by apply elem_of_nil in Hin.
    + intros [Hin|Hin]; by apply elem_of_nil in Hin.
  - unfold RerunPlugin.prev_get.
    destruct (p !! nodeid it) as [o|] eqn:Ho; simpl; [|done].
    destruct (RerunPlugin.split_items p tags items) as [[k d]|] eqn:Hrec;
      simpl; [|done].
    destruct (IH k d eq_refl) as (Hmem & Hk & Hd).
    case_bool_decide; intros [= <- <-]; (split; [|split]).
    + intros it'. rewrite !elem_of_cons, Hmem. tauto.
    + intros it' [-> | Hin]%elem_of_cons; eauto.
    + done.
    + intros it'. rewrite !elem_of_cons, Hmem. tauto.
    + done.
    + intros it' [-> | Hin]%elem_of_cons; eauto.
Qed.

Lemma split_items_none_kept (p : gmap string string) (tags : gset string)
    (items : list Item) :
  (∀ it, it ∈ items → ∃ o, p !! nodeid it = Some o ∧ o ∉ tags) →
  RerunPlugin.split_items p tags items = Ok ([], items).
Proof.
  induction items as [|it items IH]; intros Hnone; simpl; [done|].
  unfold RerunPlugin.prev_get.
  destruct (Hnone it) as (o & -> & Hnot); [by left|]. simpl.
  rewrite IH by (intros; apply Hnone; by right). simpl.
  by rewrite bool_decide_eq_false_2.
Qed.

Lemma updates_spec (main reference : Store) (deselected : list Item) :
  (∀ it, it ∈ deselected → is_Some (main !! nodeid it)) →
  ∃ us, RerunPlugin.updates (RerunPlugin.prev main reference) deselected = Ok us
        ∧ (∀ u, u ∈ us →
             ∃ rr, reference !! u.2 = Some rr ∧ u.1 = outcome_text (outcome rr))
        ∧ (∀ it rr, it ∈ deselected → reference !! nodeid it = Some rr →
             (outcome_text (outcome rr), nodeid it) ∈ us).
Proof.
  induction deselected as [|it rest IH]; intros Hrows; simpl.
  - exists []. split; [done|]. split.
    + intros u Hin; by apply elem_of_nil in Hin.
    + intros it rr Hin; by apply elem_of_nil in Hin.
  - unfold RerunPlugin.prev_get. rewrite rerun_prev_lookup.
    destruct (Hrows it) as [r ->]; [by left|]. simpl.
    destruct IH as (us & -> & Hus & Hall); [intros; apply Hrows; by right|].
    simpl. unfold reference_outcome.
    destruct (reference !! nodeid it) as [rr|] eqn:Href.
    + rewrite (proj2 (String.eqb_neq _ _) (outcome_text_not_new _)).
      eexists. split; [done|]. split.
      * intros u [-> | Hin]%elem_of_cons; eauto.
      * intros it' rr' [-> | Hin]%elem_of_cons Href'.
        -- rewrite Href in Href'. injection Href' as <-. by left.
        -- right. eauto.
    + simpl. exists us. split; [done|]. split; [done|].
      intros it' rr' [-> | Hin]%elem_of_cons Href'; [congruence|eauto].
Qed.

Lemma executemany_update_spec (reference : Store)
    (us : list (string * string)) (cn : Store) :
  (∀ u, u ∈ us →
     ∃ rr, reference !! u.2 = Some rr ∧ u.1 = outcome_text (outcome rr)) →
  ∃ cn', RerunPlugin.executemany_update cn us = (cn', Ok tt)
         ∧ ∀ id, cn' !! id
                 = if decide (id ∈ us.*2)
                   then carried reference id <$> cn !! id
                   else cn !! id.
Proof.
  revert cn. induction us as [|[o id0] us IH]; intros cn Hus.
  - exists cn. split; [done|]. intros id.
    rewrite decide_False; [done | apply not_elem_of_nil].
  - cbn [RerunPlugin.executemany_update fmap list_fmap snd].
    destruct (Hus (o, id0)) as (rr & Href & Ho); [by left|].
    simpl in Href, Ho. subst o.
    assert (∀ u, u ∈ us → ∃ rr, reference !! u.2 = Some rr
                                ∧ u.1 = outcome_text (outcome rr)) as Hus'
      by (intros; apply Hus; by right).
    unfold RerunPlugin.update_outcome. cbn [fst snd].
    destruct (cn !! id0) as [r0|] eqn:Hrow.
    + rewrite outcome_of_text_text.
      destruct (IH (<[id0 := set_outcome (outcome rr) r0]> cn) Hus')
        as (cn' & -> & Hcn').
      exists cn'. split; [done|]. intros id. rewrite Hcn'.
      destruct (decide (id = id0)) as [-> | Hne].
      * rewrite lookup_insert_eq, Hrow. simpl.
        rewrite (decide_True (P := id0 ∈ id0 :: us.*2)) by (by left).
        unfold carried. rewrite Href. by case_decide.
      * rewrite lookup_insert_ne by done.
        destruct (decide (id ∈ us.*2)) as [Hin | Hnin].
        -- rewrite decide_True; [done | by right].
        -- rewrite decide_False; [done|].
           intros [? | ?]%elem_of_cons; done.
    + destruct (IH cn Hus') as (cn' & -> & Hcn').
      exists cn'. split; [done|]. intros id. rewrite Hcn'.
      destruct (decide (id = id0)) as [-> | Hne].
      * rewrite Hrow. simpl. by repeat case_decide.
      * destruct (decide (id ∈ us.*2)) as [Hin | Hnin].
        -- rewrite decide_True; [done | by right].
        -- rewrite decide_False; [done|].
           intros [? | ?]%elem_of_cons; done.
Qed.

Lemma merge_reference_lookup (main reference : Store) (id : string) :
  RerunPlugin.merge_reference main reference !! id
  = match main !! id with Some r => Some r | None => reference !! id end.
Proof.
  unfold RerunPlugin.merge_reference. rewrite lookup_union.
  destruct (main !! id), (reference !! id); done.
Qed.

Lemma prev_is_Some (main reference : Store) (id : string) (o : string) :
  RerunPlugin.prev main reference !! id = Some o → is_Some (main !! id).
Proof. rewrite rerun_prev_lookup. destruct (main !! id); by eauto. Qed.

(** The three ways the selection hook ends: nothing to filter (or the
    fallback), an exception raised before any carry-forward write, or a
    deselection followed by the carry-forward writes. *)
Lemma modifyitems_cases (self : RerunPlugin.t) (main reference : Store)
    (items : list Item) :
  let main1 := RerunPlugin.merge_reference main reference in
  let out := RerunPlugin.pytest_collection_modifyitems self main reference items in
  out = (main1, Ok (RerunPlugin.mkSelection items None))
  ∨ (∃ e, out = (main1, Raise e))
  ∨ (∃ kept deselected (us : list (string * string)) cn',
       RerunPlugin.split_items (RerunPlugin.prev main1 reference)
         (RerunPlugin.rerun_tags self) items = Ok (kept, deselected)
       ∧ out = (cn', Ok (RerunPlugin.mkSelection kept (Some deselected)))
       ∧ (∀ id, cn' !! id = if decide (id ∈ us.*2)
                            then carried reference id <$> main1 !! id
                            else main1 !! id)
       ∧ (∀ it rr, it ∈ deselected → reference !! nodeid it = Some rr →
            nodeid it ∈ us.*2)).
Proof.
  intros main1 out. subst out.
  unfold RerunPlugin.pytest_collection_modifyitems. fold main1.
  destruct (RerunPlugin.rerun_falsy self); [by left|].
  destruct (RerunPlugin.split_items _ _ items) as [[kept deselected]|e] eqn:Hsplit;
    [|right; left; by eauto].
  destruct (negb (bool_decide (kept = [])) || negb (RerunPlugin.all_if_none self));
    [|by left].
  destruct (split_items_inv _ _ _ _ _ Hsplit) as (_ & _ & Hd).
  destruct (updates_spec main1 reference deselected) as (us & -> & Hus & Hall).
  { intros it Hin. destruct (Hd it Hin) as (o & Ho & _).
    by eapply prev_is_Some. }
  destruct (executemany_update_spec reference us main1 Hus) as (cn' & -> & Hcn').
  right; right. exists kept, deselected, us, cn'. simpl.
  split; [done|]. split; [done|]. split; [done|].
  intros it rr Hin Href. apply list_elem_of_fmap.
  exists (outcome_text (outcome rr), nodeid it). split; [done|]. eauto.
Qed.

Lemma split_items_filter (p : gmap string string) (tags : gset string)
    (f : Item → string) (items : list Item) :
  (∀ it, it ∈ items → p !! nodeid it = Some (f it)) →
  RerunPlugin.split_items p tags items
  = Ok (filter (fun it => f it ∈ tags) items,
        filter (fun it => f it ∉ tags) items).
Proof.
  induction items as [|it items IH]; intros Hrows; [done|].
  cbn [RerunPlugin.split_items]. unfold RerunPlugin.prev_get.
  rewrite (Hrows it) by (by left). cbn [bind].
  rewrite IH by (intros it' Hin; apply Hrows; by right). cbn [bind fst snd].
  rewrite !filter_cons. case_bool_decide as Htag.
  - rewrite decide_True by done. by rewrite decide_False by tauto.
  - rewrite decide_False by done. by rewrite decide_True by done.
Qed.

(** The rows the carry-forward rewrites belong to deselected items. *)
Lemma updates_ids (p : gmap string string) (deselected : list Item)
    (us : list (string * string)) :
  RerunPlugin.updates p deselected = Ok us →
  ∀ id, id ∈ us.*2 → id ∈ nodeid <$> deselected.
Proof.
  revert us. induction deselected as [|it rest IH]; intros us; cbn [RerunPlugin.updates].
  - intros [= <-] id Hin. by apply elem_of_nil in Hin.
  - destruct (RerunPlugin.prev_get p it) as [o|]; [|done]. cbn [bind].
    destruct (RerunPlugin.updates p rest) as [us'|]; [|done]. cbn [bind].
    intros [= <-] id Hin. rewrite fmap_cons.
    destruct (String.eqb o "new").
    + right. by apply (IH us').
    + rewrite fmap_cons in Hin. apply elem_of_cons in Hin as [-> | Hin];
        [by left | right; by apply (IH us')].
Qed.

(** The hook when it deselects: the two lists, and the store after the
    carry-forward writes. *)
Lemma modifyitems_deselects (tags : gset string) (flag : bool)
    (main reference : Store) (items : list Item) :
  tags ≠ ∅ →
  (∀ it, it ∈ items →
     is_Some (main !! nodeid it) ∨ is_Some (reference !! nodeid it)) →
  let merged := RerunPlugin.merge_reference main reference in
  let wanted := fun it => reference_outcome reference (nodeid it) ∈ tags in
  filter wanted items ≠ [] ∨ flag = false →
  ∃ cn',
    RerunPlugin.pytest_collection_modifyitems
      (RerunPlugin.mk (Some tags) flag) main reference items
    = (cn', Ok (RerunPlugin.mkSelection
                  (filter wanted items)
                  (Some (filter (fun it => ¬ wanted it) items))))
    ∧ (∀ it rr r1, it ∈ items → ¬ wanted it →
         reference !! nodeid it = Some rr → merged !! nodeid it = Some r1 →
         cn' !! nodeid it = Some (set_outcome (outcome rr) r1))
    ∧ (∀ id, reference !! id = None
             ∨ (∀ it, it ∈ items → nodeid it = id → wanted it) →
             cn' !! id = merged !! id).
Proof.
  intros Htags Hrows merged wanted Hsel.
  unfold RerunPlugin.pytest_collection_modifyitems.
  assert (RerunPlugin.rerun_falsy (RerunPlugin.mk (Some tags) flag) = false)
    as ->.
  { unfold RerunPlugin.rerun_falsy. by apply bool_decide_eq_false_2. }
  fold merged.
  assert (∀ it, it ∈ items → is_Some (merged !! nodeid it)) as Hmerged.
  { intros it Hin. subst merged. rewrite merge_reference_lookup.
    destruct (Hrows it Hin) as [[r ->] | [rr ->]]; [eauto|].
    destruct (main !! nodeid it); eauto. }
  change (RerunPlugin.rerun_tags (RerunPlugin.mk (Some tags) flag)) with tags.
  rewrite (split_items_filter _ _
             (fun it => reference_outcome reference (nodeid it))).
  2:{ intros it Hin. rewrite rerun_prev_lookup.
      by destruct (Hmerged it Hin) as [r ->]. }
  cbn [RerunPlugin.all_if_none]. fold wanted.
  assert (negb (bool_decide (filter wanted items = [])) || negb flag = true)
    as ->.
  { destruct Hsel as [Hne | ->]; [|apply orb_true_r].
    by rewrite bool_decide_eq_false_2. }
  destruct (updates_spec merged reference (filter (fun it => ¬ wanted it) items))
    as (us & Hus & Hspec & Hall).
  { intros it [_ Hin]%list_elem_of_filter. by apply Hmerged. }
  pose proof (updates_ids _ _ _ Hus) as Hids.
  unfold wanted in Hus. rewrite Hus.
  destruct (executemany_update_spec reference us merged Hspec)
    as (cn' & -> & Hcn').
  exists cn'. split; [done|]. split.
  - intros it rr r1 Hin Hnot Href Hrow. rewrite Hcn', decide_True.
    + rewrite Hrow. cbn. unfold carried. by rewrite Href.
    + apply list_elem_of_fmap. exists (outcome_text (outcome rr), nodeid it).
      split; [done|]. apply Hall; [|done]. by apply list_elem_of_filter.
  - intros id Hid. rewrite Hcn'. destruct (decide (id ∈ us.*2)) as [Hin | _];
      [|done].
    destruct Hid as [Hnone | Hwanted].
    + apply list_elem_of_fmap in Hin as (u & -> & Hu).
      destruct (Hspec u Hu) as (rr & Hrr & _). congruence.
    + apply Hids, list_elem_of_fmap in Hin as (it & -> & Hit).
      apply list_elem_of_filter in Hit as [Hnot Hit].
      destruct Hnot. by apply Hwanted.
Qed.

(** C3. After the selection hook, whatever way it ends, every node id of
    the reference has a row in the live store; an id that had no live row
    holds the reference row unchanged, and the merge leaves the rows the
    live store already had as they were.  When the hook deselects - a
    category set is given and some collected item is requested, or the
    fallback is off - the items it deselects are exactly the collected
    items whose reference outcome (new without a reference row) is not
    requested; each of them that has a reference row then holds its
    merged row with the reference outcome written over it, and every
    other row of the live store is the merged one.  When the hook
    deselects nothing the live store is the merge.  The hook returns
    whenever each collected item has a live or a reference row. *)
Theorem rerun_merge_carries_reference (self : RerunPlugin.t)
    (main reference : Store) (items : list Item) :
  let merged := RerunPlugin.merge_reference main reference in
  let out := RerunPlugin.pytest_collection_modifyitems self main reference items in
  (∀ id, is_Some (reference !! id) →
     is_Some (merged !! id) ∧ is_Some (out.1 !! id))
  ∧ (∀ id rr, reference !! id = Some rr → main !! id = None →
       merged !! id = Some rr ∧ out.1 !! id = Some rr)
  ∧ (∀ id r, main !! id = Some r → merged !! id = Some r)
  ∧ (∀ tags, RerunPlugin.rerun self = Some tags → tags ≠ ∅ →
       (∀ it, it ∈ items →
          is_Some (main !! nodeid it) ∨ is_Some (reference !! nodeid it)) →
       let wanted := fun it => reference_outcome reference (nodeid it) ∈ tags in
       filter wanted items ≠ [] ∨ RerunPlugin.all_if_none self = false →
       out.2 = Ok (RerunPlugin.mkSelection
                     (filter wanted items)
                     (Some (filter (fun it => ¬ wanted it) items)))
       ∧ (∀ it rr r1, it ∈ items → ¬ wanted it →
            reference !! nodeid it = Some rr → merged !! nodeid it = Some r1 →
            out.1 !! nodeid it = Some (set_outcome (outcome rr) r1))
       ∧ (∀ id, reference !! id = None
                ∨ (∀ it, it ∈ items → nodeid it = id → wanted it) →
                out.1 !! id = merged !! id))
  ∧ (∀ sel, out.2 = Ok sel → RerunPlugin.deselected_hook sel = None →
            out.1 = merged)
  ∧ ((∀ it, it ∈ items →
        is_Some (main !! nodeid it) ∨ is_Some (reference !! nodeid it)) →
     ∃ sel, out.2 = Ok sel).
Proof.
  intros merged out.
  assert (∀ id, is_Some (reference !! id) → is_Some (merged !! id)) as Hmerged.
  { intros id [rr Hrr]. subst merged. rewrite merge_reference_lookup, Hrr.
    destruct (main !! id); eauto. }
  assert (∀ id, is_Some (merged !! id) → is_Some (out.1 !! id)) as Hkeeps.
  { intros id [r Hr].
    destruct (modifyitems_cases self main reference items)
      as [Hout | [[e Hout] | (k & d & us & cn' & _ & Hout & Hcn' & _)]];
      fold out in Hout; fold merged in Hout; rewrite Hout; simpl; eauto.
    fold merged in Hcn'. rewrite Hcn', Hr. case_decide; simpl; eauto. }
  split; [|split; [|split; [|split; [|split]]]].
  - intros id Href. split; auto.
  - intros id rr Href Hmain.
    assert (merged !! id = Some rr) as Hm
      by (subst merged; by rewrite merge_reference_lookup, Hmain).
    split; [done|].
    destruct (modifyitems_cases self main reference items)
      as [Hout | [[e Hout] | (k & d & us & cn' & _ & Hout & Hcn' & _)]];
      fold out in Hout; fold merged in Hout; rewrite Hout; simpl; try done.
    fold merged in Hcn'. rewrite Hcn', Hm. case_decide; [|done]. simpl.
    unfold carried. rewrite Href. by rewrite set_outcome_same.
  - intros id r Hmain. subst merged. by rewrite merge_reference_lookup, Hmain.
  - intros tags Hrerun Htags Hrows wanted Hsel. subst out merged.
    destruct self as [rerun flag]. cbn in Hrerun, Hsel. subst rerun.
    destruct (modifyitems_deselects tags flag main reference items
                Htags Hrows Hsel) as (cn' & -> & Hcarried & Hothers).
    done.
  - intros sel Hok Hhook.
    destruct (modifyitems_cases self main reference items)
      as [Hout | [[e Hout] | (k & d & us & cn' & _ & Hout & _)]];
      fold out in Hout; fold merged in Hout; rewrite Hout in Hok |- *;
      cbn in Hok |- *; [done | done |].
    injection Hok as <-. discriminate Hhook.
  - intros Hrows. subst out.
    unfold RerunPlugin.pytest_collection_modifyitems. fold merged.
    destruct (RerunPlugin.rerun_falsy self); [by eauto|].
    assert (∀ it, it ∈ items → is_Some (merged !! nodeid it)) as Hrows1.
    { intros it Hin. subst merged. rewrite merge_reference_lookup.
      destruct (Hrows it Hin) as [[r ->] | [rr ->]]; [by eauto|].
      destruct (main !! nodeid it); eauto. }
    destruct (split_items_total (RerunPlugin.prev merged reference)
                (RerunPlugin.rerun_tags self) items) as (k & d & Hsplit).
    { intros it Hin. rewrite rerun_prev_lookup.
      destruct (Hrows1 it Hin) as [r ->]. simpl. eauto. }
    rewrite Hsplit.
    destruct (negb (bool_decide (k = [])) || negb (RerunPlugin.all_if_none self));
      [|by eauto].
    destruct (split_items_inv _ _ _ _ _ Hsplit) as (Hmem & _ & _).
    destruct (updates_spec merged reference d) as (us & -> & Hus & _).
    { intros it Hin. apply Hrows1, Hmem. by right. }
    destruct (executemany_update_spec reference us merged Hus) as (cn' & -> & _).
    simpl. eauto.
Qed.

(** The scenario of C3 with a deselection: the reference recorded a
    failure for a node that is not collected and a pass for one that is
    collected but not requested; the first row is copied, the second
    reads passed. *)
Lemma rerun_merge_carries_reference_witness :
  let reference : Store :=
    {[ "a.py::test_a" := set_outcome failed pending_row;
       "b.py::test_b" := set_outcome passed pending_row;
       "b.py::test_c" := set_outcome failed pending_row ]} in
  let main : Store :=
    {[ "b.py::test_b" := pending_row; "b.py::test_c" := pending_row ]} in
  let out :=
    RerunPlugin.pytest_collection_modifyitems
      (RerunPlugin.mk (Some {["failed"]}) true) main reference
      [mkItem "b.py::test_b" [] 0; mkItem "b.py::test_c" [] 0] in
  out.2 = Ok (RerunPlugin.mkSelection [mkItem "b.py::test_c" [] 0]
                (Some [mkItem "b.py::test_b" [] 0]))
  ∧ out.1 !! "b.py::test_b" = Some (set_outcome passed pending_row)
  ∧ out.1 !! "a.py::test_a" = Some (set_outcome failed pending_row).
Proof.
  intros reference main out.
  destruct (rerun_merge_carries_reference
              (RerunPlugin.mk (Some {["failed"]}) true) main reference
              [mkItem "b.py::test_b" [] 0; mkItem "b.py::test_c" [] 0])
    as (_ & Hcopy & _ & Hdeselect & _).
  destruct (Hdeselect {["failed"]}) as (Hsel & Hcarried & _).
  - reflexivity.
  - vm_compute. discriminate.
  - intros it Hin. left.
    repeat (apply elem_of_cons in Hin as [-> | Hin]; [vm_compute; eauto|]).
    by apply elem_of_nil in Hin.
  - left. vm_compute. discriminate.
  - split; [exact Hsel|]. split.
    + apply (Hcarried (mkItem "b.py::test_b" [] 0)
               (set_outcome passed pending_row) pending_row).
      * by left.
      * vm_compute. intros Hin. discriminate Hin.
      * reflexivity.
      * reflexivity.
    + apply (Hcopy "a.py::test_a" (set_outcome failed pending_row)); reflexivity.
Defined.

(** C4. At session finish a live row still pending whose reference row
    has an outcome other than passed takes the reference outcome, its
    other columns unchanged; a pending row whose reference row passed, or
    that has no reference row, stays as it is; so does every row that is
    not pending. *)
Theorem sessionfinish_backfills_pending (main reference : Store)
    (id : string) (r : Row) :
  main !! id = Some r →
  let after := RerunPlugin.pytest_sessionfinish main reference in
  (∀ rr, outcome r = pending → reference !! id = Some rr →
         outcome rr ≠ passed →
         after !! id = Some (set_outcome (outcome rr) r))
  ∧ (∀ rr, outcome r = pending → reference !! id = Some rr →
           outcome rr = passed → after !! id = Some r)
  ∧ (reference !! id = None → after !! id = Some r)
  ∧ (outcome r ≠ pending → after !! id = Some r).
Proof.
  intros Hrow after. subst after. unfold RerunPlugin.pytest_sessionfinish.
  rewrite map_lookup_imap, Hrow. simpl.
  split; [|split; [|split]].
  - intros rr Hp -> Hne.
    rewrite bool_decide_eq_true_2, bool_decide_eq_false_2 by done. done.
  - intros rr Hp -> Hpass.
    rewrite bool_decide_eq_true_2, (bool_decide_eq_true_2 (outcome rr = passed))
      by done. done.
  - by intros ->.
  - intros Hne. destruct (reference !! id); [|done].
    by rewrite bool_decide_eq_false_2.
Qed.

Lemma sessionfinish_backfills_pending_witness :
  let main : Store := {[ "a.py::test_a" := pending_row ]} in
  let reference : Store := {[ "a.py::test_a" := set_outcome failed pending_row ]} in
  RerunPlugin.pytest_sessionfinish main reference !! "a.py::test_a"
  = Some (set_outcome failed pending_row).
Proof.
  intros main reference.
  destruct (sessionfinish_backfills_pending main reference "a.py::test_a"
              pending_row) as (Hfill & _).
  - reflexivity.
  - apply (Hfill (set_outcome failed pending_row)); [reflexivity| reflexivity |].
    simpl. discriminate.
Defined.

(** The back-fill creates no row. *)
Lemma sessionfinish_no_new_row (main reference : Store) (id : string) :
  main !! id = None →
  RerunPlugin.pytest_sessionfinish main reference !! id = None.
Proof.
  intros Hnone. unfold RerunPlugin.pytest_sessionfinish.
  by rewrite map_lookup_imap, Hnone.
Qed.

(** C5 as stated fails: with the fallback flag false and nothing kept,
    every item is deselected and reported to the deselection hook. *)
Lemma no_fallback_deselects_all :
  let main : Store := {[ "a.py::test_a" := pending_row ]} in
  let it := mkItem "a.py::test_a" [] 0 in
  (RerunPlugin.pytest_collection_modifyitems
     (RerunPlugin.mk (Some {["failed"]}) false) main ∅ [it]).2
  = Ok (RerunPlugin.mkSelection [] (Some [it]))
  ∧ (RerunPlugin.pytest_collection_modifyitems
       (RerunPlugin.mk None false) main ∅ [it]).2
    = Ok (RerunPlugin.mkSelection [it] None).
Proof. split; vm_compute; reflexivity. Qed.

(** C5, amended. When no collected item has its reference outcome among
    the requested categories and the fallback flag is true, the hook ends
    as it does without a category set: the items stay as collected, the
    deselection hook is not called and the live store holds the merge and
    nothing else.  With the flag false the same situation deselects every
    item. *)
Theorem empty_selection_falls_back (tags : gset string) (flag : bool)
    (main reference : Store) (items : list Item) :
  (∀ it, it ∈ items →
     is_Some (main !! nodeid it) ∨ is_Some (reference !! nodeid it)) →
  (∀ it, it ∈ items → reference_outcome reference (nodeid it) ∉ tags) →
  let out :=
    RerunPlugin.pytest_collection_modifyitems
      (RerunPlugin.mk (Some tags) flag) main reference items in
  (flag = true →
   out = RerunPlugin.pytest_collection_modifyitems
           (RerunPlugin.mk None flag) main reference items
   ∧ out = (RerunPlugin.merge_reference main reference,
            Ok (RerunPlugin.mkSelection items None)))
  ∧ (flag = false → tags ≠ ∅ →
     ∃ cn', out = (cn', Ok (RerunPlugin.mkSelection [] (Some items)))).
Proof.
  intros Hrows Hnone out. subst out.
  assert (RerunPlugin.split_items
            (RerunPlugin.prev (RerunPlugin.merge_reference main reference)
               reference) tags items = Ok ([], items)) as Hsplit.
  { apply split_items_none_kept. intros it Hin.
    exists (reference_outcome reference (nodeid it)).
    split; [|by apply Hnone].
    rewrite rerun_prev_lookup, merge_reference_lookup.
    destruct (Hrows it Hin) as [[r ->] | [rr Hrr]]; [done|].
    rewrite Hrr. by destruct (main !! nodeid it). }
  unfold RerunPlugin.pytest_collection_modifyitems, RerunPlugin.rerun_falsy,
    RerunPlugin.rerun_tags. simpl.
  split.
  - intros ->. case_bool_decide; [done|]. by rewrite Hsplit.
  - intros -> Hne. rewrite bool_decide_eq_false_2 by done. rewrite Hsplit. simpl.
    destruct (updates_spec (RerunPlugin.merge_reference main reference)
                reference items) as (us & -> & Hus & _).
    { intros it Hin. rewrite merge_reference_lookup.
      destruct (Hrows it Hin) as [[r ->] | [rr ->]]; [by eauto|].
      destruct (main !! nodeid it); eauto. }
    destruct (executemany_update_spec reference us
                (RerunPlugin.merge_reference main reference) Hus)
      as (cn' & -> & _).
    simpl. eauto.
Qed.

Lemma empty_selection_falls_back_witness :
  let main : Store := {[ "a.py::test_a" := pending_row ]} in
  let it := mkItem "a.py::test_a" [] 0 in
  RerunPlugin.pytest_collection_modifyitems
    (RerunPlugin.mk (Some {["failed"]}) true) main ∅ [it]
  = (RerunPlugin.merge_reference main ∅,
     Ok (RerunPlugin.mkSelection [it] None)).
Proof.
  intros main it.
  destruct (empty_selection_falls_back {["failed"]} true main ∅ [it])
    as [Hfall _].
  - intros it' ->%list_elem_of_singleton. left. by eexists.
  - intros it' ->%list_elem_of_singleton. vm_compute.
    intros Hin. discriminate Hin.
  - by destruct (Hfall eq_refl).
Defined.

(** ** The id trie *)

Lemma walk_None (q : list string) : IdTrie.walk q None = false.
Proof. by destruct q. Qed.

Lemma walk_empty_dict (q : list string) :
  IdTrie.walk q (Some (Dict ∅)) = true ↔ q = [].
Proof.
  destruct q as [|s q]; simpl; [done|].
  rewrite lookup_empty, walk_None. done.
Qed.

(** Walking a dictionary after one id was added to it. *)
Lemma walk_setdefault_path (segments q : list string) (t : Trie) :
  IdTrie.walk q (Some (IdTrie.setdefault_path segments t)) = true
  ↔ IdTrie.walk q (Some t) = true ∨ q `prefix_of` segments.
Proof.
  revert q t. induction segments as [|k ks IH]; intros q t; simpl.
  - split; [by left|]. intros [Hw | Hp]; [done|].
    apply prefix_nil_inv in Hp as ->. done.
  - destruct q as [|s q]; simpl.
    + split; [by left | done].
    + destruct (decide (s = k)) as [-> | Hne].
      * rewrite lookup_insert_eq, IH.
        split.
        -- intros [Hw | Hp]; [|right; by apply prefix_cons].
           destruct (children t !! k) as [c|] eqn:Hc; simpl in Hw; [by left|].
           apply walk_empty_dict in Hw as ->. right.
           apply prefix_cons, prefix_nil.
        -- intros [Hw | Hp].
           ++ destruct (children t !! k) as [c|]; simpl; [by left|].
              by rewrite walk_None in Hw.
           ++ right. by apply prefix_cons_inv_2 in Hp.
      * rewrite lookup_insert_ne by done.
        split; [by left|]. intros [Hw | Hp]; [done|].
        by apply prefix_cons_inv_1 in Hp.
Qed.

Lemma walk_build (nodeids : list string) (q : list string) (t : Trie) :
  IdTrie.walk q
    (Some (foldl (fun d nodeid =>
                    IdTrie.setdefault_path (IdTrie.id_to_path nodeid) d)
                 t nodeids)) = true
  ↔ IdTrie.walk q (Some t) = true
    ∨ ∃ id, id ∈ nodeids ∧ q `prefix_of` IdTrie.id_to_path id.
Proof.
  revert t. induction nodeids as [|id0 ids IH]; intros t; simpl.
  - split; [by left|]. intros [Hw | (id & Hin & _)]; [done|].
    by apply elem_of_nil in Hin.
  - rewrite IH, walk_setdefault_path. split.
    + intros [[Hw | Hp] | (id & Hin & Hp)].
      * by left.
      * right. exists id0. split; [by left | done].
      * right. exists id. split; [by right | done].
    + intros [Hw | (id & [-> | Hin]%elem_of_cons & Hp)].
      * left. by left.
      * left. by right.
      * right. eauto.
Qed.

(** Containment of a text in the trie built from a list of ids. *)
Lemma contains_text_spec (rootpath : Path) (nodeids : list string) (s : string) :
  IdTrie.contains_text (IdTrie.__init__ rootpath nodeids) s = true
  ↔ IdTrie.id_to_path s = []
    ∨ ∃ id, id ∈ nodeids
            ∧ IdTrie.id_to_path s `prefix_of` IdTrie.id_to_path id.
Proof.
  unfold IdTrie.contains_text, IdTrie.__init__. simpl.
  rewrite walk_build, walk_empty_dict. done.
Qed.

Lemma relative_to_self (p : Path) : relative_to p p = Ok [].
Proof.
  unfold relative_to. rewrite bool_decide_eq_true_2 by done.
  rewrite Bool.eqb_reflx. simpl. by rewrite drop_all.
Qed.

(** The segments of the text of a relative path with plain components,
    none holding the separator ["::"], are these components. *)
Lemma split_slash_plain (s : string) :
  has_slash s = false → split_slash s = [s].
Proof.
  induction s as [|c r IH]; [done|]. cbn [has_slash split_slash].
  intros [Hc Hr]%orb_false_iff. rewrite Hc, (IH Hr). done.
Qed.

Lemma split_slash_app (a b : string) :
  has_slash a = false →
  split_slash (a ++ String "/" b) = a :: split_slash b.
Proof.
  induction a as [|c r IH]; [done|].
  change ((String c r ++ String "/" b)%string) with (String c (r ++ String "/" b)).
  cbn [has_slash split_slash].
  intros [Hc Hr]%orb_false_iff. rewrite Hc, (IH Hr). done.
Qed.

Lemma concat_cons2 (sep a b : string) (l : list string) :
  String.concat sep (a :: b :: l) = (a ++ sep ++ String.concat sep (b :: l))%string.
Proof. reflexivity. Qed.

Lemma split_slash_concat (rel : list string) :
  rel ≠ [] → Forall (fun s => has_slash s = false) rel →
  split_slash (String.concat "/" rel) = rel.
Proof.
  induction rel as [|a rel IH]; [done|]. intros _ Hall.
  apply Forall_cons in Hall as [Ha Hall].
  destruct rel as [|b rel].
  - by apply split_slash_plain.
  - rewrite concat_cons2.
    change ("/" ++ String.concat "/" (b :: rel))%string
      with (String "/" (String.concat "/" (b :: rel))).
    rewrite split_slash_app by done. by rewrite IH.
Qed.

Lemma path_root_plain (c : ascii) (s : string) :
  Ascii.eqb c "/" = false → path_root (String c s) = [].
Proof.
  intros Hc. unfold path_root.
  assert (∀ p, String.prefix (String "/" p) (String c s) = false) as Hp.
  { intros p.
    change (String.prefix (String "/" p) (String c s))
      with (if ascii_dec "/" c then String.prefix p s else false).
    destruct (ascii_dec "/" c) as [<- | ?]; [done | done]. }
  by rewrite !Hp.
Qed.

Lemma concat_head (c : ascii) (a : string) (rest : list string) :
  ∃ s, String.concat "/" (String c a :: rest) = String c s.
Proof. destruct rest; [by eexists|]. rewrite concat_cons2. by eexists. Qed.

Lemma filter_all {A} (P : A → Prop) `{!∀ x, Decision (P x)} (l : list A) :
  Forall P l → filter P l = l.
Proof.
  induction 1 as [|x l Hx Hl IH]; [done|].
  by rewrite filter_cons_True, IH.
Qed.

Lemma parts_fspath (rel : Path) :
  forallb plain_part rel = true → parts (fspath rel) = rel.
Proof.
  intros Hplain. rewrite forallb_forall in Hplain.
  assert (Forall (fun s => plain_part s = true) rel) as Hall.
  { apply Forall_forall. intros s Hs. by apply Hplain, list_elem_of_In. }
  clear Hplain. destruct rel as [|a rest]; [reflexivity|].
  assert (is_absolute (a :: rest) = false) as Hrel.
  { apply Forall_cons in Hall as [Ha _]. unfold plain_part in Ha.
    apply andb_true_iff in Ha as [_ Ha]. apply negb_true_iff in Ha.
    cbn [is_absolute]. apply orb_false_iff.
    split; apply String.eqb_neq; intros ->; done. }
  unfold fspath. rewrite Hrel. unfold parts.
  assert (Forall (fun s => has_slash s = false) (a :: rest)) as Hslash.
  { eapply Forall_impl; [exact Hall|]. intros s Hs. unfold plain_part in Hs.
    apply andb_true_iff in Hs as [_ Hs]. by apply negb_true_iff in Hs. }
  rewrite split_slash_concat by done.
  assert (path_root (String.concat "/" (a :: rest)) = []) as ->.
  { apply Forall_cons in Hall as [Ha _], Hslash as [Hsa _].
    destruct a as [|c a]; [done|].
    destruct (concat_head c a rest) as [s ->].
    apply path_root_plain. cbn [has_slash] in Hsa.
    by apply orb_false_iff in Hsa as [-> _]. }
  cbn [app]. apply filter_all.
  eapply Forall_impl; [exact Hall|]. intros s Hs. unfold plain_part in Hs.
  apply andb_true_iff in Hs as [Hs _]. apply andb_true_iff in Hs as [Hs1 Hs2].
  apply negb_true_iff in Hs1, Hs2. by split; apply String.eqb_neq.
Qed.

Lemma id_to_path_fspath (rel : Path) :
  forallb plain_part rel = true →
  split_colons (fspath rel) = [fspath rel] →
  IdTrie.id_to_path (fspath rel) = rel.
Proof.
  intros Hplain Hcolons. unfold IdTrie.id_to_path. rewrite Hcolons.
  rewrite app_nil_r. by apply parts_fspath.
Qed.

(** C6 as stated fails: with no stored id, the empty text is still
    reported as contained. *)
Lemma empty_trie_contains_empty_text :
  let trie := IdTrie.__init__ ["/"; "proj"] [] in
  IdTrie.__contains__ trie (QStr EmptyString) = Ok true
  ∧ ¬ (∃ id, id ∈ ([] : list string)
             ∧ IdTrie.id_to_path EmptyString `prefix_of` IdTrie.id_to_path id).
Proof.
  split; [reflexivity|]. intros (id & Hin & _). by apply elem_of_nil in Hin.
Qed.

(** C10. In every trie a query without segments is contained, because
    the walk ends on the root dictionary it started from: so are the
    empty text and the root path itself, also when nothing was stored. *)
Theorem segmentless_query_is_contained (self : IdTrie.t) :
  (∀ item s, IdTrie.query_text self item = Ok s →
             IdTrie.id_to_path s = [] →
             IdTrie.__contains__ self item = Ok true)
  ∧ IdTrie.__contains__ self (QStr EmptyString) = Ok true
  ∧ IdTrie.__contains__ self (QPath (IdTrie.rootpath self)) = Ok true.
Proof.
  split; [|split].
  - intros item s Hs Hnil. unfold IdTrie.__contains__. rewrite Hs. simpl.
    unfold IdTrie.contains_text. by rewrite Hnil.
  - reflexivity.
  - unfold IdTrie.__contains__, IdTrie.query_text.
    by rewrite relative_to_self.
Qed.

Lemma segmentless_query_is_contained_witness :
  IdTrie.__contains__ (IdTrie.__init__ ["/"; "proj"] []) (QStr ".//.") = Ok true.
Proof.
  destruct (segmentless_query_is_contained (IdTrie.__init__ ["/"; "proj"] []))
    as (Hany & _).
  apply (Hany (QStr ".//.") ".//."); reflexivity.
Defined.

(** ** The stable sort *)

Section sorting.
Context {A : Type} (le : A → A → bool).

Lemma insert_sorted_perm (x : A) (l : list A) :
  insert_sorted le x l ≡ₚ x :: l.
Proof.
  induction l as [|y l IH]; simpl; [done|].
  destruct (le x y); [done|]. rewrite IH. apply Permutation_swap.
Qed.

Lemma py_sorted_perm (l : list A) : py_sorted le l ≡ₚ l.
Proof.
  induction l as [|x l IH]; simpl; [done|].
  by rewrite insert_sorted_perm, IH.
Qed.

Hypothesis le_total : ∀ x y, le x y = true ∨ le y x = true.
Hypothesis le_trans : ∀ x y z, le x y = true → le y z = true → le x z = true.

Lemma insert_sorted_sorted (x : A) (l : list A) :
  StronglySorted (fun a b => le a b = true) l →
  StronglySorted (fun a b => le a b = true) (insert_sorted le x l).
Proof.
  induction 1 as [|y l Hsorted IH Hall]; simpl.
  - repeat constructor.
  - destruct (le x y) eqn:Hxy.
    + constructor; [by constructor|]. constructor; [done|].
      eapply Forall_impl; [exact Hall|]. intros z Hz. by eapply le_trans.
    + constructor; [done|].
      rewrite insert_sorted_perm. constructor; [|done].
      destruct (le_total x y); congruence.
Qed.

Lemma py_sorted_sorted (l : list A) :
  StronglySorted (fun a b => le a b = true) (py_sorted le l).
Proof.
  induction l as [|x l IH]; simpl; [constructor|].
  by apply insert_sorted_sorted.
Qed.

(** Elements that compare equal keep the order they had: the sort
    does not reorder the elements of a class [P] whose members are
    all below one another. *)
Context (P : A → Prop) `{!∀ x, Decision (P x)}.
Hypothesis P_le : ∀ x y, P x → P y → le x y = true.

Lemma insert_sorted_stable (x : A) (l : list A) :
  filter P (insert_sorted le x l) = filter P (x :: l).
Proof.
  induction l as [|y l IH]; simpl; [done|].
  destruct (le x y) eqn:Hxy; [done|].
  rewrite (filter_cons _ y), IH, !(filter_cons _ x), (filter_cons _ y).
  destruct (decide (P x)) as [Hx|]; [|done].
  destruct (decide (P y)) as [Hy|]; [|done].
  rewrite (P_le _ _ Hx Hy) in Hxy. done.
Qed.

Lemma py_sorted_stable (l : list A) :
  filter P (py_sorted le l) = filter P l.
Proof.
  induction l as [|x l IH]; simpl; [done|].
  by rewrite insert_sorted_stable, !filter_cons, IH.
Qed.

End sorting.

Lemma StronglySorted_weaken {A} (R R' : A → A → Prop) (l : list A) :
  (∀ a b, R a b → R' a b) → StronglySorted R l → StronglySorted R' l.
Proof.
  intros Himpl. induction 1 as [|x l Hs IH Hall]; constructor; [done|].
  eapply Forall_impl; [exact Hall | by auto].
Qed.

(** Sorting decorated elements is sorting by the decoration. *)
Lemma py_sorted_fmap {A B} (f : A → B) (le : B → B → bool) (l : list A) :
  py_sorted le (f <$> l) = f <$> py_sorted (fun a b => le (f a) (f b)) l.
Proof.
  induction l as [|x l IH]; [done|].
  rewrite fmap_cons. cbn [py_sorted]. rewrite IH.
  generalize (py_sorted (fun a b => le (f a) (f b)) l). clear IH.
  intros s. induction s as [|y s IH]; [done|].
  rewrite fmap_cons. cbn [insert_sorted].
  destruct (le (f x) (f y)); [done|]. by rewrite IH, !fmap_cons.
Qed.

Lemma mapM_Ok {A B} (f : A → result B) (g : A → B) (l : list A) :
  (∀ x, x ∈ l → f x = Ok (g x)) → mapM f l = Ok (g <$> l).
Proof.
  induction l as [|x l IH]; intros Hf; [done|].
  cbn [mapM]. rewrite (Hf x) by (by left). cbn [bind].
  rewrite IH by (intros; apply Hf; by right). done.
Qed.

Lemma zip_fmap_decorate {A B} (g : A → B) (l : list A) :
  zip (g <$> l) l = (fun x => (g x, x)) <$> l.
Proof.
  induction l as [|x l IH]; [done|].
  rewrite !fmap_cons. cbn [zip zip_with]. by rewrite IH.
Qed.

(** [zip] then sort on the first component then project: the list sorted
    by the decoration. *)
Lemma decorate_sort_undecorate {A B} (g : A → B) (le : B → B → bool)
    (l : list A) :
  (py_sorted (fun a b => le a.1 b.1) (zip (g <$> l) l)).*2
  = py_sorted (fun a b => le (g a) (g b)) l.
Proof.
  rewrite zip_fmap_decorate, (py_sorted_fmap (fun x => (g x, x))).
  rewrite <-list_fmap_compose. apply list_fmap_id.
Qed.

(** ** Retention (SessionPlugin) *)

Lemma string_leb_trans (s1 s2 s3 : string) :
  String.leb s1 s2 = true → String.leb s2 s3 = true → String.leb s1 s3 = true.
Proof.
  unfold String.leb. revert s2 s3.
  induction s1 as [|a s1 IH]; intros [|b s2] [|d s3]; simpl; try done.
  unfold Ascii.compare.
  destruct (N.compare_spec (N_of_ascii a) (N_of_ascii b)) as [Hab|Hab|Hab];
    destruct (N.compare_spec (N_of_ascii b) (N_of_ascii d)) as [Hbd|Hbd|Hbd];
    try done.
  - rewrite Hab, Hbd, N.compare_refl. apply IH.
  - intros _ _. rewrite Hab, (proj2 (N.compare_lt_iff _ _) Hbd). done.
  - intros _ _. rewrite <-Hbd, (proj2 (N.compare_lt_iff _ _) Hab). done.
  - intros _ _.
    rewrite (proj2 (N.compare_lt_iff _ _) (N.lt_trans _ _ _ Hab Hbd)). done.
Qed.

Lemma unlink_all (names : list string) (dir : gset string) :
  foldl SessionPlugin.unlink_missing_ok dir names = dir ∖ list_to_set names.
Proof.
  revert dir. induction names as [|n names IH]; intros dir; simpl.
  - by rewrite difference_empty_L.
  - rewrite IH. unfold SessionPlugin.unlink_missing_ok.
    by rewrite difference_difference_l_L.
Qed.

(** Unlinking a name that is not there changes nothing and raises
    nothing. *)
Lemma unlink_missing (dir : gset string) (name : string) :
  name ∉ dir → SessionPlugin.unlink_missing_ok dir name = dir.
Proof.
  intros Hmissing. unfold SessionPlugin.unlink_missing_ok.
  apply difference_disjoint_L. by apply disjoint_singleton_r.
Qed.

(** C8 fails at the limit 0: [sessionfiles[:-0]] is the empty slice, so
    session finish stamps the store and deletes no file at all, where
    the claim has no session file remain. *)
Theorem limit_zero_deletes_nothing :
  (∀ d, SessionPlugin.pytest_sessionfinish
          (SessionPlugin.mkConfig false false false 0) d
        = SessionPlugin.mkDisk 5 (SessionPlugin.dbdir d))
  ∧ length (SessionPlugin.glob_sessions
              (SessionPlugin.dbdir
                 (SessionPlugin.pytest_sessionfinish
                    (SessionPlugin.mkConfig false false false 0)
                    (SessionPlugin.mkDisk 1 {["session-1"; "session-2"]}))))
    = 2%nat.
Proof.
  split; [reflexivity|]. vm_compute. reflexivity.
Qed.

(** X1. For a positive limit the retention keeps the most recent
    sessions: the store is stamped 5, the files deleted are the session
    files before the last [limit] ones in name order, the others stay,
    and [min limit total] session files are left. *)
Lemma retention_keeps_most_recent (config : SessionPlugin.Config)
    (d : SessionPlugin.Disk) :
  SessionPlugin.cacheshow config = false →
  SessionPlugin.workerinput config = false →
  SessionPlugin.collectonly config = false →
  0 < SessionPlugin.sessions_limit config →
  let limit := Z.to_nat (SessionPlugin.sessions_limit config) in
  let sessionfiles :=
    py_sorted String.leb (SessionPlugin.glob_sessions (SessionPlugin.dbdir d)) in
  let total := length sessionfiles in
  let after := SessionPlugin.pytest_sessionfinish config d in
  SessionPlugin.user_version after = 5
  ∧ sessionfiles ≡ₚ SessionPlugin.glob_sessions (SessionPlugin.dbdir d)
  ∧ StronglySorted (fun a b => String.leb a b = true) sessionfiles
  ∧ (∀ name, name ∈ SessionPlugin.dbdir after
             ↔ name ∈ SessionPlugin.dbdir d
               ∧ name ∉ take (total - limit) sessionfiles)
  ∧ (∀ name, name ∈ sessionfiles →
             (name ∈ SessionPlugin.dbdir after
              ↔ name ∈ drop (total - limit) sessionfiles))
  ∧ length (drop (total - limit) sessionfiles) = (limit `min` total)%nat.
Proof.
  intros Hc Hw Hco Hlimit limit sessionfiles total after.
  assert (SessionPlugin.dbdir after
          = SessionPlugin.dbdir d
            ∖ list_to_set (take (total - limit) sessionfiles)) as Hdir.
  { subst after. unfold SessionPlugin.pytest_sessionfinish.
    rewrite Hc, Hw, Hco. simpl. rewrite unlink_all. fold sessionfiles.
    unfold slice_until.
    rewrite (proj2 (Z.ltb_lt _ _)) by lia. fold total.
    replace (Z.to_nat (Z.max 0 (Z.of_nat total + - SessionPlugin.sessions_limit config)))
      with (total - limit)%nat by lia.
    done. }
  assert (sessionfiles ≡ₚ SessionPlugin.glob_sessions (SessionPlugin.dbdir d))
    as Hperm by apply py_sorted_perm.
  assert (NoDup sessionfiles) as Hnd.
  { rewrite Hperm. unfold SessionPlugin.glob_sessions.
    apply NoDup_filter, NoDup_elements. }
  assert (∀ name, name ∈ sessionfiles → name ∈ SessionPlugin.dbdir d) as Hsub.
  { intros name. rewrite Hperm. unfold SessionPlugin.glob_sessions.
    rewrite list_elem_of_filter, elem_of_elements. tauto. }
  split; [|split; [|split; [|split; [|split]]]].
  - subst after. unfold SessionPlugin.pytest_sessionfinish.
    by rewrite Hc, Hw, Hco.
  - exact Hperm.
  - apply py_sorted_sorted; [apply String.leb_total | apply string_leb_trans].
  - intros name. rewrite Hdir, elem_of_difference, elem_of_list_to_set. done.
  - intros name Hin.
    rewrite Hdir, elem_of_difference, elem_of_list_to_set.
    rewrite <-(take_drop (total - limit) sessionfiles) in Hin, Hnd.
    apply NoDup_app in Hnd as (_ & Hdisj & _).
    apply elem_of_app in Hin as [Hin | Hin].
    + split; [tauto|]. intros Hd. by destruct (Hdisj name Hin).
    + split; [done|]. intros _. split.
      * apply Hsub. rewrite <-(take_drop (total - limit) sessionfiles).
        apply elem_of_app. by right.
      * intros Ht. by destruct (Hdisj name Ht).
  - rewrite length_drop. fold total. lia.
Qed.

Lemma retention_keeps_most_recent_witness :
  let d := SessionPlugin.mkDisk 1 {["session-3"; "session-1"; "saved"; "session-2"]} in
  let after :=
    SessionPlugin.pytest_sessionfinish (SessionPlugin.mkConfig false false false 2) d in
  "session-1" ∈ SessionPlugin.dbdir after
  ↔ "session-1" ∈ drop 1 ["session-1"; "session-2"; "session-3"].
Proof.
  intros d after.
  destruct (retention_keeps_most_recent
              (SessionPlugin.mkConfig false false false 2) d)
    as (_ & _ & _ & _ & Hkept & _); try reflexivity.
  apply (Hkept "session-1"). vm_compute. by left.
Defined.

(** ** Reordering (ReorderPlugin) *)

Lemma key_le_spec (a b : Z * Z) :
  ReorderPlugin.key_le a b = true ↔ a.1 < b.1 ∨ (a.1 = b.1 ∧ a.2 ≤ b.2).
Proof.
  unfold ReorderPlugin.key_le.
  rewrite orb_true_iff, andb_true_iff, Z.ltb_lt, Z.eqb_eq, Z.leb_le. done.
Qed.

Lemma key_le_total (a b : Z * Z) :
  ReorderPlugin.key_le a b = true ∨ ReorderPlugin.key_le b a = true.
Proof. rewrite !key_le_spec. lia. Qed.

Lemma key_le_trans (a b c : Z * Z) :
  ReorderPlugin.key_le a b = true → ReorderPlugin.key_le b c = true →
  ReorderPlugin.key_le a c = true.
Proof. rewrite !key_le_spec. lia. Qed.

(** The ranks [enumerate] gives: a listed category gets the index of its
    last occurrence, an unlisted one gets none. *)
Lemma enumerate_from_lookup (fields : list string) (i : Z)
    (acc : gmap string Z) (o : string) :
  (o ∈ fields →
   ∃ n : nat,
     ReorderPlugin.enumerate_from i fields acc !! o = Some (i + Z.of_nat n)
     ∧ fields !! n = Some o ∧ o ∉ drop (S n) fields)
  ∧ (o ∉ fields → ReorderPlugin.enumerate_from i fields acc !! o = acc !! o).
Proof.
  revert i acc. induction fields as [|f rest IH]; intros i acc.
  - split; [intros Hin; by apply elem_of_nil in Hin | done].
  - cbn [ReorderPlugin.enumerate_from].
    destruct (IH (i + 1) (<[f := i]> acc)) as [IHin IHout]. split.
    + intros Hin. destruct (decide (o ∈ rest)) as [Hrest | Hrest].
      * destruct (IHin Hrest) as (n & -> & Hn & Hlast). exists (S n).
        split; [f_equal; lia | done].
      * apply elem_of_cons in Hin as [-> | Hin]; [|done].
        rewrite (IHout Hrest), lookup_insert_eq. exists 0%nat.
        split; [f_equal; lia | done].
    + intros Hnotin. apply not_elem_of_cons in Hnotin as [Hne Hrest].
      rewrite (IHout Hrest). by rewrite lookup_insert_ne.
Qed.

Lemma reorder_prev_lookup (main reference : Store) (id : string) :
  ReorderPlugin.prev main reference !! id
  = (fun _ => reference_outcome reference id) <$> (main ∪ reference) !! id.
Proof.
  unfold ReorderPlugin.prev, reference_outcome. rewrite map_lookup_imap.
  by destruct ((main ∪ reference) !! id).
Qed.

Lemma reorder_sorted_by_key (self : ReorderPlugin.t) (main reference : Store)
    (items : list Item) :
  (∀ it, it ∈ items →
     is_Some (main !! nodeid it) ∨ is_Some (reference !! nodeid it)) →
  ReorderPlugin.pytest_collection_modifyitems self main reference items
  = Ok (py_sorted
          (fun a b => ReorderPlugin.key_le
                        (rank self reference a, - st_mtime a)
                        (rank self reference b, - st_mtime b))
          items).
Proof.
  intros Hrows. unfold ReorderPlugin.pytest_collection_modifyitems.
  rewrite (mapM_Ok _ (fun it => (rank self reference it, - st_mtime it))).
  - cbn [bind]. f_equal.
    apply (decorate_sort_undecorate
             (fun it => (rank self reference it, - st_mtime it))).
  - intros it Hin. unfold ReorderPlugin.key.
    rewrite reorder_prev_lookup, merge_reference_lookup.
    destruct (Hrows it Hin) as [[r ->] | [rr Hrr]]; [done|].
    rewrite Hrr. by destruct (main !! nodeid it).
Qed.

(** C9 as stated fails: the rank of an unlisted category is the constant
    99, so in a list of more than a hundred entries the late ones rank
    after the unlisted categories.  Here "failed" is listed, "passed" is
    not, and the candidate that passed is sorted first. *)
Lemma long_order_list_ranks_listed_last :
  let fields := (replicate 100 "x" ++ ["failed"])%list in
  let a := mkItem "t.py::test_a" [] 0 in
  let b := mkItem "t.py::test_b" [] 0 in
  let reference : Store :=
    {[ "t.py::test_a" := set_outcome passed pending_row;
       "t.py::test_b" := set_outcome failed pending_row ]} in
  ("failed" ∈ fields) ∧ ("passed" ∉ fields)
  ∧ ReorderPlugin.pytest_collection_modifyitems
      (ReorderPlugin.configure fields) reference reference [b; a]
    = Ok [a; b].
Proof.
  intros fields a b reference. split; [|split].
  - subst fields. apply elem_of_app. right. by left.
  - subst fields. intros [Hin | Hin]%elem_of_app.
    + apply elem_of_replicate in Hin as [Hin _]. discriminate Hin.
    + apply list_elem_of_singleton in Hin. discriminate Hin.
  - vm_compute. reflexivity.
Qed.

(** C9, amended. For an order list of at most 99 entries and candidates
    that all have a live or a reference row, reordering returns a
    permutation of the candidates, sorted by the rank of their reference
    outcome ("new" when the reference has no row) and within a rank by
    descending modification time, candidates with the same rank and time
    keeping the order they came in; a listed category ranks at the index
    of its last occurrence in the list, which is below 99, the rank of
    every unlisted one. *)
Theorem reorder_sorts_by_rank_then_mtime (fields : list string)
    (main reference : Store) (items : list Item) :
  (length fields ≤ 99)%nat →
  (∀ it, it ∈ items →
     is_Some (main !! nodeid it) ∨ is_Some (reference !! nodeid it)) →
  let self := ReorderPlugin.configure fields in
  let rank_of o := default 99 (ReorderPlugin.reorder self !! o) in
  ∃ sorted,
    ReorderPlugin.pytest_collection_modifyitems self main reference items
    = Ok sorted
    ∧ sorted ≡ₚ items
    ∧ StronglySorted
        (fun a b =>
           rank self reference a < rank self reference b
           ∨ (rank self reference a = rank self reference b
              ∧ st_mtime b ≤ st_mtime a))
        sorted
    ∧ (∀ r m,
         filter (fun it => rank self reference it = r ∧ st_mtime it = m) sorted
         = filter (fun it => rank self reference it = r ∧ st_mtime it = m) items)
    ∧ (∀ it, rank self reference it
             = rank_of (reference_outcome reference (nodeid it)))
    ∧ (∀ listed, listed ∈ fields →
         ∃ n : nat, rank_of listed = Z.of_nat n
                    ∧ fields !! n = Some listed
                    ∧ listed ∉ drop (S n) fields)
    ∧ (∀ listed unlisted, listed ∈ fields → unlisted ∉ fields →
         rank_of listed < rank_of unlisted ∧ rank_of unlisted = 99).
Proof.
  intros Hlen Hrows self rank_of.
  eexists. split; [by apply reorder_sorted_by_key|].
  split; [apply py_sorted_perm|]. split; [|split; [|split; [|split]]].
  - eapply StronglySorted_weaken;
      [|apply py_sorted_sorted;
        [intros; apply key_le_total | intros ???; apply key_le_trans] ].
    intros a b Hle. apply key_le_spec in Hle. simpl in Hle. lia.
  - intros r m. apply py_sorted_stable.
    intros x y [Hx Hxm] [Hy Hym]. apply key_le_spec. simpl. lia.
  - done.
  - intros listed Hin. subst rank_of self.
    unfold ReorderPlugin.configure. simpl.
    destruct (enumerate_from_lookup fields 0 ∅ listed) as [Hl _].
    destruct (Hl Hin) as (n & -> & Hn & Hlast). exists n. simpl.
    split; [lia | done].
  - intros listed unlisted Hin Hnotin. subst rank_of self.
    unfold ReorderPlugin.configure. simpl.
    destruct (enumerate_from_lookup fields 0 ∅ listed) as [Hl _].
    destruct (enumerate_from_lookup fields 0 ∅ unlisted) as [_ Hu].
    destruct (Hl Hin) as (n & -> & Hn & _). rewrite (Hu Hnotin), lookup_empty.
    apply lookup_lt_Some in Hn. simpl. lia.
Qed.

Lemma reorder_sorts_by_rank_then_mtime_witness :
  let a := mkItem "t.py::test_a" [] 0 in
  let b := mkItem "t.py::test_b" [] 0 in
  let reference : Store :=
    {[ "t.py::test_a" := set_outcome passed pending_row;
       "t.py::test_b" := set_outcome failed pending_row ]} in
  ∃ sorted,
    ReorderPlugin.pytest_collection_modifyitems
      (ReorderPlugin.configure ["new"; "failed"]) reference reference [a; b]
    = Ok sorted
    ∧ sorted ≡ₚ [a; b].
Proof.
  intros a b reference.
  destruct (reorder_sorts_by_rank_then_mtime ["new"; "failed"]
              reference reference [a; b]) as (sorted & Hrun & Hperm & _).
  - simpl. lia.
  - intros it [-> | [-> | Hin]%elem_of_cons]%elem_of_cons.
    + left. by eexists.
    + left. by eexists.
    + by apply elem_of_nil in Hin.
  - exists sorted. split; [exact Hrun | exact Hperm].
Defined.

(** ** Collection skipping (SkipCollection, SkipCollected) *)

Lemma string_ind2 (P : string → Prop) :
  P EmptyString →
  (∀ c, P (String c EmptyString)) →
  (∀ c c' r, P r → P (String c' r) → P (String c (String c' r))) →
  ∀ s, P s.
Proof.
  intros H0 H1 H2.
  assert (∀ s, P s ∧ ∀ c, P (String c s)) as Hboth.
  { induction s as [|c' r [IHr IHcr]]; [by split|].
    split; [apply IHcr|]. intros c. by apply H2. }
  intros s. apply Hboth.
Qed.

Lemma split_colons_step (c c' : ascii) (r : string) :
  split_colons (String c (String c' r))
  = if Ascii.eqb c ":" && Ascii.eqb c' ":"
    then EmptyString :: split_colons r
    else cons_head c (split_colons (String c' r)).
Proof. reflexivity. Qed.

Lemma cons_head_nonempty (c : ascii) (l : list string) : cons_head c l ≠ [].
Proof. by destruct l. Qed.

Lemma split_colons_nonempty (s : string) : split_colons s ≠ [].
Proof.
  induction s as [| c | c c' r IHr IHcr] using string_ind2; [done | done |].
  rewrite split_colons_step.
  destruct (Ascii.eqb c ":" && Ascii.eqb c' ":"); [done|].
  apply cons_head_nonempty.
Qed.

Lemma cons_head_app (c : ascii) (l1 l2 : list string) :
  l1 ≠ [] → cons_head c (l1 ++ l2)%list = (cons_head c l1 ++ l2)%list.
Proof. by destruct l1. Qed.

(** Splitting an id made of a text, the separator and a rest: unless the
    text ends with a colon, the fields are those of the text followed by
    those of the rest. *)
Lemma split_colons_app (s t : string) :
  ends_with_colon s = false →
  split_colons (s ++ "::" ++ t) = (split_colons s ++ split_colons t)%list.
Proof.
  induction s as [| c | c c' r IHr IHcr] using string_ind2; intros Hend.
  - reflexivity.
  - simpl in Hend.
    change ((String c EmptyString ++ "::" ++ t)%string)
      with (String c (String ":" (String ":" t))).
    rewrite split_colons_step, Hend. reflexivity.
  - change ((String c (String c' r) ++ "::" ++ t)%string)
      with (String c (String c' (r ++ "::" ++ t)%string)).
    rewrite !split_colons_step.
    destruct (Ascii.eqb c ":" && Ascii.eqb c' ":") eqn:Hcc.
    + rewrite IHr; [done|]. destruct r; [done | exact Hend].
    + change (String c' (r ++ "::" ++ t)%string)
        with ((String c' r ++ "::" ++ t)%string).
      rewrite IHcr by exact Hend.
      apply cons_head_app, split_colons_nonempty.
Qed.

Lemma id_to_path_app (s t : string) :
  ends_with_colon s = false →
  IdTrie.id_to_path (s ++ "::" ++ t)
  = (IdTrie.id_to_path s ++ split_colons t)%list.
Proof.
  intros Hend. unfold IdTrie.id_to_path. rewrite split_colons_app by done.
  destruct (split_colons s) as [|h tl] eqn:Hs; [by apply split_colons_nonempty in Hs|].
  simpl. by rewrite app_assoc.
Qed.

Lemma cons_head_single (c : ascii) (l : list string) (s : string) :
  l ≠ [] → cons_head c l = [String c s] → l = [s].
Proof. destruct l as [|h t]; [done|]. cbn. by intros _ [= -> ->]. Qed.

Lemma split_colons_slash (b : string) :
  split_colons b = [b] → split_colons (String "/" b) = [String "/" b].
Proof.
  intros Hb. destruct b as [|c r]; [done|].
  rewrite split_colons_step. cbn [Ascii.eqb andb]. by rewrite Hb.
Qed.

Lemma split_colons_join (a b : string) :
  split_colons a = [a] → split_colons b = [b] →
  split_colons (a ++ String "/" b) = [(a ++ String "/" b)%string].
Proof.
  intros Ha Hb. induction a as [| c | c c' r IHr IHcr] using string_ind2.
  - by apply split_colons_slash.
  - change ((String c EmptyString ++ String "/" b)%string)
      with (String c (String "/" b)).
    rewrite split_colons_step.
    replace (Ascii.eqb c ":" && Ascii.eqb "/" ":") with false
      by (by rewrite andb_false_r).
    by rewrite split_colons_slash.
  - rewrite split_colons_step in Ha.
    change ((String c (String c' r) ++ String "/" b)%string)
      with (String c (String c' (r ++ String "/" b))).
    rewrite split_colons_step.
    destruct (Ascii.eqb c ":" && Ascii.eqb c' ":").
    + pose proof (split_colons_nonempty r) as Hne.
      destruct (split_colons r); [done | discriminate Ha].
    + apply cons_head_single in Ha; [|apply split_colons_nonempty].
      change (String c' (r ++ String "/" b))
        with ((String c' r ++ String "/" b)%string).
      by rewrite (IHcr Ha).
Qed.

Lemma split_colons_concat (rel : list string) :
  Forall (fun s => split_colons s = [s]) rel →
  split_colons (String.concat "/" rel) = [String.concat "/" rel].
Proof.
  induction 1 as [|a rel Ha Hall IH]; [done|].
  destruct rel as [|b rel]; [done|]. rewrite concat_cons2.
  change ("/" ++ String.concat "/" (b :: rel))%string
    with (String "/" (String.concat "/" (b :: rel))).
  by apply split_colons_join.
Qed.

Lemma fspath_plain (a : string) (rest : Path) :
  plain_part a = true →
  fspath (a :: rest) = String.concat "/" (a :: rest).
Proof.
  intros Ha. unfold plain_part in Ha.
  apply andb_true_iff in Ha as [_ Ha]. apply negb_true_iff in Ha.
  assert (is_absolute (a :: rest) = false) as Hrel.
  { cbn [is_absolute]. apply orb_false_iff.
    split; apply String.eqb_neq; intros ->; done. }
  unfold fspath. by rewrite Hrel.
Qed.

Lemma fspath_colon_free (rel : Path) :
  forallb plain_part rel = true → forallb colon_free rel = true →
  split_colons (fspath rel) = [fspath rel].
Proof.
  intros Hplain Hfree. destruct rel as [|a rest]; [done|].
  rewrite fspath_plain by (cbn in Hplain; by apply andb_true_iff in Hplain as [? _]).
  apply split_colons_concat, Forall_forall. intros s Hs.
  rewrite forallb_forall in Hfree.
  apply list_elem_of_In, Hfree in Hs. by apply bool_decide_eq_true in Hs.
Qed.

Lemma contains_components (rootpath : Path) (nodeids : list string)
    (rel : Path) :
  forallb plain_part rel = true → forallb colon_free rel = true →
  IdTrie.__contains__ (IdTrie.__init__ rootpath nodeids)
    (QPath (rootpath ++ rel))
  = Ok (IdTrie.walk rel (Some (IdTrie.d (IdTrie.__init__ rootpath nodeids)))).
Proof.
  intros Hplain Hfree.
  unfold IdTrie.__contains__, IdTrie.query_text, relative_to.
  cbn [IdTrie.rootpath IdTrie.__init__].
  assert (is_absolute (rootpath ++ rel) = is_absolute rootpath) as ->.
  { destruct rootpath as [|r root]; [|done].
    destruct rel as [|x rel']; [done|]. cbn in Hplain |- *.
    apply andb_true_iff in Hplain as [Hx _]. unfold plain_part in Hx.
    apply andb_true_iff in Hx as [_ Hslash]. apply negb_true_iff in Hslash.
    destruct (String.eqb x "/") eqn:H1;
      [apply String.eqb_eq in H1 as ->; discriminate Hslash|].
    destruct (String.eqb x "//") eqn:H2;
      [apply String.eqb_eq in H2 as ->; discriminate Hslash|]. done. }
  rewrite bool_decide_eq_true_2 by apply prefix_app_r, reflexivity.
  rewrite Bool.eqb_reflx. cbn [andb bind].
  rewrite drop_app_length. unfold IdTrie.contains_text.
  by rewrite id_to_path_fspath by (done || by apply fspath_colon_free).
Qed.

(** C6, amended. The membership test answers true exactly when the
    segments of the query - the components of a path below the root, the
    path components and then the ["::"] fields of a full id - are none at
    all, or a prefix of (or equal to) the segments of some stored id.  So
    a directory is contained as soon as a stored id, of a file below it
    or of something in such a file, descends through it.  The trie of no
    id is falsy.  Paths are taken with plain components that hold no
    ["::"], and the file of a stored id with a text that does not end
    with a colon: nothing is said of the others. *)
Theorem trie_membership_is_prefix (rootpath : Path) (nodeids : list string) :
  let trie := IdTrie.__init__ rootpath nodeids in
  let stored q := ∃ id, id ∈ nodeids ∧ q `prefix_of` IdTrie.id_to_path id in
  (∀ rel, forallb plain_part rel = true → forallb colon_free rel = true →
     ∃ b, IdTrie.__contains__ trie (QPath (rootpath ++ rel)) = Ok b
          ∧ (b = true ↔ rel = [] ∨ stored rel))
  ∧ (∀ s, ∃ b, IdTrie.__contains__ trie (QStr s) = Ok b
               ∧ (b = true ↔ IdTrie.id_to_path s = []
                             ∨ stored (IdTrie.id_to_path s)))
  ∧ (∀ rel, forallb plain_part rel = true → forallb colon_free rel = true →
       IdTrie.id_to_path (fspath rel) = rel
       ∧ (ends_with_colon (fspath rel) = false →
          ∀ symbols, IdTrie.id_to_path (fspath rel ++ "::" ++ symbols)
                     = (rel ++ split_colons symbols)%list))
  ∧ (∀ dir below symbols,
       forallb plain_part (dir ++ below) = true →
       forallb colon_free (dir ++ below) = true →
       ends_with_colon (fspath (dir ++ below)) = false →
       (fspath (dir ++ below) ∈ nodeids)
       ∨ ((fspath (dir ++ below) ++ "::" ++ symbols)%string ∈ nodeids) →
       IdTrie.__contains__ trie (QPath (rootpath ++ dir)) = Ok true)
  ∧ IdTrie.__bool__ (IdTrie.__init__ rootpath []) = false.
Proof.
  intros trie stored.
  assert (∀ rel, forallb plain_part rel = true → forallb colon_free rel = true →
            IdTrie.id_to_path (fspath rel) = rel) as Hpath.
  { intros rel Hplain Hfree. apply id_to_path_fspath; [done|].
    by apply fspath_colon_free. }
  assert (∀ rel, forallb plain_part rel = true → forallb colon_free rel = true →
            ∃ b, IdTrie.__contains__ trie (QPath (rootpath ++ rel)) = Ok b
                 ∧ (b = true ↔ rel = [] ∨ stored rel)) as Hquery.
  { intros rel Hplain Hfree. subst trie.
    rewrite (contains_components _ _ _ Hplain Hfree).
    eexists. split; [reflexivity|].
    pose proof (contains_text_spec rootpath nodeids (fspath rel)) as Hspec.
    unfold IdTrie.contains_text in Hspec.
    rewrite (Hpath rel Hplain Hfree) in Hspec. exact Hspec. }
  split; [exact Hquery|]. split; [|split; [|split]].
  - intros s. eexists. split; [reflexivity|]. apply contains_text_spec.
  - intros rel Hplain Hfree. split; [by apply Hpath|].
    intros Hend symbols. rewrite id_to_path_app by done.
    by rewrite Hpath.
  - intros dir below symbols Hplain Hfree Hend Hin.
    rewrite forallb_app in Hplain, Hfree.
    apply andb_true_iff in Hplain as [Hplain_dir Hplain_below].
    apply andb_true_iff in Hfree as [Hfree_dir Hfree_below].
    assert (forallb plain_part (dir ++ below) = true) as Hplain'
      by (rewrite forallb_app; by apply andb_true_iff).
    assert (forallb colon_free (dir ++ below) = true) as Hfree'
      by (rewrite forallb_app; by apply andb_true_iff).
    destruct (Hquery dir Hplain_dir Hfree_dir) as (b & -> & Hb).
    f_equal. apply Hb. right.
    destruct Hin as [Hin | Hin]; eexists; (split; [exact Hin|]).
    + rewrite Hpath by done. by apply prefix_app_r.
    + rewrite id_to_path_app by done. rewrite Hpath by done.
      rewrite <- app_assoc. by apply prefix_app_r.
  - reflexivity.
Qed.

Lemma trie_membership_is_prefix_witness :
  IdTrie.__contains__
    (IdTrie.__init__ ["/"; "proj"] ["pkg/sub/test_a.py::T::test_x"])
    (QPath ["/"; "proj"; "pkg"])
  = Ok true.
Proof.
  destruct (trie_membership_is_prefix ["/"; "proj"]
              ["pkg/sub/test_a.py::T::test_x"]) as (_ & _ & _ & Hdir & _).
  apply (Hdir ["pkg"] ["sub"; "test_a.py"] "T::test_x");
    [reflexivity | reflexivity | reflexivity |].
  right. by left.
Defined.

Lemma string_prefix_inv (p s : string) :
  String.prefix p s = true → ∃ rest, s = (p ++ rest)%string.
Proof.
  revert s. induction p as [|c p IH]; intros s.
  - intros _. by exists s.
  - destruct s as [|c' s]; [done|].
    change (String.prefix (String c p) (String c' s))
      with (if ascii_dec c c' then String.prefix p s else false).
    destruct (ascii_dec c c') as [<- | ?]; [|done].
    intros Hp. destruct (IH s Hp) as [rest ->]. by exists rest.
Qed.

Lemma string_app_assoc (a b c : string) :
  ((a ++ b) ++ c = a ++ (b ++ c))%string.
Proof.
  induction a as [|x a IH]; [done|].
  change (String x ((a ++ b) ++ c) = String x (a ++ (b ++ c)))%string.
  by rewrite IH.
Qed.

Lemma Node_nested_ind (P : Node → Prop) :
  (∀ it, P (Leaf it)) →
  (∀ k id p result, Forall P result → P (Collect k id p result)) →
  ∀ n, P n.
Proof.
  intros Hleaf Hcollect. fix IH 1. intros [it | k id p result].
  - apply Hleaf.
  - apply Hcollect. induction result as [|c result IHr]; constructor.
    + apply IH.
    + exact IHr.
Qed.

Lemma mapM_total {A B} (f : A → result B) (l : list A) :
  (∀ x, x ∈ l → is_ok (f x) = true) →
  ∃ ys, mapM f l = Ok ys ∧ length ys = length l.
Proof.
  induction l as [|x l IH]; intros Hok.
  - by exists [].
  - cbn [mapM]. specialize (Hok x (list_elem_of_here _ _)) as Hx.
    destruct (f x) as [y|]; [|done]. cbn [bind].
    destruct IH as (ys & -> & Hlen); [intros; apply Hok; by right|].
    exists (y :: ys). split; [done|]. simpl. by rewrite Hlen.
Qed.

Lemma selected_nodeids_spec (reference : Store) (outcomes : gset string)
    (id : string) :
  id ∈ SkipCollection.selected_nodeids reference outcomes
  ↔ ∃ r, reference !! id = Some r ∧ outcome_text (outcome r) ∈ outcomes.
Proof.
  unfold SkipCollection.selected_nodeids. rewrite list_elem_of_fmap. split.
  - intros ([id' r] & -> & Hin). apply elem_of_map_to_list in Hin.
    apply map_lookup_filter_Some in Hin as [Hrow Hout]. eauto.
  - intros (r & Hrow & Hout). exists (id, r). split; [done|].
    apply elem_of_map_to_list, map_lookup_filter_Some. done.
Qed.

Lemma leaves_collect (k : Kind) (id : string) (p : Path) (result : list Node)
    (it : Item) :
  it ∈ leaves (Collect k id p result) ↔ ∃ c, c ∈ result ∧ it ∈ leaves c.
Proof.
  cbn [leaves]. rewrite list_elem_of_In, in_concat. split.
  - intros (l & Hl & Hit). apply in_map_iff in Hl as (c & <- & Hc).
    exists c. by rewrite !list_elem_of_In.
  - intros (c & Hc & Hit). exists (leaves c).
    rewrite in_map_iff, <-list_elem_of_In. split; [|done].
    exists c. by rewrite <-list_elem_of_In.
Qed.

Lemma genitems_collect (self : SkipCollection.t) (isinitpath : Path → bool)
    (k : Kind) (id : string) (p : Path) (result : list Node)
    (st : SkipCollection.State) :
  SkipCollection.genitems self isinitpath (Collect k id p result) st
  = (r ←! SkipCollection.pytest_make_collect_report self isinitpath st k p
            (map (fun c => (c, SkipCollection.genitems self isinitpath c))
                 result);
     SkipCollection.run_all r.2 r.1).
Proof. reflexivity. Qed.

Section skipping.
Variable self : SkipCollection.t.
Variable isinitpath : Path → bool.
Variable nodeids : list string.
Hypothesis trie_built :
  SkipCollection.trie self
  = IdTrie.__init__ (SkipCollection.rootdir self) nodeids.

Let root := SkipCollection.rootdir self.
Let in_trie := IdTrie.contains_text (SkipCollection.trie self).

Lemma contains_path_under (p : Path) :
  is_ok (relative_to p root) = true →
  ∃ rel, relative_to p root = Ok rel
         ∧ IdTrie.__contains__ (SkipCollection.trie self) (QPath p)
           = Ok (in_trie (fspath rel)).
Proof.
  intros Hok. destruct (relative_to p root) as [rel|] eqn:Hrel; [|done].
  exists rel. split; [done|].
  unfold IdTrie.__contains__, IdTrie.query_text, in_trie.
  rewrite trie_built. cbn [IdTrie.rootpath IdTrie.__init__].
  fold root. by rewrite Hrel.
Qed.

Lemma stored_id_in_trie (id : string) : id ∈ nodeids → in_trie id = true.
Proof.
  intros Hin. unfold in_trie. rewrite trie_built.
  apply contains_text_spec. right. by exists id.
Qed.

(** A file whose id leads to a stored id is in the trie. *)
Lemma file_of_stored_id_in_trie (fid rest : string) :
  ends_with_colon fid = false →
  ((fid ++ "::") ++ rest)%string ∈ nodeids →
  in_trie fid = true.
Proof.
  intros Hend Hin. unfold in_trie. rewrite trie_built.
  apply contains_text_spec. right. eexists. split; [exact Hin|].
  rewrite string_app_assoc, id_to_path_app by done.
  by apply prefix_app_r.
Qed.

Section report.
Context {A : Type}.

(** The report comes back as the host produced it. *)
Ltac report_unchanged :=
  eexists _, _; split; [reflexivity|]; split; [done | by intros ? ? _].

Lemma sort_by_trie_perm (nodes : list (Node * A)) :
  (∀ x, x ∈ nodes → is_ok (relative_to (node_path x.1) root) = true) →
  ∃ sorted, SkipCollection.sort_by_trie self nodes = Ok sorted
            ∧ sorted ≡ₚ nodes.
Proof.
  intros Hunder. unfold SkipCollection.sort_by_trie.
  destruct (mapM_total
              (fun n : Node * A =>
                 IdTrie.__contains__ (SkipCollection.trie self)
                   (QPath (node_path n.1))) nodes) as (keys & -> & Hlen).
  { intros x Hin. destruct (contains_path_under _ (Hunder x Hin))
      as (rel & _ & ->). done. }
  cbn [bind]. eexists. split; [done|].
  rewrite py_sorted_perm. rewrite snd_zip by lia. done.
Qed.

Lemma wrap_report_spec (st : SkipCollection.State) (k : Kind) (p rel : Path)
    (nodes : list (Node * A)) :
  relative_to p root = Ok rel →
  (∀ x, x ∈ nodes → is_ok (relative_to (node_path x.1) root) = true) →
  ∃ kept st1,
    SkipCollection.wrap_report self isinitpath st k p nodes = Ok (kept, st1)
    ∧ (∀ x, x ∈ kept → x ∈ nodes)
    ∧ (∀ x, x ∈ nodes →
         (k = KFile →
          in_trie (node_nodeid x.1) = true ∨ is_collector x.1 = true) →
         x ∈ kept).
Proof.
  intros Hrel Hunder. unfold SkipCollection.wrap_report.
  destruct (bool_decide (k = KSession) || bool_decide (k = KDirectory)) eqn:Hdir.
  - destruct (sort_by_trie_perm nodes Hunder) as (sorted & -> & Hperm).
    cbn [bind]. exists sorted, st. split; [done|].
    split; intros x; rewrite Hperm; [done|]. by intros ? _.
  - destruct (decide (k = KFile)) as [Hfile | Hfile];
      [rewrite (bool_decide_eq_true_2 _ Hfile)
      |rewrite (bool_decide_eq_false_2 _ Hfile); report_unchanged].
    destruct (contains_path_under p) as (rel' & Hrel' & ->);
      [by rewrite Hrel|].
    cbn [bind]. destruct (in_trie (fspath rel')); [|report_unchanged].
    destruct (negb (SkipCollection.found_failure st) && _);
      [report_unchanged|].
    eexists _, _. split; [done|]. split.
    + intros x [_ Hin]%list_elem_of_filter. done.
    + intros x Hin Hkeep. apply list_elem_of_filter. split; [|done].
      unfold SkipCollection.keep_node. fold in_trie.
      destruct (Hkeep Hfile) as [-> | ->]; [done|].
      by rewrite orb_true_r.
Qed.

Lemma make_collect_report_spec (st : SkipCollection.State) (k : Kind)
    (p rel : Path) (collected : list (Node * A)) :
  relative_to p root = Ok rel →
  (∀ x, x ∈ collected → is_ok (relative_to (node_path x.1) root) = true) →
  ∃ kept st1,
    SkipCollection.pytest_make_collect_report self isinitpath st k p collected
    = Ok (kept, st1)
    ∧ (∀ x, x ∈ kept → x ∈ collected)
    ∧ (∀ x, x ∈ collected →
         (k = KFile →
          in_trie (fspath rel) = true
          ∧ (in_trie (node_nodeid x.1) = true ∨ is_collector x.1 = true)) →
         x ∈ kept).
Proof.
  intros Hrel Hunder. unfold SkipCollection.pytest_make_collect_report.
  assert (∀ st0, ∃ kept st1,
            SkipCollection.wrap_report self isinitpath st0 k p collected
            = Ok (kept, st1)
            ∧ (∀ x, x ∈ kept → x ∈ collected)
            ∧ (∀ x, x ∈ collected →
                 (k = KFile →
                  in_trie (fspath rel) = true
                  ∧ (in_trie (node_nodeid x.1) = true
                     ∨ is_collector x.1 = true)) →
                 x ∈ kept)) as Hwrap.
  { intros st0.
    destruct (wrap_report_spec st0 k p rel collected Hrel Hunder)
      as (kept & st1 & Hrun & Hsub & Hkeep).
    exists kept, st1. split; [done|]. split; [done|].
    intros x Hin Hx. apply Hkeep; [done|]. intros Hk. by destruct (Hx Hk). }
  destruct (SkipCollection.skipcollected st); [|cbn [bind snd fst default]; apply Hwrap].
  unfold SkipCollection.skipcollected_report.
  destruct (decide (k = KFile)) as [-> | Hfile];
    [rewrite (bool_decide_eq_true_2 (KFile = KFile)) by done
    |rewrite (bool_decide_eq_false_2 _ Hfile);
     cbn [bind snd fst default]; apply Hwrap].
  destruct (contains_path_under p) as (rel' & Hrel' & Hin); [by rewrite Hrel|].
  rewrite Hin. cbn [bind].
  assert (rel' = rel) as -> by congruence.
  destruct (in_trie (fspath rel)) eqn:Hfile_in;
    cbn [negb bind snd fst default]; [apply Hwrap|].
  unfold SkipCollection.wrap_report.
  rewrite (bool_decide_eq_false_2 (KFile = KSession)) by done.
  rewrite (bool_decide_eq_false_2 (KFile = KDirectory)) by done.
  rewrite (bool_decide_eq_true_2 (KFile = KFile)) by done.
  cbn [orb]. rewrite Hin, ?Hfile_in. cbn [bind].
  eexists _, _. split; [done|]. split.
  - intros x Hx. by apply elem_of_nil in Hx.
  - intros x _ Hx. destruct (Hx eq_refl) as [Hcontra _]. done.
Qed.

End report.

Lemma run_all_spec
    (nodes : list (Node * (SkipCollection.State
                           → result (list Item * SkipCollection.State))))
    (st : SkipCollection.State) :
  Forall (sound_child nodeids) nodes →
  ∃ items st',
    SkipCollection.run_all st nodes = Ok (items, st')
    ∧ ∀ x it, x ∈ nodes → it ∈ leaves x.1 → nodeid it ∈ nodeids → it ∈ items.
Proof.
  intros Hall. revert st. induction Hall as [|x nodes Hx Hall IH]; intros st.
  - exists [], st. split; [done|]. intros x it Hin. by apply elem_of_nil in Hin.
  - cbn [SkipCollection.run_all].
    destruct (Hx st) as (items1 & st1 & -> & Hitems1). cbn [bind snd fst].
    destruct (IH st1) as (items2 & st2 & -> & Hitems2). cbn [bind snd fst].
    eexists _, _. split; [done|].
    intros y it [-> | Hin]%elem_of_cons Hleaf Hgood; apply elem_of_app.
    + left. by apply Hitems1.
    + right. by eapply Hitems2.
Qed.

Lemma genitems_sound (n : Node) :
  paths_under root n = true → host_ids root n = true →
  no_colon_file n = true →
  sound_child nodeids (n, SkipCollection.genitems self isinitpath n).
Proof.
  induction n as [it | k id p result IH] using Node_nested_ind;
    intros Hunder Hids Hcolon st.
  - exists [it], st. split; [done|].
    intros it' ->%list_elem_of_singleton _. by left.
  - cbn [paths_under host_ids no_colon_file node_path] in Hunder, Hids, Hcolon.
    apply andb_true_iff in Hunder as [Hp Hunder].
    apply andb_true_iff in Hids as [Hfile_ids Hids].
    apply andb_true_iff in Hcolon as [Hfile_colon Hcolon].
    rewrite forallb_forall in Hunder, Hids, Hcolon.
    destruct (relative_to p root) as [rel|] eqn:Hrel; [|done].
    set (collected :=
           map (fun c => (c, SkipCollection.genitems self isinitpath c)) result).
    assert (∀ x, x ∈ collected →
              x.1 ∈ result
              ∧ x.2 = SkipCollection.genitems self isinitpath x.1) as Hcollected.
    { intros x Hin. apply list_elem_of_fmap in Hin as (c & -> & Hc). done. }
    assert (Forall (sound_child nodeids) collected) as Hsound.
    { apply Forall_forall. intros x Hin.
      destruct (Hcollected x Hin) as [Hc Hrun]. destruct x as [c run].
      simpl in Hc, Hrun. subst run.
      rewrite Forall_forall in IH.
      apply IH; [done|..]; [apply Hunder | apply Hids | apply Hcolon];
        by apply list_elem_of_In. }
    destruct (make_collect_report_spec st k p rel collected Hrel)
      as (kept & st1 & Hreport & Hsub & Hkeep).
    { intros x Hin. destruct (Hcollected x Hin) as [Hc _].
      apply list_elem_of_In, Hunder in Hc.
      destruct x.1; cbn [paths_under node_path] in Hc |- *;
        by apply andb_true_iff in Hc as [-> _]. }
    destruct (run_all_spec kept st1) as (items & st2 & Hrun & Hitems).
    { apply Forall_forall. intros x Hin. rewrite Forall_forall in Hsound.
      by apply Hsound, Hsub. }
    exists items, st2. split.
    { cbn [snd]. rewrite genitems_collect. fold collected.
      rewrite Hreport. cbn [bind snd fst]. exact Hrun. }
    intros it Hleaf Hgood. cbn [fst] in Hleaf.
    apply leaves_collect in Hleaf as (c & Hc & Hit).
    apply (Hitems (c, SkipCollection.genitems self isinitpath c)); [|done..].
    apply Hkeep.
    { apply list_elem_of_fmap. by exists c. }
    intros ->. rewrite bool_decide_eq_true_2 in Hfile_ids, Hfile_colon by done.
    apply andb_true_iff in Hfile_ids as [Hid Hprefix].
    apply String.eqb_eq in Hid. subst id.
    apply negb_true_iff in Hfile_colon.
    rewrite forallb_forall in Hprefix.
    split.
    + destruct (string_prefix_inv _ _ (Hprefix it
                  (proj1 (list_elem_of_In _ _)
                     (proj2 (leaves_collect KFile (fspath rel) p result it)
                        (ex_intro _ c (conj Hc Hit))))))
        as [rest Hrest].
      apply (file_of_stored_id_in_trie _ rest); [done|]. by rewrite <-Hrest.
    + destruct c as [it' | k' id' p' result']; [left | by right].
      apply list_elem_of_singleton in Hit as ->.
      by apply stored_id_in_trie.
Qed.

End skipping.

Lemma skip_init_inv (root : Path) (is_file : Path → bool) (reference : Store)
    (outcomes : gset string) (skip : SkipCollection.t) :
  SkipCollection.__init__ root is_file reference outcomes = Ok skip →
  ("new" ∉ outcomes)
  ∧ SkipCollection.rootdir skip = root
  ∧ SkipCollection.trie skip
    = IdTrie.__init__ root
        (SkipCollection.selected_nodeids reference outcomes).
Proof.
  unfold SkipCollection.__init__.
  case_bool_decide as Hempty; [done|].
  case_bool_decide as Hnew; [done|].
  destruct (negb (existsb _ _)); [done|].
  destruct (negb (IdTrie.__bool__ _)); [done|].
  by intros [= <-].
Qed.

(** X2. Away from the colon-ended file names the skipper is sound: on a
    tree of the host (paths under the root, pytest's node ids) in which no
    file id ends with a colon, the traversal with the skipper returns,
    and what it yields contains every item whose reference outcome is
    requested - hence all that rerun selection keeps on the full
    collection. *)
Lemma skipper_keeps_every_match (root : Path) (is_file isinitpath : Path → bool)
    (main reference : Store) (outcomes : gset string)
    (skip : SkipCollection.t) (tree : Node) (st : SkipCollection.State) :
  SkipCollection.__init__ root is_file reference outcomes = Ok skip →
  paths_under root tree = true →
  host_ids root tree = true →
  no_colon_file tree = true →
  ∃ items st',
    SkipCollection.genitems skip isinitpath tree st = Ok (items, st')
    ∧ (∀ it, it ∈ leaves tree →
             reference_outcome reference (nodeid it) ∈ outcomes → it ∈ items)
    ∧ (∀ kept deselected,
         RerunPlugin.split_items
           (RerunPlugin.prev (RerunPlugin.merge_reference main reference)
              reference)
           outcomes (leaves tree) = Ok (kept, deselected) →
         ∀ it, it ∈ kept → it ∈ items).
Proof.
  intros Hinit Hunder Hids Hcolon.
  destruct (skip_init_inv _ _ _ _ _ Hinit) as (Hnew & Hroot & Htrie).
  rewrite <-Hroot in Htrie, Hunder, Hids.
  destruct (genitems_sound skip isinitpath _ Htrie tree Hunder Hids Hcolon st)
    as (items & st' & Hrun & Hitems).
  cbn [fst snd] in Hrun, Hitems.
  assert (∀ it, it ∈ leaves tree →
                reference_outcome reference (nodeid it) ∈ outcomes →
                it ∈ items) as Hmatch.
  { intros it Hleaf Hout. apply Hitems; [done|].
    apply selected_nodeids_spec. unfold reference_outcome in Hout.
    destruct (reference !! nodeid it) as [r|]; [by eauto | done]. }
  exists items, st'. split; [done|]. split; [done|].
  intros kept deselected Hsplit it Hkept.
  destruct (split_items_inv _ _ _ _ _ Hsplit) as (Hmem & Hk & _).
  destruct (Hk it Hkept) as (o & Ho & Htag).
  apply Hmatch; [apply Hmem; by left|].
  rewrite rerun_prev_lookup in Ho.
  destruct (RerunPlugin.merge_reference main reference !! nodeid it);
    [|done]. by injection Ho as <-.
Qed.

Lemma skipper_keeps_every_match_witness :
  let root := ["/"; "proj"] in
  let reference : Store :=
    {[ "test_a.py::test_x" := set_outcome failed pending_row;
       "test_b.py::test_ok" := set_outcome passed pending_row ]} in
  let test_x := mkItem "test_a.py::test_x" ["/"; "proj"; "test_a.py"] 0 in
  let test_ok := mkItem "test_b.py::test_ok" ["/"; "proj"; "test_b.py"] 0 in
  let tree :=
    Collect KSession EmptyString root
      [Collect KDirectory EmptyString root
         [Collect KFile "test_b.py" ["/"; "proj"; "test_b.py"] [Leaf test_ok];
          Collect KFile "test_a.py" ["/"; "proj"; "test_a.py"] [Leaf test_x]]] in
  ∃ skip items st',
    SkipCollection.__init__ root (fun _ => true) reference {["failed"]} = Ok skip
    ∧ SkipCollection.genitems skip (fun _ => false) tree SkipCollection.initial
      = Ok (items, st')
    ∧ test_x ∈ items.
Proof.
  intros root reference test_x test_ok tree.
  destruct (SkipCollection.__init__ root (fun _ => true) reference {["failed"]})
    as [skip|] eqn:Hinit; [|by vm_compute in Hinit].
  destruct (skipper_keeps_every_match root (fun _ => true) (fun _ => false)
              ∅ reference {["failed"]} skip tree SkipCollection.initial Hinit)
    as (items & st' & Hrun & Hmatch & _); [reflexivity..|].
  exists skip, items, st'. split; [done|]. split; [done|].
  apply Hmatch.
  - vm_compute. right. by left.
  - vm_compute. reflexivity.
Defined.

(** C2 fails on a file whose id ends with a colon.  The reference holds
    two failed items, one in [test_a.py] and one in the file [notes:];
    ["notes:::case1".split('::')] is [['notes', ':case1']], so the trie
    holds the segment ["notes"] while the file's path gives ["notes:"].
    Once [test_a.py] has set [found_failure], [SkipCollected] answers for
    [notes:] with an empty report, and the item [notes:::case1], which
    rerun selection keeps on the full collection, is never collected. *)
Theorem skipper_drops_colon_file :
  let root := ["/"; "proj"] in
  let reference : Store :=
    {[ "notes:::case1" := set_outcome failed pending_row;
       "test_a.py::test_x" := set_outcome failed pending_row ]} in
  let case1 := mkItem "notes:::case1" ["/"; "proj"; "notes:"] 0 in
  let test_x := mkItem "test_a.py::test_x" ["/"; "proj"; "test_a.py"] 0 in
  let tree :=
    Collect KSession EmptyString root
      [Collect KDirectory EmptyString root
         [Collect KFile "notes:" ["/"; "proj"; "notes:"] [Leaf case1];
          Collect KFile "test_a.py" ["/"; "proj"; "test_a.py"] [Leaf test_x]]] in
  let main : Store :=
    {[ "notes:::case1" := pending_row; "test_a.py::test_x" := pending_row ]} in
  let is_file p :=
    bool_decide (p ∈ [["/"; "proj"; "notes:"]; ["/"; "proj"; "test_a.py"]]) in
  paths_under root tree = true ∧ host_ids root tree = true
  ∧ leaves tree = [case1; test_x]
  ∧ (RerunPlugin.pytest_collection_modifyitems
       (RerunPlugin.mk (Some {["failed"]}) true) main reference (leaves tree)).2
    = Ok (RerunPlugin.mkSelection [case1; test_x] (Some []))
  ∧ ∃ skip,
      SkipCollection.__init__ root is_file reference {["failed"]} = Ok skip
      ∧ SkipCollection.genitems skip (fun _ => false) tree SkipCollection.initial
        = Ok ([test_x], SkipCollection.mkState 1 true true).
Proof.
  intros root reference case1 test_x tree main is_file.
  split; [reflexivity|]. split; [reflexivity|]. split; [reflexivity|].
  split; [vm_compute; reflexivity|].
  destruct (SkipCollection.__init__ root is_file reference {["failed"]})
    as [skip|] eqn:Hinit; [|by vm_compute in Hinit].
  exists skip. split; [done|].
  apply skip_init_inv in Hinit as (_ & Hroot & Htrie).
  destruct skip as [rootdir trie]. simpl in Hroot, Htrie. subst rootdir trie.
  vm_compute. reflexivity.
Qed.

(** * Further properties *)

(** ** Collection reports and missing rows *)

(** X4. A failed or skipped collection report leaves a row for its node
    id with that outcome and its blob in [collect]; a row that existed
    keeps its phase blobs and its location, a new row has them null.  A
    passed report changes nothing, and no report touches another row. *)
Theorem collectreport_upserts (cn : Store) (report : CollectReport) :
  let after := SessionPlugin.pytest_collectreport cn report in
  let id := crep_nodeid report in
  (crep_outcome report = rpassed → after = cn)
  ∧ (crep_outcome report ≠ rpassed →
     ∃ r', after !! id = Some r'
           ∧ outcome r' = (if bool_decide (crep_outcome report = rfailed)
                           then failed else skipped)
           ∧ collect r' = Some (crep_json report)
           ∧ match cn !! id with
             | Some r =>
                 (setup r', call r', teardown r') = (setup r, call r, teardown r)
                 ∧ (filename r', lineno r', testname r')
                   = (filename r, lineno r, testname r)
             | None =>
                 (setup r', call r', teardown r') = (None, None, None)
                 ∧ (filename r', lineno r', testname r') = (None, None, None)
             end)
  ∧ (∀ other, other ≠ id → after !! other = cn !! other).
Proof.
  intros after id. subst after id.
  unfold SessionPlugin.pytest_collectreport, SessionPlugin.upsert_collect.
  split; [|split].
  - by intros ->.
  - intros Hne. destruct (crep_outcome report); [done|..];
      destruct (cn !! crep_nodeid report) as [r|] eqn:Hrow;
      rewrite lookup_insert_eq; eexists; (split; [reflexivity|]); done.
  - intros other Hne. destruct (crep_outcome report); [done|..];
      destruct (cn !! crep_nodeid report); by rewrite lookup_insert_ne.
Qed.

Lemma collectreport_upserts_witness :
  let cn : Store :=
    {[ "t.py" := mkRow pending None (Some "s") None None (Some "t.py") None None ]} in
  ∃ r', SessionPlugin.pytest_collectreport cn
          (mkCollectReport "t.py" rfailed "{}") !! "t.py" = Some r'
        ∧ outcome r' = failed ∧ collect r' = Some "{}" ∧ setup r' = Some "s".
Proof.
  intros cn.
  destruct (collectreport_upserts cn (mkCollectReport "t.py" rfailed "{}"))
    as (_ & Hupsert & _).
  destruct Hupsert as (r' & Hr' & Hout & Hblob & Hkeep); [done|].
  exists r'. split; [exact Hr'|]. split; [exact Hout|]. split; [exact Hblob|].
  change (cn !! crep_nodeid (mkCollectReport "t.py" rfailed "{}"))
    with (cn !! "t.py") in Hkeep.
  replace (cn !! "t.py")
    with (Some (mkRow pending None (Some "s") None None (Some "t.py") None None))
    in Hkeep by reflexivity.
  destruct Hkeep as [Hphases _]. by injection Hphases as -> _ _.
Defined.

(** X5. Results for a node id that has no row are dropped: a phase
    report, a warning and a start notice each leave the store exactly as
    it was, and none of the three ever adds or removes a row (the start
    notice also when its line number cannot be bound and it raises). *)
Theorem uncollected_results_are_dropped (cn : Store) (rep : TestReport)
    (when nodeid : string) (location : string * option Z * string) :
  (cn !! rep_nodeid rep = None →
   SessionPlugin.pytest_runtest_logreport cn rep = cn)
  ∧ (cn !! nodeid = None →
     SessionPlugin.pytest_warning_recorded cn when nodeid = cn
     ∧ (SessionPlugin.pytest_runtest_logstart cn nodeid location).1 = cn)
  ∧ dom (SessionPlugin.pytest_runtest_logreport cn rep) = dom cn
  ∧ dom (SessionPlugin.pytest_warning_recorded cn when nodeid) = dom cn
  ∧ dom (SessionPlugin.pytest_runtest_logstart cn nodeid location).1 = dom cn.
Proof.
  assert (∀ (f : Row → Row) (id : string) (m : Store),
            m !! id = None → alter f id m = m) as Halter.
  { intros f id m Hnone. apply map_eq. intros j.
    destruct (decide (id = j)) as [<- | Hne].
    - by rewrite lookup_alter_eq, Hnone.
    - by rewrite lookup_alter_ne. }
  assert (∀ (f : Row → Row) (id : string) (m : Store),
            dom (alter f id m) = dom m) as Hdom.
  { intros f id m. apply set_eq. intros j. rewrite !elem_of_dom.
    destruct (decide (id = j)) as [<- | Hne].
    - rewrite lookup_alter_eq. by rewrite fmap_is_Some.
    - by rewrite lookup_alter_ne. }
  split; [|split; [|split; [|split]]].
  - intros Hnone. unfold SessionPlugin.pytest_runtest_logreport.
    rewrite (Halter _ _ cn Hnone). case_bool_decide; [|done].
    by rewrite (Halter _ _ cn Hnone).
  - intros Hnone. split.
    + unfold SessionPlugin.pytest_warning_recorded.
      destruct (_ || _); [done | by apply Halter].
    + unfold SessionPlugin.pytest_runtest_logstart.
      destruct (from_option _ _ _); [by apply Halter | done].
  - unfold SessionPlugin.pytest_runtest_logreport.
    case_bool_decide; by rewrite !Hdom.
  - unfold SessionPlugin.pytest_warning_recorded.
    destruct (_ || _); [done | by rewrite Hdom].
  - unfold SessionPlugin.pytest_runtest_logstart.
    destruct (from_option _ _ _); [apply Hdom | done].
Qed.

Lemma uncollected_results_are_dropped_witness :
  SessionPlugin.pytest_runtest_logreport ∅
    (mkReport "t.py::test_a" "call" rfailed false "{}") = ∅.
Proof.
  destruct (uncollected_results_are_dropped ∅
              (mkReport "t.py::test_a" "call" rfailed false "{}")
              "runtest" "t.py::test_a" ("t.py", None, "test_a"))
    as (Hdrop & _).
  apply Hdrop. apply lookup_empty.
Defined.

(** ** A series of phase reports *)

Lemma logreport_lookup (cn : Store) (rep : TestReport) (id : string) :
  SessionPlugin.pytest_runtest_logreport cn rep !! id
  = if decide (rep_nodeid rep = id) then recorded rep <$> cn !! id
    else cn !! id.
Proof.
  unfold SessionPlugin.pytest_runtest_logreport, recorded.
  destruct (decide (rep_nodeid rep = id)) as [<- | Hne].
  - case_bool_decide.
    + rewrite !lookup_alter_eq. by destruct (cn !! rep_nodeid rep).
    + rewrite lookup_alter_eq. by destruct (cn !! rep_nodeid rep).
  - case_bool_decide; by rewrite !lookup_alter_ne.
Qed.

Lemma logreport_fold_lookup (reps : list TestReport) (cn : Store) (id : string) :
  foldl SessionPlugin.pytest_runtest_logreport cn reps !! id
  = (fun r => foldl (fun r rep => recorded rep r) r (reports_of id reps))
    <$> cn !! id.
Proof.
  revert cn. induction reps as [|rep reps IH]; intros cn.
  - cbn [foldl]. by destruct (cn !! id).
  - cbn [foldl]. rewrite IH, logreport_lookup. unfold reports_of.
    rewrite filter_cons. destruct (decide (rep_nodeid rep = id)) as [Heq | Hne].
    + by destruct (cn !! id).
    + done.
Qed.

Lemma recorded_outcome (rep : TestReport) (r : Row) :
  outcome (recorded rep r)
  = if SessionPlugin.overwritable (outcome r)
    then SessionPlugin.normalized rep else outcome r.
Proof.
  unfold recorded. case_bool_decide as Hwhen.
  - rewrite (proj2 (get_set_phase _ _ _ Hwhen)).
    by destruct (SessionPlugin.overwritable (outcome r)).
  - by destruct (SessionPlugin.overwritable (outcome r)).
Qed.

Lemma recorded_keeps (rep : TestReport) (r : Row) :
  collect (recorded rep r) = collect r
  ∧ filename (recorded rep r) = filename r
  ∧ lineno (recorded rep r) = lineno r
  ∧ testname (recorded rep r) = testname r.
Proof.
  unfold recorded, set_phase.
  destruct (bool_decide _), (SessionPlugin.overwritable _);
    repeat (destruct (String.eqb _ _)); done.
Qed.

Lemma recorded_phase (rep : TestReport) (r : Row) (phase : string) :
  phase ∈ ["setup"; "call"; "teardown"] →
  get_phase phase (recorded rep r)
  = if decide (rep_when rep = phase) then Some (rep_json rep)
    else get_phase phase r.
Proof.
  intros Hphase. unfold recorded.
  set (r1 := if SessionPlugin.overwritable (outcome r)
             then set_outcome (SessionPlugin.normalized rep) r else r).
  assert (get_phase phase r1 = get_phase phase r) as Hr1.
  { subst r1. by destruct (SessionPlugin.overwritable (outcome r)). }
  destruct (decide (rep_when rep = phase)) as [-> | Hne].
  - rewrite bool_decide_eq_true_2 by done.
    apply (get_set_phase _ _ _ Hphase).
  - case_bool_decide as Hwhen; [|done]. rewrite <- Hr1.
    repeat (apply elem_of_cons in Hwhen as [Hw | Hwhen]);
      [..| by apply elem_of_nil in Hwhen];
      repeat (apply elem_of_cons in Hphase as [-> | Hphase]);
      try (by apply elem_of_nil in Hphase);
      rewrite Hw in *; try done.
Qed.

Lemma normalized_not_pending (rep : TestReport) :
  SessionPlugin.normalized rep ≠ pending.
Proof.
  unfold SessionPlugin.normalized.
  destruct (rep_wasxfail rep), (rep_skipped rep), (rep_outcome rep);
    try done; by destruct (_ && _).
Qed.

Lemma merged_outcome_cons (stored o : Outcome) (phases : list Outcome) :
  o ≠ pending →
  merged_outcome stored (o :: phases)
  = merged_outcome (if SessionPlugin.overwritable stored then o else stored)
                   phases.
Proof.
  intros Hpending. unfold merged_outcome at 1.
  destruct (SessionPlugin.overwritable stored) eqn:Hstored.
  - destruct o; try done.
    + change (merged_outcome passed phases)
        with (match list_find (fun o => o ≠ passed) phases with
              | Some found => found.2
              | None => match phases with [] => passed | _ => passed end
              end).
      cbn [list_find]. rewrite decide_False by (intros Hne; by apply Hne).
      destruct (list_find _ phases) as [[i found]|]; [done|].
      by destruct phases.
  - unfold merged_outcome. by rewrite Hstored.
Qed.

Lemma fold_recorded_outcome (reps : list TestReport) (r : Row) :
  outcome (foldl (fun r rep => recorded rep r) r reps)
  = merged_outcome (outcome r) (SessionPlugin.normalized <$> reps).
Proof.
  revert r. induction reps as [|rep reps IH]; intros r.
  - unfold merged_outcome. cbn. by destruct (SessionPlugin.overwritable _).
  - cbn [foldl]. rewrite IH, recorded_outcome, fmap_cons.
    by rewrite merged_outcome_cons by apply normalized_not_pending.
Qed.

Lemma fold_recorded_keeps (reps : list TestReport) (r : Row) :
  let r' := foldl (fun r rep => recorded rep r) r reps in
  collect r' = collect r
  ∧ filename r' = filename r ∧ lineno r' = lineno r ∧ testname r' = testname r.
Proof.
  revert r. induction reps as [|rep reps IH]; intros r; [done|].
  cbn [foldl]. cbn zeta in *.
  destruct (IH (recorded rep r)) as (-> & -> & -> & ->).
  apply recorded_keeps.
Qed.

Lemma fold_recorded_phase (reps : list TestReport) (r : Row) (phase : string) :
  phase ∈ ["setup"; "call"; "teardown"] →
  get_phase phase (foldl (fun r rep => recorded rep r) r reps)
  = last_blob phase reps r.
Proof.
  intros Hphase. induction reps as [|rep reps IH] using rev_ind; [done|].
  rewrite foldl_app. cbn [foldl]. rewrite recorded_phase by done.
  unfold last_blob in *. rewrite filter_app, filter_cons, filter_nil.
  destruct (decide (rep_when rep = phase)) as [Heq | Hne].
  - by rewrite last_snoc.
  - by rewrite app_nil_r.
Qed.

(** X6. After any series of phase reports, the outcome of a row is the
    one it had if that was neither pending nor passed; otherwise it is
    the normalized outcome of the first report about its node id that is
    not passed, and passed when all of them passed.  Its collection blob
    and its location are the ones it had. *)
Theorem reports_settle_outcome (cn : Store) (reps : list TestReport)
    (id : string) (r : Row) :
  cn !! id = Some r →
  ∃ r', foldl SessionPlugin.pytest_runtest_logreport cn reps !! id = Some r'
        ∧ outcome r'
          = merged_outcome (outcome r)
              (SessionPlugin.normalized <$> reports_of id reps)
        ∧ collect r' = collect r
        ∧ (filename r', lineno r', testname r')
          = (filename r, lineno r, testname r).
Proof.
  intros Hrow. rewrite logreport_fold_lookup, Hrow. eexists.
  split; [reflexivity|]. split; [apply fold_recorded_outcome|].
  destruct (fold_recorded_keeps (reports_of id reps) r) as (-> & -> & -> & ->).
  done.
Qed.

Lemma reports_settle_outcome_witness :
  ∃ r', foldl SessionPlugin.pytest_runtest_logreport
          {[ "t.py::a" := pending_row ]}
          [mkReport "t.py::a" "setup" rpassed false "s";
           mkReport "t.py::a" "call" rfailed false "c";
           mkReport "t.py::a" "teardown" rfailed false "t"] !! "t.py::a"
        = Some r'
        ∧ outcome r' = failed.
Proof.
  destruct (reports_settle_outcome {[ "t.py::a" := pending_row ]}
              [mkReport "t.py::a" "setup" rpassed false "s";
               mkReport "t.py::a" "call" rfailed false "c";
               mkReport "t.py::a" "teardown" rfailed false "t"]
              "t.py::a" pending_row)
    as (r' & Hr' & Hout & _); [reflexivity|].
  exists r'. split; [exact Hr'|]. rewrite Hout. reflexivity.
Defined.

(** X7. A warning recorded while a test runs replaces whatever outcome
    its row had, a failure included, and no later phase report changes
    it: the row is stored with outcome warnings. *)
Theorem warning_overrides_and_sticks (cn : Store) (id : string) (r : Row)
    (reps : list TestReport) :
  cn !! id = Some r → id ≠ EmptyString →
  ∃ r', foldl SessionPlugin.pytest_runtest_logreport
          (SessionPlugin.pytest_warning_recorded cn "runtest" id) reps !! id
        = Some r'
        ∧ outcome r' = warnings.
Proof.
  intros Hrow Hid. rewrite logreport_fold_lookup.
  unfold SessionPlugin.pytest_warning_recorded.
  assert (String.eqb id EmptyString = false) as -> by by apply String.eqb_neq.
  cbn [orb negb]. change (String.eqb "runtest" "runtest") with true. cbn [negb].
  rewrite lookup_alter_eq, Hrow. eexists. split; [reflexivity|].
  rewrite fold_recorded_outcome. reflexivity.
Qed.

Lemma warning_overrides_and_sticks_witness :
  ∃ r', foldl SessionPlugin.pytest_runtest_logreport
          (SessionPlugin.pytest_warning_recorded
             {[ "t.py::a" := set_outcome failed pending_row ]} "runtest" "t.py::a")
          [mkReport "t.py::a" "teardown" rfailed false "t"] !! "t.py::a"
        = Some r'
        ∧ outcome r' = warnings.
Proof.
  apply (warning_overrides_and_sticks
           {[ "t.py::a" := set_outcome failed pending_row ]} "t.py::a"
           (set_outcome failed pending_row)
           [mkReport "t.py::a" "teardown" rfailed false "t"]);
    [reflexivity | discriminate].
Defined.

(** ** The rule on collection blobs *)

Lemma collect_ok_text (r : Row) :
  collect_ok r
  ↔ collect r = None ∨ outcome_text (outcome r) ∈ ["failed"; "skipped"].
Proof.
  unfold collect_ok. split.
  - intros Hok. destruct (collect r) as [blob|]; [right | by left].
    destruct Hok as [-> | ->]; [done | |]; cbn.
    + apply elem_of_cons; by left.
    + apply elem_of_cons; right; apply elem_of_cons; by left.
  - intros [Hnone | Hin] Hsome; [done|].
    destruct (outcome r); cbn in Hin; auto;
      repeat (apply elem_of_cons in Hin as [Hin | Hin]; [discriminate Hin|]);
      by apply elem_of_nil in Hin.
Qed.

(** X8. Every row with a collection blob is failed or skipped: the rule
    holds in a new store, and collection reports, phase reports, start
    notices and the bulk insert of collected ids all keep it. *)
Theorem recorder_keeps_collect_rule (cn : Store) :
  store_ok cn →
  store_ok init_db.1
  ∧ (∀ report, store_ok (SessionPlugin.pytest_collectreport cn report))
  ∧ (∀ rep, store_ok (SessionPlugin.pytest_runtest_logreport cn rep))
  ∧ (∀ nodeid location,
       store_ok (SessionPlugin.pytest_runtest_logstart cn nodeid location).1)
  ∧ (∀ items,
       store_ok (SessionPlugin.pytest_collection_modifyitems cn items).1).
Proof.
  intros Hok. split; [|split; [|split; [|split]]].
  - intros id r Hrow. cbn in Hrow. by rewrite lookup_empty in Hrow.
  - intros report id r.
    unfold SessionPlugin.pytest_collectreport, SessionPlugin.upsert_collect.
    destruct (crep_outcome report); [apply Hok|..];
      destruct (cn !! crep_nodeid report);
      (destruct (decide (crep_nodeid report = id)) as [<- | Hne];
       [rewrite lookup_insert_eq; intros [= <-] _; auto
       | rewrite lookup_insert_ne by done; apply Hok]).
  - intros rep id r. rewrite logreport_lookup.
    destruct (decide (rep_nodeid rep = id)) as [_ | _]; [|apply Hok].
    destruct (cn !! id) as [r0|] eqn:Hrow; [|done]. intros [= <-].
    specialize (Hok id r0 Hrow). unfold collect_ok in *.
    destruct (recorded_keeps rep r0) as (-> & _). intros Hblob.
    rewrite recorded_outcome.
    destruct (Hok Hblob) as [Hout | Hout]; rewrite Hout; cbn; auto.
  - intros nodeid location id r. unfold SessionPlugin.pytest_runtest_logstart.
    destruct (from_option _ _ _); [|apply Hok]. cbn [fst].
    destruct (decide (nodeid = id)) as [<- | Hne].
    + rewrite lookup_alter_eq. destruct (cn !! nodeid) as [r0|] eqn:Hrow; [|done].
      intros [= <-]. exact (Hok nodeid r0 Hrow).
    + rewrite lookup_alter_ne by done. apply Hok.
  - intros items. unfold SessionPlugin.pytest_collection_modifyitems.
    generalize (map nodeid items). intros ids. revert cn Hok.
    induction ids as [|id ids IH]; intros cn Hok; [done|].
    cbn [SessionPlugin.executemany_insert]. unfold SessionPlugin.insert_pending.
    destruct (cn !! id) eqn:Hrow; [exact Hok|]. apply IH.
    intros id' r. destruct (decide (id = id')) as [<- | Hne].
    + rewrite lookup_insert_eq. intros [= <-] Hblob. by destruct Hblob.
    + rewrite lookup_insert_ne by done. apply Hok.
Qed.

Lemma recorder_keeps_collect_rule_witness :
  store_ok (SessionPlugin.pytest_collectreport ∅
              (mkCollectReport "t.py" rskipped "{}")).
Proof.
  destruct (recorder_keeps_collect_rule ∅) as (_ & Hcollect & _).
  - intros id r Hrow. by rewrite lookup_empty in Hrow.
  - apply Hcollect.
Defined.

Lemma cons_head_length (c : ascii) (fields : list string) :
  fields ≠ [] → length (cons_head c fields) = length fields.
Proof. by destruct fields. Qed.

Lemma like_colons_split (s : string) :
  like_colons s = true ↔ (2 ≤ length (split_colons s))%nat.
Proof.
  induction s as [| c | c c' r IHr IHcr] using string_ind2;
    [cbn; lia | cbn; lia |].
  rewrite split_colons_step.
  change (like_colons (String c (String c' r)))
    with ((Ascii.eqb c ":" && Ascii.eqb c' ":") || like_colons (String c' r)).
  destruct (Ascii.eqb c ":" && Ascii.eqb c' ":") eqn:Hsep.
  - cbn [orb length]. pose proof (split_colons_nonempty r) as Hne.
    destruct (split_colons r); [done|]. cbn [length]. split; [lia | done].
  - cbn [orb]. rewrite cons_head_length by apply split_colons_nonempty.
    exact IHcr.
Qed.

(** ** What the skipper may drop *)

Lemma mapM_length {A B} (f : A → result B) (l : list A) (ys : list B) :
  mapM f l = Ok ys → length ys = length l.
Proof.
  revert ys. induction l as [|x l IH]; intros ys; cbn [mapM].
  - by intros [= <-].
  - destruct (f x) as [y|]; [|done]. cbn [bind].
    destruct (mapM f l) as [ys'|]; [|done]. cbn [bind].
    intros [= <-]. cbn [length]. by rewrite (IH ys').
Qed.

Lemma concat_map_submseteq {A B} (f : A → list B) (l1 l2 : list A) :
  l1 ⊆+ l2 → concat (map f l1) ⊆+ concat (map f l2).
Proof.
  induction 1 as [|x l1 l2 _ IH|x y l|x l1 l2 _ IH|l1 l2 l3 _ IH1 _ IH2];
    cbn [map concat].
  - done.
  - by apply submseteq_app.
  - rewrite !app_assoc. apply submseteq_app; [|done].
    apply Permutation_submseteq, Permutation_app_comm.
  - by apply submseteq_app_r_inv_l || (etrans; [exact IH|]; apply submseteq_inserts_l; done).
  - by etrans.
Qed.

Lemma concat_map_perm {A B} (f : A → list B) (l1 l2 : list A) :
  l1 ≡ₚ l2 → concat (map f l1) ≡ₚ concat (map f l2).
Proof.
  induction 1 as [|x l1 l2 _ IH|x y l|l1 l2 l3 _ IH1 _ IH2]; cbn [map concat].
  - done.
  - by rewrite IH.
  - rewrite !app_assoc. by rewrite (Permutation_app_comm (f y) (f x)).
  - by etrans.
Qed.

Section faithful.
Variable self : SkipCollection.t.
Variable isinitpath : Path → bool.

Section report.
Context {A : Type}.

Lemma sort_by_trie_inv (nodes sorted : list (Node * A)) :
  SkipCollection.sort_by_trie self nodes = Ok sorted → sorted ≡ₚ nodes.
Proof.
  unfold SkipCollection.sort_by_trie.
  destruct (mapM _ nodes) as [keys|] eqn:Hkeys; [|done]. cbn [bind].
  intros [= <-]. apply mapM_length in Hkeys.
  rewrite py_sorted_perm. by rewrite snd_zip by lia.
Qed.

Lemma wrap_report_inv (st st1 : SkipCollection.State) (k : Kind) (p : Path)
    (nodes kept : list (Node * A)) :
  registered_ok st →
  SkipCollection.wrap_report self isinitpath st k p nodes = Ok (kept, st1) →
  registered_ok st1
  ∧ (SkipCollection.found_failure st = true
     → SkipCollection.found_failure st1 = true)
  ∧ kept ⊆+ nodes
  ∧ (SkipCollection.found_failure st1 = false →
     kept ≡ₚ nodes
     ∧ SkipCollection.skipped_paths st1 = SkipCollection.skipped_paths st).
Proof.
  intros Hreg. unfold SkipCollection.wrap_report.
  assert (∀ kept' st',
            (kept', st') = (kept, st1) → kept' = nodes → st' = st →
            registered_ok st1
            ∧ (SkipCollection.found_failure st = true
               → SkipCollection.found_failure st1 = true)
            ∧ kept ⊆+ nodes
            ∧ (SkipCollection.found_failure st1 = false →
               kept ≡ₚ nodes
               ∧ SkipCollection.skipped_paths st1
                 = SkipCollection.skipped_paths st)) as Hsame.
  { intros kept' st' [= <- <-] -> ->. done. }
  destruct (_ || _).
  - destruct (SkipCollection.sort_by_trie self nodes) as [sorted|] eqn:Hsort;
      [|done].
    cbn [bind]. intros [= <- <-]. apply sort_by_trie_inv in Hsort.
    split; [done|]. split; [done|]. split; [by apply Permutation_submseteq|].
    done.
  - destruct (bool_decide (k = KFile)); [|intros [= Heq]; by eapply Hsame].
    destruct (IdTrie.__contains__ _ _) as [b|]; [|done]. cbn [bind].
    destruct b; [|intros [= Heq]; by eapply Hsame].
    destruct (negb (SkipCollection.found_failure st) && _);
      [intros [= Heq]; by eapply Hsame|].
    intros [= <- <-]. unfold registered_ok in *.
    destruct (SkipCollection.found_failure st) eqn:Hff; cbn.
    + split; [congruence|]. split; [done|].
      split; [apply sublist_submseteq, sublist_filter|]. congruence.
    + split; [done|]. split; [done|].
      split; [apply sublist_submseteq, sublist_filter|]. done.
Qed.

Lemma make_collect_report_inv (st st1 : SkipCollection.State) (k : Kind)
    (p : Path) (collected kept : list (Node * A)) :
  registered_ok st →
  SkipCollection.pytest_make_collect_report self isinitpath st k p collected
  = Ok (kept, st1) →
  registered_ok st1
  ∧ (SkipCollection.found_failure st = true
     → SkipCollection.found_failure st1 = true)
  ∧ kept ⊆+ collected
  ∧ (SkipCollection.found_failure st1 = false →
     kept ≡ₚ collected
     ∧ SkipCollection.skipped_paths st1 = SkipCollection.skipped_paths st).
Proof.
  intros Hreg. unfold SkipCollection.pytest_make_collect_report.
  destruct (SkipCollection.skipcollected st) eqn:Hsc;
    [|cbn [bind snd fst default]; by apply wrap_report_inv].
  unfold SkipCollection.skipcollected_report.
  destruct (bool_decide (k = KFile));
    [|cbn [bind snd fst default]; by apply wrap_report_inv].
  destruct (IdTrie.__contains__ _ _) as [b|]; [|done]. cbn [bind].
  destruct b; cbn [negb bind snd fst default]; [by apply wrap_report_inv|].
  intros Hwrap. apply wrap_report_inv in Hwrap as (Hreg1 & Hmono & Hsub & _).
  - unfold registered_ok in *. rewrite Hsc in Hreg.
    cbn [SkipCollection.found_failure] in Hmono.
    split; [done|]. split; [done|].
    split; [etrans; [exact Hsub|]; apply submseteq_nil_l|].
    intros Hff. rewrite Hmono in Hff by done. done.
  - unfold registered_ok in *. by cbn.
Qed.

End report.

Lemma run_all_faithful
    (nodes : list (Node * (SkipCollection.State
                           → result (list Item * SkipCollection.State))))
    (st st' : SkipCollection.State) (items : list Item) :
  Forall faithful_child nodes →
  registered_ok st → SkipCollection.run_all st nodes = Ok (items, st') →
  registered_ok st'
  ∧ (SkipCollection.found_failure st = true
     → SkipCollection.found_failure st' = true)
  ∧ items ⊆+ concat (map (fun x => leaves x.1) nodes)
  ∧ (SkipCollection.found_failure st' = false →
     items ≡ₚ concat (map (fun x => leaves x.1) nodes)
     ∧ SkipCollection.skipped_paths st' = SkipCollection.skipped_paths st).
Proof.
  intros Hall. revert st items.
  induction Hall as [|x nodes Hx Hall IH]; intros st items Hreg.
  - cbn. by intros [= <- <-].
  - cbn [SkipCollection.run_all map concat].
    destruct (x.2 st) as [[items1 st1]|] eqn:Hrun1; [|done]. cbn [bind snd fst].
    destruct (SkipCollection.run_all st1 nodes) as [[items2 st2]|] eqn:Hrun2;
      [|done].
    cbn [bind snd fst]. intros [= <- <-].
    destruct (Hx st items1 st1 Hreg Hrun1) as (Hreg1 & Hmono1 & Hsub1 & Hfull1).
    destruct (IH st1 items2 Hreg1 Hrun2) as (Hreg2 & Hmono2 & Hsub2 & Hfull2).
    split; [done|]. split; [auto|]. split; [by apply submseteq_app|].
    intros Hff. destruct (Hfull2 Hff) as [Hperm2 Hskip2].
    assert (SkipCollection.found_failure st1 = false) as Hff1.
    { destruct (SkipCollection.found_failure st1); [|done].
      by rewrite Hmono2 in Hff. }
    destruct (Hfull1 Hff1) as [Hperm1 Hskip1].
    split; [by rewrite Hperm1, Hperm2 | congruence].
Qed.

Lemma genitems_faithful (n : Node) :
  faithful_child (n, SkipCollection.genitems self isinitpath n).
Proof.
  induction n as [it | k id p result IH] using Node_nested_ind;
    intros st items st' Hreg; cbn [fst snd].
  - cbn. intros [= <- <-]. done.
  - rewrite genitems_collect.
    set (collected :=
           map (fun c => (c, SkipCollection.genitems self isinitpath c)) result).
    destruct (SkipCollection.pytest_make_collect_report _ _ _ _ _ _)
      as [[kept st1]|] eqn:Hreport; [|done].
    cbn [bind snd fst]. intros Hrun.
    apply make_collect_report_inv in Hreport
      as (Hreg1 & Hmono1 & Hsub & Hfull); [|done].
    assert (Forall faithful_child collected) as Hcollected.
    { subst collected. apply Forall_forall. intros x Hin.
      apply list_elem_of_fmap in Hin as (c & -> & Hc).
      rewrite Forall_forall in IH. by apply IH. }
    assert (Forall faithful_child kept) as Hkept.
    { apply Forall_forall. intros x Hin. rewrite Forall_forall in Hcollected.
      apply Hcollected. by eapply elem_of_submseteq. }
    apply run_all_faithful in Hrun as (Hreg2 & Hmono2 & Hitems & Hfull2);
      [|done..].
    assert (concat (map (fun x => leaves x.1) collected)
            = leaves (Collect k id p result)) as Hleaves.
    { subst collected. cbn [leaves]. by rewrite map_map. }
    rewrite <- Hleaves.
    split; [done|]. split; [auto|].
    split; [etrans; [exact Hitems|]; by apply concat_map_submseteq|].
    intros Hff. destruct (Hfull2 Hff) as [Hperm2 Hskip2].
    assert (SkipCollection.found_failure st1 = false) as Hff1.
    { destruct (SkipCollection.found_failure st1); [|done].
      by rewrite Hmono2 in Hff. }
    destruct (Hfull Hff1) as [Hperm1 Hskip1].
    split; [|congruence].
    rewrite Hperm2. by apply concat_map_perm.
Qed.

End faithful.

(** X12. The skipper never invents an item: whatever the reference
    holds and whatever the tree is, when the traversal with the skipper
    returns, the items it yields are items of the host's own collection,
    each at most as often as the host yields it; and the second plugin
    is registered exactly when the failure flag is set. *)
Theorem skipper_yields_collected_items_only (self : SkipCollection.t)
    (isinitpath : Path → bool) (n : Node) (items : list Item)
    (st' : SkipCollection.State) :
  SkipCollection.genitems self isinitpath n SkipCollection.initial
  = Ok (items, st') →
  items ⊆+ leaves n
  ∧ SkipCollection.skipcollected st' = SkipCollection.found_failure st'.
Proof.
  intros Hrun.
  destruct (genitems_faithful self isinitpath n SkipCollection.initial
              items st') as (Hreg & _ & Hsub & _); done.
Qed.

Lemma skipper_yields_collected_items_only_witness :
  let root := ["/"; "proj"] in
  let self := SkipCollection.mk root (IdTrie.__init__ root ["a.py::t"]) in
  let a := Leaf (mkItem "a.py::t" ["/"; "proj"; "a.py"] 0) in
  let b := Leaf (mkItem "b.py::u" ["/"; "proj"; "b.py"] 0) in
  let n := Collect KSession EmptyString root
             [Collect KFile "b.py" ["/"; "proj"; "b.py"] [b];
              Collect KFile "a.py" ["/"; "proj"; "a.py"] [a]] in
  ∃ items st',
    SkipCollection.genitems self (fun _ => false) n SkipCollection.initial
    = Ok (items, st')
    ∧ items ⊆+ leaves n.
Proof.
  intros root self a b n. eexists _, _. split; [vm_compute; reflexivity|].
  eapply (skipper_yields_collected_items_only self (fun _ => false) n).
  vm_compute. reflexivity.
Defined.

(** X13. Nothing is skipped before a match is found: when the traversal
    ends with the failure flag still unset - no collected file under a
    stored path held a node with a stored id - every item of the host's
    collection was yielded, files only reordered, and no path was
    counted as skipped. *)
Theorem skipper_full_collection_without_match (self : SkipCollection.t)
    (isinitpath : Path → bool) (n : Node) (items : list Item)
    (st' : SkipCollection.State) :
  SkipCollection.genitems self isinitpath n SkipCollection.initial
  = Ok (items, st') →
  SkipCollection.found_failure st' = false →
  items ≡ₚ leaves n ∧ SkipCollection.skipped_paths st' = 0%nat.
Proof.
  intros Hrun Hff.
  destruct (genitems_faithful self isinitpath n SkipCollection.initial
              items st') as (_ & _ & _ & Hfull); [done..|].
  by apply Hfull.
Qed.

Lemma skipper_full_collection_without_match_witness :
  let root := ["/"; "proj"] in
  let self := SkipCollection.mk root (IdTrie.__init__ root ["gone.py::t"]) in
  let a := Leaf (mkItem "a.py::t" ["/"; "proj"; "a.py"] 0) in
  let n := Collect KSession EmptyString root
             [Collect KFile "a.py" ["/"; "proj"; "a.py"] [a]] in
  ∃ items st',
    SkipCollection.genitems self (fun _ => false) n SkipCollection.initial
    = Ok (items, st')
    ∧ items ≡ₚ leaves n.
Proof.
  intros root self a n. eexists _, _. split; [vm_compute; reflexivity|].
  eapply (skipper_full_collection_without_match self (fun _ => false) n);
    vm_compute; reflexivity.
Defined.

(** ** Selection in collection order, and the plugin's construction *)

(** X14. Rerun selection is a filter in collection order: with a
    non-empty category set, when some collected item is requested or the
    fallback is off, the items left selected are exactly the collected
    items whose reference outcome (new for an id the reference does not
    have) is requested, in the order they were collected, and the
    deselection hook receives the others, in order as well. *)
Theorem rerun_keeps_requested_in_order (tags : gset string) (flag : bool)
    (main reference : Store) (items : list Item) :
  tags ≠ ∅ →
  (∀ it, it ∈ items →
     is_Some (main !! nodeid it) ∨ is_Some (reference !! nodeid it)) →
  let wanted := fun it => reference_outcome reference (nodeid it) ∈ tags in
  filter wanted items ≠ [] ∨ flag = false →
  (RerunPlugin.pytest_collection_modifyitems
     (RerunPlugin.mk (Some tags) flag) main reference items).2
  = Ok (RerunPlugin.mkSelection
          (filter wanted items)
          (Some (filter (fun it => ¬ wanted it) items))).
Proof.
  intros Htags Hrows wanted Hsel.
  unfold RerunPlugin.pytest_collection_modifyitems.
  assert (RerunPlugin.rerun_falsy (RerunPlugin.mk (Some tags) flag) = false)
    as ->.
  { unfold RerunPlugin.rerun_falsy. by apply bool_decide_eq_false_2. }
  set (main1 := RerunPlugin.merge_reference main reference).
  assert (∀ it, it ∈ items → is_Some (main1 !! nodeid it)) as Hmain1.
  { intros it Hin. subst main1. rewrite merge_reference_lookup.
    destruct (Hrows it Hin) as [[r ->] | [rr ->]]; [eauto|].
    destruct (main !! nodeid it); eauto. }
  change (RerunPlugin.rerun_tags (RerunPlugin.mk (Some tags) flag)) with tags.
  rewrite (split_items_filter _ _
             (fun it => reference_outcome reference (nodeid it))).
  2:{ intros it Hin. rewrite rerun_prev_lookup.
      by destruct (Hmain1 it Hin) as [r ->]. }
  cbn [RerunPlugin.all_if_none]. fold wanted.
  assert (negb (bool_decide (filter wanted items = [])) || negb flag = true)
    as ->.
  { destruct Hsel as [Hne | ->]; [|apply orb_true_r].
    by rewrite bool_decide_eq_false_2. }
  destruct (updates_spec main1 reference (filter (fun it => ¬ wanted it) items))
    as (us & Hus & Hspec & _).
  { intros it [_ Hin]%list_elem_of_filter. by apply Hmain1. }
  unfold wanted in Hus. rewrite Hus.
  destruct (executemany_update_spec reference us main1 Hspec) as (cn' & -> & _).
  done.
Qed.

Lemma rerun_keeps_requested_in_order_witness :
  let a := mkItem "t.py::a" ["t.py"] 0 in
  let b := mkItem "t.py::b" ["t.py"] 0 in
  let c := mkItem "t.py::c" ["t.py"] 0 in
  let reference : Store :=
    {[ "t.py::a" := set_outcome failed pending_row;
       "t.py::b" := set_outcome passed pending_row;
       "t.py::c" := set_outcome failed pending_row ]} in
  (RerunPlugin.pytest_collection_modifyitems
     (RerunPlugin.mk (Some {["failed"]}) true) ∅ reference [c; b; a]).2
  = Ok (RerunPlugin.mkSelection [c; a] (Some [b])).
Proof.
  intros a b c reference.
  rewrite (rerun_keeps_requested_in_order {["failed"]} true ∅ reference [c; b; a]).
  - vm_compute. reflexivity.
  - vm_compute. discriminate.
  - intros it Hin. right. vm_compute in Hin.
    repeat (apply elem_of_cons in Hin as [-> | Hin]; [vm_compute; eauto|]).
    by apply elem_of_nil in Hin.
  - left. vm_compute. discriminate.
Defined.

(** X15. Building the rerun plugin never fails: the assertions of the
    skipper are guarded by its caller and its [Empty] is always caught.
    The plugin keeps the fallback flag it was given, and a skipper is
    registered only for a non-empty category set without new, when the
    reference holds a row with a requested outcome whose file exists;
    its trie is then built from the ids of all such rows. *)
Theorem rerun_init_never_raises (rootpath : Path) (is_file : Path → bool)
    (reference : Store) (fields : option (list string)) (flag : bool) :
  ∃ self skip,
    RerunPlugin.__init__ rootpath is_file reference fields flag
    = Ok (self, skip)
    ∧ RerunPlugin.all_if_none self = flag
    ∧ ∀ s, skip = Some s →
        ∃ tags : gset string,
          RerunPlugin.rerun self = Some tags
          ∧ tags ≠ ∅ ∧ ("new" ∉ tags)
          ∧ (∃ id r, reference !! id = Some r
                     ∧ outcome_text (outcome r) ∈ tags
                     ∧ is_file (SkipCollection.joinpath rootpath
                                  (hd EmptyString (split_colons id))) = true)
          ∧ SkipCollection.trie s
            = IdTrie.__init__ rootpath
                (SkipCollection.selected_nodeids reference tags).
Proof.
  unfold RerunPlugin.__init__. destruct fields as [fields|].
  2:{ eexists _, _. split; [reflexivity|]. split; [done|]. intros s [=]. }
  set (tags := list_to_set fields : gset string).
  destruct (negb (bool_decide (tags = ∅)) && negb (bool_decide ("new" ∈ tags)))
    eqn:Hguard.
  2:{ eexists _, _. split; [reflexivity|]. split; [done|]. intros s [=]. }
  apply andb_true_iff in Hguard as [Hne Hnew].
  apply negb_true_iff, bool_decide_eq_false in Hne, Hnew.
  destruct (SkipCollection.__init__ rootpath is_file reference tags)
    as [skip | e] eqn:Hinit.
  - eexists _, _. split; [reflexivity|]. split; [done|]. intros s [= <-].
    exists tags. split; [done|]. split; [done|]. split; [done|].
    destruct (skip_init_inv _ _ _ _ _ Hinit) as (_ & _ & Htrie).
    split; [|done]. unfold SkipCollection.__init__ in Hinit.
    rewrite !bool_decide_eq_false_2 in Hinit by done.
    destruct (existsb _ _) eqn:Hfile in Hinit; [|done].
    apply existsb_exists in Hfile as (path & Hin & Hfile).
    apply list_elem_of_In, list_elem_of_fmap in Hin as (id & -> & Hid).
    apply selected_nodeids_spec in Hid as (r & Hrow & Hout). eauto 6.
  - assert (e = Empty) as ->.
    { unfold SkipCollection.__init__ in Hinit.
      rewrite !bool_decide_eq_false_2 in Hinit by done.
      destruct (negb (existsb _ _)) in Hinit; [congruence|].
      destruct (negb (IdTrie.__bool__ _)) in Hinit; congruence. }
    eexists _, _. split; [reflexivity|]. split; [done|]. intros s [=].
Qed.

(** X16. A run without history keeps everything: when the reference has
    no row with a requested outcome, new is not requested and the
    fallback is on, the plugin is built without a skipper and with no
    category set, and its selection hook then leaves every collected
    list as it is and calls no deselection hook. *)
Theorem no_requested_history_runs_everything (rootpath : Path)
    (is_file : Path → bool) (reference : Store) (fields : list string) :
  (∀ id r, reference !! id = Some r →
           outcome_text (outcome r) ∉ (list_to_set fields : gset string)) →
  "new" ∉ fields →
  ∃ self,
    RerunPlugin.__init__ rootpath is_file reference (Some fields) true
    = Ok (self, None)
    ∧ ∀ main items,
        RerunPlugin.pytest_collection_modifyitems self main reference items
        = (RerunPlugin.merge_reference main reference,
           Ok (RerunPlugin.mkSelection items None)).
Proof.
  intros Hnone Hnew. unfold RerunPlugin.__init__.
  set (tags := list_to_set fields : gset string).
  assert ("new" ∉ tags) as Hnew' by (subst tags; by rewrite elem_of_list_to_set).
  rewrite (bool_decide_eq_false_2 ("new" ∈ tags)) by done.
  destruct (decide (tags = ∅)) as [Hempty | Hne].
  - rewrite (bool_decide_eq_true_2 _ Hempty). cbn [negb andb].
    eexists. split; [reflexivity|]. intros main items.
    unfold RerunPlugin.pytest_collection_modifyitems, RerunPlugin.rerun_falsy.
    cbn [RerunPlugin.rerun]. by rewrite (bool_decide_eq_true_2 _ Hempty).
  - rewrite (bool_decide_eq_false_2 _ Hne). cbn [negb andb].
    assert (SkipCollection.selected_nodeids reference tags = []) as Hsel.
    { destruct (SkipCollection.selected_nodeids reference tags) as [|id ids] eqn:Hids;
        [done|].
      assert (id ∈ SkipCollection.selected_nodeids reference tags) as Hin
        by (rewrite Hids; by left).
      apply selected_nodeids_spec in Hin as (r & Hrow & Hout).
      by destruct (Hnone id r Hrow). }
    unfold SkipCollection.__init__.
    rewrite !bool_decide_eq_false_2 by done. rewrite Hsel. cbn.
    eexists. split; [reflexivity|]. done.
Qed.

Lemma no_requested_history_runs_everything_witness :
  ∃ self,
    RerunPlugin.__init__ ["/"; "proj"] (fun _ => true) ∅
      (Some ["failed"; "error"]) true
    = Ok (self, None)
    ∧ (RerunPlugin.pytest_collection_modifyitems self ∅ ∅
         [mkItem "t.py::a" ["t.py"] 0]).2
      = Ok (RerunPlugin.mkSelection [mkItem "t.py::a" ["t.py"] 0] None).
Proof.
  destruct (no_requested_history_runs_everything ["/"; "proj"] (fun _ => true)
              ∅ ["failed"; "error"]) as (self & Hinit & Hkeep).
  - intros id r Hrow. by rewrite lookup_empty in Hrow.
  - intros Hin. repeat (apply elem_of_cons in Hin as [Hin | Hin]; [discriminate Hin|]).
    by apply elem_of_nil in Hin.
  - exists self. split; [exact Hinit|]. by rewrite Hkeep.
Defined.

(** ** Reordering twice, and items without a row *)

Lemma py_sorted_fixed {A} (le : A → A → bool) (l : list A) :
  StronglySorted (fun a b => le a b = true) l → py_sorted le l = l.
Proof.
  induction 1 as [|x l Hsorted IH Hall]; [done|].
  cbn [py_sorted]. rewrite IH. destruct l as [|y l']; [done|].
  cbn [insert_sorted]. apply Forall_cons in Hall as [-> _]. done.
Qed.

(** X17. Reordering is idempotent: when every collected item has a live
    or a reference row, the hook returns, and running it again on the
    list it returned gives that list back. *)
Theorem reorder_is_idempotent (self : ReorderPlugin.t)
    (main reference : Store) (items : list Item) :
  (∀ it, it ∈ items →
     is_Some (main !! nodeid it) ∨ is_Some (reference !! nodeid it)) →
  ∃ sorted,
    ReorderPlugin.pytest_collection_modifyitems self main reference items
    = Ok sorted
    ∧ ReorderPlugin.pytest_collection_modifyitems self main reference sorted
      = Ok sorted.
Proof.
  intros Hrows. eexists. split; [by apply reorder_sorted_by_key|].
  rewrite reorder_sorted_by_key.
  - f_equal. apply py_sorted_fixed, py_sorted_sorted.
    + intros a b. apply key_le_total.
    + intros a b c. apply key_le_trans.
  - intros it Hin. apply Hrows. by rewrite py_sorted_perm in Hin.
Qed.

Lemma reorder_is_idempotent_witness :
  let a := mkItem "t.py::a" ["t.py"] 1 in
  let b := mkItem "u.py::b" ["u.py"] 2 in
  let reference : Store :=
    {[ "t.py::a" := set_outcome failed pending_row;
       "u.py::b" := set_outcome passed pending_row ]} in
  ∃ sorted,
    ReorderPlugin.pytest_collection_modifyitems
      (ReorderPlugin.configure ["failed"]) ∅ reference [b; a] = Ok sorted
    ∧ ReorderPlugin.pytest_collection_modifyitems
        (ReorderPlugin.configure ["failed"]) ∅ reference sorted = Ok sorted.
Proof.
  intros a b reference.
  apply (reorder_is_idempotent (ReorderPlugin.configure ["failed"]) ∅
           reference [b; a]).
  intros it Hin. right.
  repeat (apply elem_of_cons in Hin as [-> | Hin]; [vm_compute; eauto|]).
  by apply elem_of_nil in Hin.
Defined.

Lemma mapM_raise {A B} (f : A → result B) (e : exn) (l : list A) (x : A) :
  (∀ y e', y ∈ l → f y = Raise e' → e' = e) →
  x ∈ l → f x = Raise e → mapM f l = Raise e.
Proof.
  intros Honly Hin Hx. induction l as [|y l IH]; [by apply elem_of_nil in Hin|].
  cbn [mapM]. destruct (f y) as [b|e'] eqn:Hy.
  - cbn [bind]. rewrite IH; [done| |].
    + intros z e' Hz. apply Honly. by right.
    + apply elem_of_cons in Hin as [-> | Hin]; [congruence | done].
  - cbn [bind]. f_equal. apply (Honly y); [by left | done].
Qed.

Lemma split_items_raise (p : gmap string string) (tags : gset string)
    (items : list Item) (it : Item) :
  it ∈ items → p !! nodeid it = None →
  RerunPlugin.split_items p tags items = Raise KeyError.
Proof.
  intros Hin Hnone. induction items as [|it' items IH];
    [by apply elem_of_nil in Hin|].
  cbn [RerunPlugin.split_items]. unfold RerunPlugin.prev_get.
  destruct (p !! nodeid it') as [o|] eqn:Hrow; [|done]. cbn [bind].
  rewrite IH; [done|].
  apply elem_of_cons in Hin as [-> | Hin]; [congruence | done].
Qed.

(** X18. An item without a row is a key error: when a collected item
    has neither a live nor a reference row, reordering raises
    [KeyError], and so does rerun selection with a category set, after
    it has merged the reference into the live store. *)
Theorem unrecorded_item_raises_key_error (order : ReorderPlugin.t)
    (rerun : RerunPlugin.t) (main reference : Store) (items : list Item)
    (it : Item) :
  it ∈ items → main !! nodeid it = None → reference !! nodeid it = None →
  ReorderPlugin.pytest_collection_modifyitems order main reference items
  = Raise KeyError
  ∧ (RerunPlugin.rerun_falsy rerun = false →
     RerunPlugin.pytest_collection_modifyitems rerun main reference items
     = (RerunPlugin.merge_reference main reference, Raise KeyError)).
Proof.
  intros Hin Hmain Href. split.
  - unfold ReorderPlugin.pytest_collection_modifyitems.
    rewrite (mapM_raise _ KeyError items it); [done| |done|].
    + intros y e' _. unfold ReorderPlugin.key.
      destruct (_ !! nodeid y); [done | congruence].
    + unfold ReorderPlugin.key. rewrite reorder_prev_lookup.
      rewrite lookup_union, Hmain, Href. done.
  - intros Hfalsy. unfold RerunPlugin.pytest_collection_modifyitems.
    rewrite Hfalsy. rewrite (split_items_raise _ _ items it); [done..|].
    rewrite rerun_prev_lookup, merge_reference_lookup, Hmain, Href. done.
Qed.

Lemma unrecorded_item_raises_key_error_witness :
  ReorderPlugin.pytest_collection_modifyitems
    (ReorderPlugin.configure ["failed"]) ∅ ∅ [mkItem "t.py::a" ["t.py"] 0]
  = Raise KeyError.
Proof.
  apply (unrecorded_item_raises_key_error
           (ReorderPlugin.configure ["failed"])
           (RerunPlugin.mk None true) ∅ ∅
           [mkItem "t.py::a" ["t.py"] 0] (mkItem "t.py::a" ["t.py"] 0));
    [by left | reflexivity | reflexivity].
Defined.

(** ** Paths and the emptiness of the trie *)

(** X19. A path query walks the trie along the components of the path
    below the root: for a path made of the root and of plain components
    (none empty, none a dot, none with a slash) whose text holds no
    ['::'], membership is the walk of exactly these components from the
    root dictionary. *)
Theorem path_query_walks_components (self : IdTrie.t) (rel : Path) :
  forallb plain_part rel = true →
  split_colons (fspath rel) = [fspath rel] →
  IdTrie.__contains__ self (QPath (IdTrie.rootpath self ++ rel))
  = Ok (IdTrie.walk rel (Some (IdTrie.d self))).
Proof.
  intros Hplain Hcolons.
  unfold IdTrie.__contains__, IdTrie.query_text, relative_to.
  assert (is_absolute (IdTrie.rootpath self ++ rel)
          = is_absolute (IdTrie.rootpath self)) as ->.
  { destruct (IdTrie.rootpath self) as [|r root]; [|done].
    destruct rel as [|x rel']; [done|]. cbn in Hplain |- *.
    apply andb_true_iff in Hplain as [Hx _]. unfold plain_part in Hx.
    apply andb_true_iff in Hx as [_ Hslash]. apply negb_true_iff in Hslash.
    destruct (String.eqb x "/") eqn:H1;
      [apply String.eqb_eq in H1 as ->; discriminate Hslash|].
    destruct (String.eqb x "//") eqn:H2;
      [apply String.eqb_eq in H2 as ->; discriminate Hslash|]. done. }
  rewrite bool_decide_eq_true_2 by apply prefix_app_r, reflexivity.
  rewrite Bool.eqb_reflx. cbn [andb bind].
  rewrite drop_app_length. unfold IdTrie.contains_text.
  by rewrite id_to_path_fspath.
Qed.

Lemma path_query_walks_components_witness :
  IdTrie.__contains__ (IdTrie.__init__ ["/"; "proj"] ["pkg/t.py::a"])
    (QPath ["/"; "proj"; "pkg"; "t.py"])
  = Ok true.
Proof.
  change (QPath ["/"; "proj"; "pkg"; "t.py"])
    with (QPath (IdTrie.rootpath
                   (IdTrie.__init__ ["/"; "proj"] ["pkg/t.py::a"])
                 ++ ["pkg"; "t.py"])).
  rewrite (path_query_walks_components
             (IdTrie.__init__ ["/"; "proj"] ["pkg/t.py::a"]) ["pkg"; "t.py"]);
    reflexivity.
Defined.

(** X20. The trie is truthy exactly when some stored id decomposes into
    at least one segment: built from no id, or only from ids without a
    segment, it is falsy. *)
Theorem trie_truthy_iff_some_segment (rootpath : Path) (nodeids : list string) :
  IdTrie.__bool__ (IdTrie.__init__ rootpath nodeids) = true
  ↔ ∃ id, id ∈ nodeids ∧ IdTrie.id_to_path id ≠ [].
Proof.
  unfold IdTrie.__bool__, IdTrie.__init__. cbn [IdTrie.d].
  set (built := foldl _ _ nodeids).
  rewrite negb_true_iff, bool_decide_eq_false, map_size_empty_iff.
  assert (children built ≠ ∅
          ↔ ∃ k, IdTrie.walk [k] (Some built) = true) as ->.
  { cbn [IdTrie.walk]. split.
    - intros Hne. apply map_choose in Hne as (k & t & Hk). exists k.
      rewrite Hk. by apply bool_decide_eq_true_2.
    - intros (k & Hk) Hempty. rewrite Hempty, lookup_empty in Hk.
      apply bool_decide_eq_true in Hk. by destruct Hk. }
  split.
  - intros (k & Hk). subst built. apply walk_build in Hk as [Hk | (id & Hin & Hpre)].
    + by apply walk_empty_dict in Hk.
    + exists id. split; [done|]. intros Hnil. rewrite Hnil in Hpre.
      by apply prefix_nil_inv in Hpre.
  - intros (id & Hin & Hne). destruct (IdTrie.id_to_path id) as [|k ks] eqn:Hid;
      [done|].
    exists k. subst built. apply walk_build. right. exists id. split; [done|].
    rewrite Hid. by exists ks.
Qed.

(** ** Retention beyond the positive limits *)

Lemma sessionfinish_dbdir (config : SessionPlugin.Config)
    (d : SessionPlugin.Disk) :
  SessionPlugin.cacheshow config = false →
  SessionPlugin.workerinput config = false →
  SessionPlugin.collectonly config = false →
  SessionPlugin.dbdir (SessionPlugin.pytest_sessionfinish config d)
  = SessionPlugin.dbdir d
    ∖ list_to_set
        (slice_until
           (py_sorted String.leb
              (SessionPlugin.glob_sessions (SessionPlugin.dbdir d)))
           (- SessionPlugin.sessions_limit config)).
Proof.
  intros Hc Hw Hco. unfold SessionPlugin.pytest_sessionfinish.
  rewrite Hc, Hw, Hco. cbn. by rewrite unlink_all.
Qed.

Lemma slice_until_sublist {A} (l : list A) (stop : Z) :
  slice_until l stop `sublist_of` l.
Proof. unfold slice_until. destruct (stop <? 0); apply sublist_take. Qed.

Lemma glob_sessions_spec (dir : gset string) (name : string) :
  name ∈ py_sorted String.leb (SessionPlugin.glob_sessions dir)
  ↔ String.prefix "session-" name = true ∧ name ∈ dir.
Proof.
  rewrite py_sorted_perm. unfold SessionPlugin.glob_sessions.
  by rewrite list_elem_of_filter, elem_of_elements.
Qed.

Lemma sorted_take_not_last {A} (R : A → A → Prop) (l : list A) (k : nat)
    (x : A) :
  (∀ a b, R a b → R b a → a = b) →
  StronglySorted R l → NoDup l → (k < length l)%nat →
  (∀ y, y ∈ l → R y x) → x ∉ take k l.
Proof.
  intros Hanti Hsorted Hnd Hk Hmax Hin.
  rewrite <- (take_drop k l) in Hsorted, Hnd.
  apply NoDup_app in Hnd as (_ & Hdisj & _).
  destruct (drop k l) as [|y rest] eqn:Hdrop.
  { apply (f_equal length) in Hdrop. rewrite length_drop in Hdrop.
    cbn in Hdrop. lia. }
  assert (y ∈ l) as Hy.
  { rewrite <- (take_drop k l), Hdrop. apply elem_of_app. right. by left. }
  assert (R x y) as Hxy.
  { clear Hdisj. induction (take k l) as [|a t IH]; [by apply elem_of_nil in Hin|].
    cbn in Hsorted. apply StronglySorted_inv in Hsorted as [Hs Hall].
    apply elem_of_cons in Hin as [-> | Hin]; [|by apply IH].
    rewrite Forall_forall in Hall. apply Hall, elem_of_app. right. by left. }
  assert (x = y) as -> by (apply Hanti; [done | by apply Hmax]).
  apply (Hdisj y Hin). by left.
Qed.

(** X22. Session finish only ever deletes session files, and never the
    newest one when the limit is not negative: no name is added to the
    sessions directory, every name that does not start with [session-]
    stays, and for a limit of zero or more the session file that is last
    in name order - the one of the session that is finishing - stays. *)
Theorem retention_spares_other_files_and_newest (config : SessionPlugin.Config)
    (d : SessionPlugin.Disk) :
  let after := SessionPlugin.pytest_sessionfinish config d in
  (∀ name, name ∈ SessionPlugin.dbdir after → name ∈ SessionPlugin.dbdir d)
  ∧ (∀ name, String.prefix "session-" name = false →
             name ∈ SessionPlugin.dbdir d → name ∈ SessionPlugin.dbdir after)
  ∧ (0 ≤ SessionPlugin.sessions_limit config →
     ∀ name, name ∈ SessionPlugin.dbdir d →
             String.prefix "session-" name = true →
             (∀ other, other ∈ SessionPlugin.dbdir d →
                       String.prefix "session-" other = true →
                       String.leb other name = true) →
             name ∈ SessionPlugin.dbdir after).
Proof.
  intros after. subst after.
  destruct (SessionPlugin.cacheshow config || SessionPlugin.workerinput config
            || SessionPlugin.collectonly config) eqn:Hmode.
  { assert (SessionPlugin.pytest_sessionfinish config d = d) as ->; [|done].
    unfold SessionPlugin.pytest_sessionfinish.
    destruct (SessionPlugin.cacheshow config), (SessionPlugin.workerinput config),
      (SessionPlugin.collectonly config); done. }
  apply orb_false_iff in Hmode as [Hmode Hco].
  apply orb_false_iff in Hmode as [Hc Hw].
  rewrite (sessionfinish_dbdir config d Hc Hw Hco).
  set (sessionfiles :=
         py_sorted String.leb
           (SessionPlugin.glob_sessions (SessionPlugin.dbdir d))).
  split; [|split].
  - intros name Hin. by apply elem_of_difference in Hin as [? _].
  - intros name Hprefix Hin. apply elem_of_difference. split; [done|].
    rewrite elem_of_list_to_set. intros Hdel.
    eapply elem_of_submseteq in Hdel;
      [|apply sublist_submseteq, slice_until_sublist].
    apply glob_sessions_spec in Hdel as [Hp _]. congruence.
  - intros Hlimit name Hin Hprefix Hmax. apply elem_of_difference.
    split; [done|]. rewrite elem_of_list_to_set. unfold slice_until.
    destruct (decide (SessionPlugin.sessions_limit config = 0)) as [-> | Hpos].
    { cbn. apply not_elem_of_nil. }
    rewrite (proj2 (Z.ltb_lt _ _)) by lia.
    assert (name ∈ sessionfiles) as Hname by by apply glob_sessions_spec.
    apply (sorted_take_not_last (fun a b => String.leb a b = true)).
    + apply String.leb_antisym.
    + apply py_sorted_sorted; [apply String.leb_total | apply string_leb_trans].
    + subst sessionfiles. rewrite py_sorted_perm.
      apply NoDup_filter, NoDup_elements.
    + destruct sessionfiles; [by apply elem_of_nil in Hname|]. cbn [length]. lia.
    + intros y [Hp Hy]%glob_sessions_spec. by apply Hmax.
Qed.

Lemma retention_spares_other_files_and_newest_witness :
  let d := SessionPlugin.mkDisk 1 {["session-3"; "session-1"; "saved"; "session-2"]} in
  "session-3"
    ∈ SessionPlugin.dbdir
        (SessionPlugin.pytest_sessionfinish
           (SessionPlugin.mkConfig false false false 1) d).
Proof.
  intros d.
  destruct (retention_spares_other_files_and_newest
              (SessionPlugin.mkConfig false false false 1) d)
    as (_ & _ & Hnewest).
  apply Hnewest; [done | vm_compute; tauto | reflexivity |].
  intros other Hin _. vm_compute in Hin.
  destruct (decide (other = "session-1")) as [-> | ?]; [reflexivity|].
  destruct (decide (other = "session-2")) as [-> | ?]; [reflexivity|].
  destruct (decide (other = "session-3")) as [-> | ?]; [reflexivity|].
  destruct (decide (other = "saved")) as [-> | ?]; [reflexivity|].
  exfalso. revert Hin. change (other ∉ ({["session-3"; "session-1"; "saved"; "session-2"]} : gset string)).
  rewrite !not_elem_of_union, !not_elem_of_singleton. tauto.
Defined.

(** X23. A negative limit deletes instead of keeping: for a limit
    [-k], session finish deletes the [k] session files that come first
    in name order - all of them when there are no more than [k] - and
    keeps the others. *)
Theorem negative_limit_deletes_oldest (config : SessionPlugin.Config)
    (d : SessionPlugin.Disk) :
  SessionPlugin.cacheshow config = false →
  SessionPlugin.workerinput config = false →
  SessionPlugin.collectonly config = false →
  SessionPlugin.sessions_limit config < 0 →
  let k := Z.to_nat (- SessionPlugin.sessions_limit config) in
  let sessionfiles :=
    py_sorted String.leb (SessionPlugin.glob_sessions (SessionPlugin.dbdir d)) in
  let after := SessionPlugin.pytest_sessionfinish config d in
  (∀ name, name ∈ SessionPlugin.dbdir after
           ↔ name ∈ SessionPlugin.dbdir d ∧ name ∉ take k sessionfiles)
  ∧ ((length sessionfiles ≤ k)%nat →
     ∀ name, name ∈ SessionPlugin.dbdir after →
             String.prefix "session-" name = false).
Proof.
  intros Hc Hw Hco Hlimit k sessionfiles after. subst after.
  rewrite (sessionfinish_dbdir config d Hc Hw Hco). fold sessionfiles.
  unfold slice_until. rewrite (proj2 (Z.ltb_ge _ _)) by lia. fold k.
  assert (∀ name, name ∈ SessionPlugin.dbdir d ∖ list_to_set (take k sessionfiles)
                  ↔ name ∈ SessionPlugin.dbdir d ∧ name ∉ take k sessionfiles)
    as Hafter.
  { intros name. by rewrite elem_of_difference, elem_of_list_to_set. }
  split; [exact Hafter|].
  intros Hall name [Hin Hkept]%Hafter. rewrite take_ge in Hkept by done.
  destruct (String.prefix "session-" name) eqn:Hprefix; [|done].
  destruct Hkept. by apply glob_sessions_spec.
Qed.

Lemma negative_limit_deletes_oldest_witness :
  let d := SessionPlugin.mkDisk 1 {["session-3"; "session-1"; "saved"; "session-2"]} in
  let after :=
    SessionPlugin.pytest_sessionfinish
      (SessionPlugin.mkConfig false false false (-1)) d in
  "session-1" ∈ SessionPlugin.dbdir after
  ↔ ("session-1" ∈ SessionPlugin.dbdir d) ∧ ("session-1" ∉ ["session-1"]).
Proof.
  intros d after.
  destruct (negative_limit_deletes_oldest
              (SessionPlugin.mkConfig false false false (-1)) d)
    as [Hafter _]; try reflexivity.
  apply (Hafter "session-1").
Defined.

(** ** The reference store and the options *)

Lemma list_find_sorted_first {A} (R : A → A → Prop) (P : A → Prop)
    `{!∀ x, Decision (P x)} (l : list A) (i : nat) (x : A) :
  StronglySorted R l → list_find P l = Some (i, x) →
  ∀ y, y ∈ l → P y → y = x ∨ R x y.
Proof.
  intros Hsorted. revert i.
  induction Hsorted as [|a l Hsorted IH Hall]; intros i; [done|].
  cbn [list_find]. destruct (decide (P a)) as [Ha | Ha].
  - intros [= <- <-] y [-> | Hin]%elem_of_cons _; [by left|].
    right. rewrite Forall_forall in Hall. by apply Hall.
  - destruct (list_find P l) as [[j z]|] eqn:Hfind; [|done].
    cbn. intros [= <- <-] y [-> | Hin]%elem_of_cons Hy; [done|].
    by eapply IH.
Qed.

Lemma string_leb_flip_trans (a b c : string) :
  String.leb b a = true → String.leb c b = true → String.leb c a = true.
Proof. intros Hba Hcb. by eapply string_leb_trans. Qed.

(** X21. The reference store: a [--reference] name is taken as given.
    Without one, the reference is the session file that comes last in
    name order among those stamped with version 5 - a session that did
    not finish, or finished in collect-only mode, is never picked - and
    the empty in-memory store when no session file is stamped 5. *)
Theorem implicit_reference_is_latest_finished (reference : option string)
    (sessions : gmap string Z) :
  (truthy reference = true →
   choose_reference reference sessions
   = RefPath (default EmptyString reference))
  ∧ (truthy reference = false →
     (∀ name,
        choose_reference reference sessions = RefPath name
        ↔ String.prefix "session-" name = true
          ∧ sessions !! name = Some 5
          ∧ ∀ other, String.prefix "session-" other = true →
                     sessions !! other = Some 5 →
                     String.leb other name = true)
     ∧ (choose_reference reference sessions = RefMemory
        ↔ ∀ name, String.prefix "session-" name = true →
                  sessions !! name ≠ Some 5)).
Proof.
  unfold choose_reference. split; [by intros ->|]. intros ->.
  set (cand := py_sorted (fun a b => String.leb b a)
                 (filter (fun name => String.prefix "session-" name = true)
                         (elements (dom sessions)))).
  assert (∀ name, name ∈ cand
                  ↔ String.prefix "session-" name = true
                    ∧ is_Some (sessions !! name)) as Hcand.
  { intros name. subst cand.
    by rewrite py_sorted_perm, list_elem_of_filter, elem_of_elements,
      elem_of_dom. }
  assert (StronglySorted (fun a b => String.leb b a = true) cand) as Hsorted.
  { apply py_sorted_sorted.
    - intros a b. destruct (String.leb_total a b); auto.
    - intros a b c. apply string_leb_flip_trans. }
  destruct (list_find _ cand) as [[i found]|] eqn:Hfind.
  - cbn [snd]. pose proof Hfind as Hfound.
    apply list_find_Some in Hfound as (Hi & Hversion & _).
    apply list_elem_of_lookup_2 in Hi. apply Hcand in Hi as [Hprefix _].
    split; [|split; [done|]].
    + intros name. split.
      * intros [= <-]. split; [done|]. split; [done|].
        intros other Hp Hv.
        destruct (list_find_sorted_first _ _ cand i found Hsorted Hfind other)
          as [-> | Hle]; [apply Hcand; eauto | done | | done].
        by destruct (String.leb_total found found).
      * intros (Hp & Hv & Hmax). f_equal.
        destruct (list_find_sorted_first _ _ cand i found Hsorted Hfind name)
          as [-> | Hle]; [apply Hcand; eauto | done | done |].
        apply String.leb_antisym; [by apply Hmax | done].
    + intros Hnone. by destruct (Hnone found).
  - split; [|split; [|done]].
    + intros name. split; [done|]. intros (Hp & Hv & _).
      apply list_find_None in Hfind. rewrite Forall_forall in Hfind.
      destruct (Hfind name); [apply Hcand; eauto | done].
    + intros _ name Hp Hv.
      apply list_find_None in Hfind. rewrite Forall_forall in Hfind.
      destruct (Hfind name); [apply Hcand; eauto | done].
Qed.

Lemma implicit_reference_is_latest_finished_witness :
  choose_reference None
    {[ "session-1" := 5; "session-2" := 5; "session-3" := 1; "notes" := 5 ]}
  = RefPath "session-2".
Proof.
  destruct (implicit_reference_is_latest_finished None
              {[ "session-1" := 5; "session-2" := 5; "session-3" := 1;
                 "notes" := 5 ]}) as [_ Himplicit].
  destruct Himplicit as [Hpath _]; [reflexivity|].
  apply Hpath. split; [reflexivity|]. split; [reflexivity|].
  intros other Hp Hv.
  repeat (apply lookup_insert_Some in Hv as [[<- Hv] | [_ Hv]];
          [first [reflexivity | discriminate] |]).
  apply lookup_singleton_Some in Hv as [<- _]. discriminate Hp.
Defined.

(** X24. How the options combine.  A non-empty [--rerun] overrides
    [--lf] and the stepwise options: its categories are used, the
    fallback stays on and [maxfail] is left alone.  The fallback is off
    only for [--lf] without [--rerun] and with [--lfnf] other than all;
    [maxfail] is set only by a stepwise option, without [--rerun] and
    [--lf]; a non-empty [--rerun-order] overrides [--ff] and [--nf]; and
    with [--show-session] only the replay is configured, whatever the
    other options say. *)
Theorem option_precedence (o : Options) (sessions : gmap string Z) :
  let p := plan_of o in
  (truthy (opt_rerun o) = true →
   plan_rerun p = opt_rerun o ∧ plan_all_if_none p = true
   ∧ plan_maxfail p = None)
  ∧ (plan_all_if_none p = false
     ↔ truthy (opt_rerun o) = false ∧ opt_lf o = true
       ∧ opt_lfnf o ≠ "all")
  ∧ (is_Some (plan_maxfail p)
     ↔ truthy (opt_rerun o) = false ∧ opt_lf o = false
       ∧ (opt_sw_skip o || opt_sw_reset o || opt_sw o = true))
  ∧ (truthy (opt_rerun_order o) = true →
     plan_rerun_order p = opt_rerun_order o)
  ∧ (pytest_configure o sessions
     = if opt_show_session o
       then Replay (choose_reference (opt_reference o) sessions)
       else Recording (choose_reference (opt_reference o) sessions) p).
Proof.
  intros p. subst p. unfold plan_of, pytest_configure.
  split; [|split; [|split; [|split]]].
  - by intros ->.
  - destruct (truthy (opt_rerun o)); [cbn; split; [done | by intros [? _]]|].
    destruct (opt_lf o).
    + cbn. rewrite <- not_true_iff_false, String.eqb_eq. tauto.
    + destruct (opt_sw_skip o), (opt_sw_reset o), (opt_sw o); cbn;
        (split; [done | by intros (_ & ? & _)]).
  - destruct (truthy (opt_rerun o));
      [cbn; split; [by intros [? ?] | by intros [? _]]|].
    destruct (opt_lf o);
      [cbn; split; [by intros [? ?] | by intros (_ & ? & _)]|].
    destruct (opt_sw_skip o), (opt_sw_reset o), (opt_sw o); cbn;
      (split; [by eauto | intros (_ & _ & ?); by eauto]).
  - intros Horder. rewrite Horder.
    destruct (truthy (opt_rerun o)); [done|]. destruct (opt_lf o); [done|].
    by destruct (opt_sw_skip o), (opt_sw_reset o), (opt_sw o).
  - done.
Qed.

Lemma option_precedence_witness :
  plan_all_if_none
    (plan_of (mkOptions None false (Some "failed") true "none" false false
                        true None false false))
  = true.
Proof.
  destruct (option_precedence
              (mkOptions None false (Some "failed") true "none" false false
                         true None false false) ∅) as (Hrerun & _).
  destruct Hrerun as (_ & Hflag & _); [reflexivity | exact Hflag].
Defined.

(** ** The collection hooks one after the other *)

Lemma executemany_insert_app (ids1 ids2 : list string) (cn cn1 : Store) :
  SessionPlugin.executemany_insert cn ids1 = (cn1, Ok tt) →
  SessionPlugin.executemany_insert cn (ids1 ++ ids2)
  = SessionPlugin.executemany_insert cn1 ids2.
Proof.
  revert cn. induction ids1 as [|id ids1 IH]; intros cn; cbn.
  - by intros [= <-].
  - destruct (SessionPlugin.insert_pending cn id) as [cn'|e]; [apply IH | done].
Qed.

(** X25. A node id collected twice stops the bulk insert half way: when
    the collected list repeats an id after a stretch of distinct new
    ids, the insert raises [IntegrityError] at the repetition, and the
    rows of the stretch before it stay inserted as pending - nothing is
    rolled back - while every other row is as it was. *)
Theorem repeated_id_stops_insert_half_way (cn : Store)
    (before rest : list Item) (again : Item) :
  NoDup (nodeid <$> before) →
  (∀ it, it ∈ before → cn !! nodeid it = None) →
  nodeid again ∈ nodeid <$> before →
  ∃ cn',
    SessionPlugin.pytest_collection_modifyitems cn (before ++ again :: rest)
    = (cn', Raise IntegrityError)
    ∧ (∀ it, it ∈ before → cn' !! nodeid it = Some pending_row)
    ∧ (∀ id, id ∉ nodeid <$> before → cn' !! id = cn !! id).
Proof.
  intros Hnd Hfresh Hagain. unfold SessionPlugin.pytest_collection_modifyitems.
  destruct (executemany_insert_fresh (nodeid <$> before) cn Hnd)
    as (cn' & Hrun & Hnew & Hold).
  { intros id (it & -> & Hin)%list_elem_of_fmap. by apply Hfresh. }
  exists cn'. rewrite map_app. cbn [map].
  rewrite (executemany_insert_app _ _ _ _ Hrun).
  cbn [SessionPlugin.executemany_insert]. unfold SessionPlugin.insert_pending.
  rewrite (Hnew _ Hagain). split; [done|]. split; [|done].
  intros it Hin. apply Hnew, list_elem_of_fmap. eauto.
Qed.

Lemma repeated_id_stops_insert_half_way_witness :
  ∃ cn',
    SessionPlugin.pytest_collection_modifyitems ∅
      [mkItem "t.py::a" ["t.py"] 0; mkItem "t.py::b" ["t.py"] 0;
       mkItem "t.py::a" ["t.py"] 0; mkItem "t.py::c" ["t.py"] 0]
    = (cn', Raise IntegrityError)
    ∧ cn' !! "t.py::b" = Some pending_row.
Proof.
  destruct (repeated_id_stops_insert_half_way ∅
              [mkItem "t.py::a" ["t.py"] 0; mkItem "t.py::b" ["t.py"] 0]
              [mkItem "t.py::c" ["t.py"] 0] (mkItem "t.py::a" ["t.py"] 0))
    as (cn' & Hrun & Hnew & _).
  - apply (bool_decide_unpack _). vm_compute. exact I.
  - intros it _. apply lookup_empty.
  - by left.
  - exists cn'. split; [exact Hrun|].
    apply (Hnew (mkItem "t.py::b" ["t.py"] 0)). right. by left.
Defined.

Lemma rerun_modifyitems_ok (self : RerunPlugin.t) (main reference : Store)
    (items : list Item) :
  (∀ it, it ∈ items → is_Some (main !! nodeid it)) →
  ∃ cn' sel,
    RerunPlugin.pytest_collection_modifyitems self main reference items
    = (cn', Ok sel)
    ∧ RerunPlugin.selected sel `sublist_of` items
    ∧ ∀ id, is_Some (main !! id) → is_Some (cn' !! id).
Proof.
  intros Hrows. unfold RerunPlugin.pytest_collection_modifyitems.
  set (main1 := RerunPlugin.merge_reference main reference).
  assert (∀ id, is_Some (main !! id) → is_Some (main1 !! id)) as Hmain1.
  { intros id [r Hr]. subst main1. rewrite merge_reference_lookup, Hr. eauto. }
  destruct (RerunPlugin.rerun_falsy self).
  { eexists _, _. split; [reflexivity|]. split; [done|]. exact Hmain1. }
  rewrite (split_items_filter _ _
             (fun it => reference_outcome reference (nodeid it))).
  2:{ intros it Hin. rewrite rerun_prev_lookup.
      by destruct (Hmain1 _ (Hrows it Hin)) as [r ->]. }
  destruct (negb (bool_decide (_ = [])) || negb (RerunPlugin.all_if_none self)).
  2:{ eexists _, _. split; [reflexivity|]. split; [done|]. exact Hmain1. }
  destruct (updates_spec main1 reference
              (filter (fun it => reference_outcome reference (nodeid it)
                                 ∉ RerunPlugin.rerun_tags self) items))
    as (us & -> & Hspec & _).
  { intros it [_ Hin]%list_elem_of_filter. by apply Hmain1, Hrows. }
  destruct (executemany_update_spec reference us main1 Hspec)
    as (cn' & -> & Hcn').
  eexists _, _. split; [reflexivity|]. split; [apply sublist_filter|].
  intros id Hid. rewrite Hcn'. apply Hmain1 in Hid as [r ->].
  destruct (decide _); cbn; eauto.
Qed.

(** X26. On a new store the three collection hooks run through: for
    collected items with distinct node ids, the recorder's bulk insert,
    then rerun selection, then reordering all return; what is left is a
    reordering of the selected items, which are collected items in
    collection order, and every collected id has a row at the end. *)
Theorem collection_hooks_compose (rerun : RerunPlugin.t)
    (order : ReorderPlugin.t) (reference : Store) (items : list Item) :
  NoDup (nodeid <$> items) →
  ∃ cn1 cn2 sel sorted,
    SessionPlugin.pytest_collection_modifyitems init_db.1 items
    = (cn1, Ok tt)
    ∧ RerunPlugin.pytest_collection_modifyitems rerun cn1 reference items
      = (cn2, Ok sel)
    ∧ ReorderPlugin.pytest_collection_modifyitems order cn2 reference
        (RerunPlugin.selected sel)
      = Ok sorted
    ∧ sorted ≡ₚ RerunPlugin.selected sel
    ∧ RerunPlugin.selected sel `sublist_of` items
    ∧ ∀ it, it ∈ items → is_Some (cn2 !! nodeid it).
Proof.
  intros Hnd.
  destruct (executemany_insert_fresh (nodeid <$> items) ∅ Hnd)
    as (cn1 & Hinsert & Hnew & _); [intros id _; apply lookup_empty|].
  assert (∀ it, it ∈ items → is_Some (cn1 !! nodeid it)) as Hrows1.
  { intros it Hin. exists pending_row. apply Hnew, list_elem_of_fmap. eauto. }
  destruct (rerun_modifyitems_ok rerun cn1 reference items Hrows1)
    as (cn2 & sel & Hrerun & Hsub & Hkeeps).
  assert (∀ it, it ∈ items → is_Some (cn2 !! nodeid it)) as Hrows2
    by (intros it Hin; by apply Hkeeps, Hrows1).
  exists cn1, cn2, sel. eexists.
  split; [exact Hinsert|]. split; [exact Hrerun|].
  split; [|split; [|split; [exact Hsub | exact Hrows2]]].
  - apply reorder_sorted_by_key. intros it Hin. left.
    apply Hrows2. eapply elem_of_submseteq; [exact Hin|].
    by apply sublist_submseteq.
  - apply py_sorted_perm.
Qed.

Lemma collection_hooks_compose_witness :
  let a := mkItem "t.py::a" ["t.py"] 1 in
  let b := mkItem "t.py::b" ["t.py"] 2 in
  ∃ cn1 cn2 sel sorted,
    SessionPlugin.pytest_collection_modifyitems init_db.1 [a; b]
    = (cn1, Ok tt)
    ∧ RerunPlugin.pytest_collection_modifyitems
        (RerunPlugin.mk (Some {["new"]}) true) cn1 ∅ [a; b]
      = (cn2, Ok sel)
    ∧ ReorderPlugin.pytest_collection_modifyitems
        (ReorderPlugin.configure ["new"]) cn2 ∅ (RerunPlugin.selected sel)
      = Ok sorted
    ∧ sorted ≡ₚ RerunPlugin.selected sel.
Proof.
  intros a b.
  destruct (collection_hooks_compose (RerunPlugin.mk (Some {["new"]}) true)
              (ReorderPlugin.configure ["new"]) ∅ [a; b])
    as (cn1 & cn2 & sel & sorted & H1 & H2 & H3 & H4 & _).
  - apply (bool_decide_unpack _). vm_compute. exact I.
  - exists cn1, cn2, sel, sorted. done.
Defined.

(** ** Stored ids and what leads to them *)

(** X3. Storing an id makes what leads to it a member: when a stored id
    is a text that does not end with a colon, then ['::'], then a rest -
    a file id before the name of its test, a class id before its
    method - the trie contains that text, and the segments of the stored
    id are those of the text followed by the ['::'] fields of the rest. *)
Theorem stored_id_makes_its_parents_members (rootpath : Path)
    (nodeids : list string) (parent rest : string) :
  ends_with_colon parent = false →
  (parent ++ "::" ++ rest)%string ∈ nodeids →
  IdTrie.id_to_path (parent ++ "::" ++ rest)
  = (IdTrie.id_to_path parent ++ split_colons rest)%list
  ∧ IdTrie.__contains__ (IdTrie.__init__ rootpath nodeids) (QStr parent)
    = Ok true.
Proof.
  intros Hend Hin. split; [by apply id_to_path_app|].
  unfold IdTrie.__contains__. cbn [IdTrie.query_text bind]. f_equal.
  apply contains_text_spec. right. eexists. split; [exact Hin|].
  rewrite id_to_path_app by done. by apply prefix_app_r.
Qed.

Lemma stored_id_makes_its_parents_members_witness :
  IdTrie.__contains__
    (IdTrie.__init__ ["/"; "proj"] ["pkg/t.py::Suite::case"])
    (QStr "pkg/t.py::Suite")
  = Ok true.
Proof.
  apply (stored_id_makes_its_parents_members ["/"; "proj"]
           ["pkg/t.py::Suite::case"] "pkg/t.py::Suite" "case");
    [reflexivity | by left].
Defined.

(** ** Replaying a recorded session *)

Lemma replay_collect_app {J E : Type}
    (from_json : string → E + ShowSessionPlugin.Report J)
    (before rest : list (string * Row)) :
  Forall (collect_replays from_json) before →
  ShowSessionPlugin.replay_collect from_json (before ++ rest)
  = ((collect_events from_json before
      ++ (ShowSessionPlugin.replay_collect from_json rest).1)%list,
     (ShowSessionPlugin.replay_collect from_json rest).2).
Proof.
  induction 1 as [|row before Hrow Hall IH].
  - cbn. by destruct (ShowSessionPlugin.replay_collect from_json rest).
  - cbn [app ShowSessionPlugin.replay_collect collect_events omap list_omap].
    fold (collect_events from_json before).
    destruct (collect row.2) as [blob|] eqn:Hblob; [|exact IH].
    destruct (Hrow blob Hblob) as [Hok (report & Hreport)].
    rewrite bool_decide_eq_true_2
      by (apply collect_ok_text in Hok as [Hnone | Hin]; [congruence | done]).
    rewrite Hreport, IH. done.
Qed.

(** X9. Replaying the collection of a session.  When every row with a
    collection blob is failed or skipped and its blob deserialises, the
    replay returns after one collection report per blob, in the order of
    the rows, each with its list longrepr made a tuple, or its text
    longrepr wrapped when the report failed; the number of collected
    tests is the count of rows with ['::'] in the id and an outcome other
    than pending, and the session's items are assigned only when that
    count is zero - the list of mock items is then empty.  Otherwise the
    replay stops at the first row that cannot be replayed, after the
    reports of the rows before it: with [AssertionError] when the row is
    neither failed nor skipped, else with the deserialiser's exception. *)
Theorem replay_collection {J E : Type}
    (from_json : string → E + ShowSessionPlugin.Report J)
    (rows : list (string * Row)) :
  (Forall (collect_replays from_json) rows →
   ShowSessionPlugin.pytest_collection from_json rows
   = (collect_events from_json rows,
      ShowSessionPlugin.Returned
        (ShowSessionPlugin.mkCollected
           (ShowSessionPlugin.count_tests rows)
           (if decide (ShowSessionPlugin.count_tests rows = 0%nat)
            then Some [] else None))))
  ∧ (∀ before row rest blob,
       rows = (before ++ row :: rest)%list →
       Forall (collect_replays from_json) before →
       collect row.2 = Some blob →
       (¬ collect_ok row.2 →
        ShowSessionPlugin.pytest_collection from_json rows
        = (collect_events from_json before,
           ShowSessionPlugin.Raised AssertionError))
       ∧ (collect_ok row.2 → ∀ e, from_json blob = inl e →
          ShowSessionPlugin.pytest_collection from_json rows
          = (collect_events from_json before,
             ShowSessionPlugin.HostRaised e))).
Proof.
  split.
  - intros Hall. unfold ShowSessionPlugin.pytest_collection.
    pose proof (replay_collect_app from_json rows [] Hall) as Happ.
    rewrite app_nil_r in Happ.
    cbn [ShowSessionPlugin.replay_collect fst snd] in Happ.
    rewrite app_nil_r in Happ. rewrite Happ. cbn [fst snd].
    f_equal. f_equal. f_equal.
    destruct (ShowSessionPlugin.count_tests rows) as [|n]; done.
  - intros before row rest blob -> Hall Hblob.
    unfold ShowSessionPlugin.pytest_collection.
    rewrite (replay_collect_app from_json before (row :: rest) Hall).
    cbn [fst snd ShowSessionPlugin.replay_collect]. rewrite Hblob. split.
    + intros Hbad. rewrite bool_decide_eq_false_2.
      * cbn. by rewrite app_nil_r.
      * intros Hin. apply Hbad, collect_ok_text. by right.
    + intros Hok e He. rewrite bool_decide_eq_true_2
        by (apply collect_ok_text in Hok as [Hnone | Hin]; [congruence | done]).
      rewrite He. cbn. by rewrite app_nil_r.
Qed.

Lemma replay_collection_witness :
  let from_json := fun blob : string =>
    if String.eqb blob "{}" then inl "KeyError"
    else inr (ShowSessionPlugin.mkReplayed true
                (ShowSessionPlugin.ReprStr blob) blob) in
  let a := ("a.py", mkRow failed (Some "boom") None None None None None None) in
  let b := ("b.py", mkRow failed (Some "{}") None None None None None None) in
  ShowSessionPlugin.pytest_collection from_json [a; b]
  = ([ShowSessionPlugin.pytest_collectreport
        (ShowSessionPlugin.mkReplayed true
           (ShowSessionPlugin.ReprCollectError "boom") "boom")],
     ShowSessionPlugin.HostRaised "KeyError").
Proof.
  intros from_json a b.
  destruct (replay_collection from_json [a; b]) as [_ Hstop].
  destruct (Hstop [a] b [] "{}") as [_ Hhost]; [reflexivity | | reflexivity |].
  - constructor; [|constructor].
    intros blob [= <-]. split; [intros _; by left|].
    eexists. reflexivity.
  - apply Hhost; [intros _; by left | reflexivity].
Defined.

Lemma replay_phases_all {J E : Type}
    (from_json : string → E + ShowSessionPlugin.Report J)
    (r : Row) (phases : list string) :
  (∀ phase blob, get_phase phase r = Some blob →
                 ∃ report, from_json blob = inr report) →
  ShowSessionPlugin.replay_phases from_json r phases
  = (report_events from_json (omap (fun phase => get_phase phase r) phases),
     ShowSessionPlugin.Returned tt).
Proof.
  intros Hall. induction phases as [|phase phases IH]; [done|].
  cbn [ShowSessionPlugin.replay_phases omap list_omap].
  destruct (get_phase phase r) as [blob|] eqn:Hblob; [|exact IH].
  destruct (Hall phase blob Hblob) as [report Hreport].
  rewrite Hreport, IH. cbn [fst snd report_events omap list_omap].
  by rewrite Hreport.
Qed.

Lemma replay_phases_reports {J E : Type}
    (from_json : string → E + ShowSessionPlugin.Report J)
    (r : Row) (phases : list string) (ev : ShowSessionPlugin.Event J) :
  ev ∈ (ShowSessionPlugin.replay_phases from_json r phases).1 →
  ∃ report, ev = ShowSessionPlugin.pytest_runtest_logreport report.
Proof.
  induction phases as [|phase phases IH]; cbn [ShowSessionPlugin.replay_phases].
  - intros Hin. by apply elem_of_nil in Hin.
  - destruct (get_phase phase r) as [blob|]; [|exact IH].
    destruct (from_json blob) as [e|report].
    + intros Hin. by apply elem_of_nil in Hin.
    + cbn [fst]. intros [-> | Hin]%elem_of_cons; [by eexists | by apply IH].
Qed.

Lemma replay_row_start {J E : Type}
    (from_json : string → E + ShowSessionPlugin.Report J)
    (id id' : string) (r : Row) (loc : ShowSessionPlugin.Location) :
  ShowSessionPlugin.pytest_runtest_logstart id' loc
    ∈ (ShowSessionPlugin.replay_row from_json id r).1
  ↔ id' = id ∧ loc = ShowSessionPlugin.row_location r.
Proof.
  unfold ShowSessionPlugin.replay_row. cbn [fst]. rewrite elem_of_cons.
  split; [|intros [-> ->]; by left].
  intros [[= -> ->] | Hin]; [done|].
  apply elem_of_app in Hin as [Hin | Hin].
  - apply replay_phases_reports in Hin as [report [=]].
  - destruct (ShowSessionPlugin.replay_phases _ _ _).2;
      [apply list_elem_of_singleton in Hin; discriminate Hin
      | by apply elem_of_nil in Hin ..].
Qed.

Lemma replay_reports_app {J E : Type}
    (from_json : string → E + ShowSessionPlugin.Report J)
    (before rest : list (string * Row)) :
  Forall (phases_replay from_json) before →
  ShowSessionPlugin._replay_reports from_json (before ++ rest)
  = ((concat
        (map (fun row : string * Row =>
                (ShowSessionPlugin.replay_row from_json row.1 row.2).1)
             (filter (fun row : string * Row => like_colons row.1 = true)
                     before))
      ++ (ShowSessionPlugin._replay_reports from_json rest).1)%list,
     (ShowSessionPlugin._replay_reports from_json rest).2).
Proof.
  induction 1 as [|row before Hrow Hall IH].
  - cbn. by destruct (ShowSessionPlugin._replay_reports from_json rest).
  - cbn [app ShowSessionPlugin._replay_reports]. rewrite filter_cons.
    destruct (like_colons row.1) eqn:Hlike.
    + rewrite decide_True by done. cbn [map concat].
      unfold ShowSessionPlugin.replay_row at 1 2.
      rewrite (replay_phases_all from_json row.2 _ (Hrow)).
      cbn [fst snd]. rewrite IH. cbn [fst snd].
      unfold ShowSessionPlugin.replay_row.
      rewrite (replay_phases_all from_json row.2 _ (Hrow)).
      cbn [fst snd]. by rewrite <- app_assoc.
    + rewrite decide_False by done. exact IH.
Qed.

(** X10. Record, then replay.  A test is started with a location whose
    line number can be bound, and any series of phase reports follows;
    the rows of the store then make the table of a replay, in some
    order, and every phase blob in it deserialises.  The replay returns,
    and for a row whose id holds ['::'] its calls hold, in one block:
    the start notice with the recorded location; then for setup, call
    and teardown in this order the report deserialised from the last
    blob reported for the phase (or from the one the row already held,
    or nothing), a list longrepr made a tuple; then the finish notice
    with the same location. *)
Theorem recorded_test_replays {J E : Type}
    (from_json : string → E + ShowSessionPlugin.Report J)
    (cn : Store) (id : string) (r : Row)
    (location : string * option Z * string) (reps : list TestReport)
    (rows : list (string * Row)) :
  cn !! id = Some r → like_colons id = true →
  from_option SessionPlugin.sqlite_int true location.1.2 = true →
  let after_run :=
    foldl SessionPlugin.pytest_runtest_logreport
          (SessionPlugin.pytest_runtest_logstart cn id location).1 reps in
  let loc := (Some location.1.1, location.1.2, Some location.2) in
  rows ≡ₚ map_to_list after_run →
  Forall (phases_replay from_json) rows →
  ∃ before after,
    ShowSessionPlugin._replay_reports from_json rows
    = ((before
        ++ [ShowSessionPlugin.pytest_runtest_logstart id loc]
        ++ report_events from_json
             (omap (fun phase => last_blob phase (reports_of id reps) r)
                   ["setup"; "call"; "teardown"])
        ++ [ShowSessionPlugin.pytest_runtest_logfinish id loc]
        ++ after)%list,
       ShowSessionPlugin.Returned tt).
Proof.
  intros Hrow Hlike Hbind after_run loc Hrows Hall.
  set (r0 := mkRow (outcome r) (collect r) (setup r) (call r) (teardown r)
                   (Some location.1.1) location.1.2 (Some location.2)).
  set (r' := foldl (fun r rep => recorded rep r) r0 (reports_of id reps)).
  assert (after_run !! id = Some r') as Hafter.
  { subst after_run. rewrite logreport_fold_lookup.
    unfold SessionPlugin.pytest_runtest_logstart. rewrite Hbind. cbn [fst].
    by rewrite lookup_alter_eq, Hrow. }
  assert ((id, r') ∈ rows) as Hin
    by (rewrite Hrows; by apply elem_of_map_to_list).
  apply list_elem_of_split in Hin as (l1 & l2 & ->).
  apply Forall_app in Hall as [Hall1 Hall2].
  pose proof Hall2 as Hall2'. apply Forall_cons in Hall2' as [Hr' _].
  pose proof (replay_reports_app from_json (l1 ++ (id, r') :: l2) [] ) as Hrun.
  rewrite app_nil_r in Hrun. rewrite Hrun by (by apply Forall_app).
  cbn [ShowSessionPlugin._replay_reports fst snd]. rewrite app_nil_r.
  rewrite filter_app, filter_cons, decide_True by done.
  rewrite map_app, concat_app. cbn [map concat fst snd].
  eexists _, _. f_equal. f_equal.
  unfold ShowSessionPlugin.replay_row.
  rewrite (replay_phases_all from_json r' _ Hr'). cbn [fst snd].
  assert (ShowSessionPlugin.row_location r' = loc) as ->.
  { unfold ShowSessionPlugin.row_location. subst r'.
    by destruct (fold_recorded_keeps (reports_of id reps) r0)
      as (_ & -> & -> & ->). }
  assert (∀ phase, phase ∈ ["setup"; "call"; "teardown"] →
                   get_phase phase r' = last_blob phase (reports_of id reps) r)
    as Hphase.
  { intros phase Hin. subst r'. rewrite fold_recorded_phase by done.
    unfold last_blob. destruct (last _); [done|].
    repeat (apply elem_of_cons in Hin as [-> | Hin]); [done..|].
    by apply elem_of_nil in Hin. }
  cbn [omap list_omap]. rewrite !Hphase by (repeat constructor).
  cbn [app]. rewrite <- !app_assoc. reflexivity.
Qed.

Lemma recorded_test_replays_witness :
  let from_json := fun blob : string =>
    inr (ShowSessionPlugin.mkReplayed false
           (ShowSessionPlugin.ReprList [blob]) blob) : string + _ in
  ∃ before after,
    ShowSessionPlugin._replay_reports from_json
      [("t.py::a",
        mkRow failed None (Some "s") (Some "c") None
              (Some "t.py") (Some 3) (Some "a"))]
    = ((before
        ++ [ShowSessionPlugin.pytest_runtest_logstart "t.py::a"
              (Some "t.py", Some 3, Some "a");
            ShowSessionPlugin.pytest_runtest_logreport
              (ShowSessionPlugin.mkReplayed false
                 (ShowSessionPlugin.ReprTuple ["s"]) "s");
            ShowSessionPlugin.pytest_runtest_logreport
              (ShowSessionPlugin.mkReplayed false
                 (ShowSessionPlugin.ReprTuple ["c"]) "c");
            ShowSessionPlugin.pytest_runtest_logfinish "t.py::a"
              (Some "t.py", Some 3, Some "a")]
        ++ after)%list,
       ShowSessionPlugin.Returned tt).
Proof.
  intros from_json.
  apply (recorded_test_replays from_json {[ "t.py::a" := pending_row ]}
           "t.py::a" pending_row ("t.py", Some 3, "a")
           [mkReport "t.py::a" "setup" rpassed false "s";
            mkReport "t.py::a" "call" rfailed false "c"]);
    [reflexivity | reflexivity | reflexivity | |].
  - vm_compute. reflexivity.
  - constructor; [|constructor]. intros phase blob _. by eexists.
Defined.

(** X11. The replay treats a row as a test exactly when its node id
    holds ['::'].  Every start notice it emits is for a row of the table
    whose id splits on ['::'] into at least two segments, and carries
    the location stored in that row.  When every phase blob of the table
    deserialises, the replay returns and has emitted the start and the
    finish notice of every such row; rows of collectors, whose ids hold
    no ['::'], are never replayed as tests. *)
Theorem replay_starts_tests_only {J E : Type}
    (from_json : string → E + ShowSessionPlugin.Report J)
    (rows : list (string * Row)) :
  let replay := ShowSessionPlugin._replay_reports from_json rows in
  (∀ id loc,
     ShowSessionPlugin.pytest_runtest_logstart id loc ∈ replay.1 →
     (∃ r, (id, r) ∈ rows ∧ loc = ShowSessionPlugin.row_location r)
     ∧ (2 ≤ length (split_colons id))%nat)
  ∧ (Forall (phases_replay from_json) rows →
     replay.2 = ShowSessionPlugin.Returned tt
     ∧ ∀ id r, (id, r) ∈ rows → (2 ≤ length (split_colons id))%nat →
         (ShowSessionPlugin.pytest_runtest_logstart id
            (ShowSessionPlugin.row_location r) ∈ replay.1)
         ∧ (ShowSessionPlugin.pytest_runtest_logfinish id
              (ShowSessionPlugin.row_location r) ∈ replay.1)).
Proof.
  intros replay. subst replay. split.
  - intros id loc. induction rows as [|[id0 r0] rows IH];
      cbn [ShowSessionPlugin._replay_reports fst snd].
    { intros Hin. by apply elem_of_nil in Hin. }
    assert (ShowSessionPlugin.pytest_runtest_logstart id loc
              ∈ (ShowSessionPlugin._replay_reports from_json rows).1 →
            (∃ r, (id, r) ∈ (id0, r0) :: rows
                  ∧ loc = ShowSessionPlugin.row_location r)
            ∧ (2 ≤ length (split_colons id))%nat) as Hrest.
    { intros Hin. destruct (IH Hin) as [(r & Hr & ->) Hlen].
      split; [|done]. exists r. split; [by right | done]. }
    destruct (like_colons id0) eqn:Hlike; [|exact Hrest].
    assert (ShowSessionPlugin.pytest_runtest_logstart id loc
              ∈ (ShowSessionPlugin.replay_row from_json id0 r0).1 →
            (∃ r, (id, r) ∈ (id0, r0) :: rows
                  ∧ loc = ShowSessionPlugin.row_location r)
            ∧ (2 ≤ length (split_colons id))%nat) as Hhead.
    { intros [-> ->]%replay_row_start. split; [|by apply like_colons_split].
      exists r0. split; [by left | done]. }
    destruct (ShowSessionPlugin.replay_row from_json id0 r0).2;
      [|exact Hhead..].
    cbn [fst]. intros [Hin | Hin]%elem_of_app; auto.
  - intros Hall.
    pose proof (replay_reports_app from_json rows [] Hall) as Hrun.
    rewrite app_nil_r in Hrun.
    cbn [ShowSessionPlugin._replay_reports fst snd] in Hrun.
    rewrite app_nil_r in Hrun. rewrite Hrun. cbn [fst snd].
    split; [done|]. intros id r Hin Hlen.
    apply like_colons_split in Hlen.
    assert (∀ ev, ev ∈ (ShowSessionPlugin.replay_row from_json id r).1 →
                  ev ∈ concat
                         (map (fun row : string * Row =>
                                 (ShowSessionPlugin.replay_row from_json
                                    row.1 row.2).1)
                              (filter (fun row : string * Row =>
                                         like_colons row.1 = true) rows)))
      as Hblock.
    { intros ev Hev. apply list_elem_of_In, in_concat.
      exists (ShowSessionPlugin.replay_row from_json id r).1.
      split; [|by apply list_elem_of_In].
      apply in_map_iff. exists (id, r). split; [done|].
      apply list_elem_of_In, list_elem_of_filter. done. }
    rewrite Forall_forall in Hall. specialize (Hall (id, r) Hin).
    split; apply Hblock.
    + apply replay_row_start. done.
    + unfold ShowSessionPlugin.replay_row.
      rewrite (replay_phases_all from_json r _ Hall). cbn [fst snd].
      right. apply elem_of_app. right. by left.
Qed.
